(** * flippy: flip-books from videos and animated GIFs

    A shallow embedding of [flippy.py] (classes [Size], [Point], [Margin],
    [AnimatedGif], [FlipbookCreator] and the function [main]) together with
    the properties of its layout, pagination and temporary-file handling.

    Modelling conventions.
    - Python [int] is [Z].  Python [float] is modelled by the canonical
      rationals [Qc]: arithmetic is exact, [int(_)] truncates toward zero and
      a division by zero raises [ZeroDivisionError], as in Python.  Binary64
      rounding, overflow and NaN are left out of this model, which is used
      for the properties that do not hinge on them; the module [Binary64] has
      the layout arithmetic as Python computes it, on integers and IEEE 754
      binary64 numbers, with the exceptions of [float()], [/] and [int()].
    - The external collaborators (PIL, moviepy, fpdf, os, argparse) are
      modelled by the calls the program makes to them: every call is recorded
      in a trace, images are terms recording the PIL operations applied to
      them, and the file system is the set of existing file names.
    - Console output is not modelled. *)

From Stdlib Require Import QArith Qcanon Qround Ascii Floats Uint63.
From stdpp Require Import base numbers strings list gmap pretty.

Local Open Scope Z_scope.

(** Float literals such as [25.4] denote the nearest binary64 number, as in
    Python. *)
#[local] Set Warnings "-inexact-float,-clear-no-such-hyp".

(** ** Numbers *)

Definition qz (n : Z) : Qc := Qc_of_Z n.

(** The decimal 25.4, for the float literal [25.4] in the model over the
    rationals ([Binary64] has the binary64 literal itself). *)
Definition mm_per_inch : Qc := Q2Qc (127 # 5).

(** [int(q)] on a float: truncation toward zero. *)
Definition int (q : Qc) : Z := Z.quot (Qnum q) (Zpos (Qden q)).

(** Rounding to the nearest integer, as the specification words the pixel
    size (ties go to the even neighbour, as Python's [round] does).  The
    program never calls it; it is here to be compared with [int]. *)
Definition spec_round (q : Qc) : Z :=
  let f := Qfloor q in
  let r := (q - qz f)%Qc in
  match (r ?= Q2Qc (1 # 2))%Qc with
  | Lt => f
  | Gt => f + 1
  | Eq => if Z.even f then f else f + 1
  end.

(** ** Exceptions and the world *)

Inductive Exn :=
| KeyError (key : string)
| UnboundLocalError (var : string)
| ZeroDivisionError
| OSError (what : string)
| FileNotFoundError (name : string)
| TypeError
| AttributeError (name : string)
| SystemExit (code : Z)
| ValueError
| OverflowError.

Inductive Outcome (A : Type) :=
| Return (a : A)
| Raise (e : Exn).
Arguments Return {A} a.
Arguments Raise {A} e.

(** ** The data classes *)

Record Size := mkSize { width : Qc; height : Qc }.

Definition to_tuple (s : Size) : Qc * Qc := (width s, height s).

Definition from_tuple (sz : Z * Z) : Size := mkSize (qz sz.1) (qz sz.2).

Record Point := mkPoint { px : Qc; py : Qc }.

Record Margin := mkMargin { top : Qc; right : Qc; bottom : Qc; left : Qc }.

(** ** The paper catalog *)

Definition PAPER_SIZES : list (string * Size) :=
  [ ("a5", mkSize (qz 210) (qz 148));
    ("a4", mkSize (qz 297) (qz 210));
    ("a3", mkSize (qz 420) (qz 297));
    ("letter", mkSize (Q2Qc (2794 # 10)) (Q2Qc (2159 # 10)));
    ("legal", mkSize (Q2Qc (3556 # 10)) (Q2Qc (2159 # 10))) ]%string.

Definition PAPER_CHOICES : list string := PAPER_SIZES.*1.

Fixpoint dict_get {A} (d : list (string * A)) (k : string) : option A :=
  match d with
  | [] => None
  | (k', v) :: d' => if decide (k' = k) then Some v else dict_get d' k
  end.

(** [str.lower()] and [str.upper()] on ASCII letters. *)
Definition lower_ascii (c : ascii) : ascii :=
  let n := nat_of_ascii c in
  if decide (65 ≤ n ∧ n ≤ 90)%nat then ascii_of_nat (n + 32) else c.

Definition upper_ascii (c : ascii) : ascii :=
  let n := nat_of_ascii c in
  if decide (97 ≤ n ∧ n ≤ 122)%nat then ascii_of_nat (n - 32) else c.

Fixpoint str_map (f : ascii → ascii) (s : string) : string :=
  match s with
  | EmptyString => EmptyString
  | String c s' => String (f c) (str_map f s')
  end.

Definition lower : string → string := str_map lower_ascii.
Definition upper : string → string := str_map upper_ascii.

Definition endswith (s suffix : string) : bool :=
  let n := String.length s in
  let k := String.length suffix in
  (k <=? n)%nat && String.eqb (String.substring (n - k) k s) suffix.

(** [range(0, n)] *)
Definition range (n : Z) : list Z := Z.of_nat <$> seq 0 (Z.to_nat n).

(** ** Media, images and frames

    A decoded video frame (a numpy array) and a palette are opaque; they are
    named by a number. *)

Definition Pixels := nat.
Definition Palette := nat.

(** A PIL image is the term of the PIL calls that produced it. *)
Inductive Image :=
| gif_frame (pos : nat)
| Image_new (mode : string) (size : Z * Z)
| putpalette (p : Palette) (im : Image)
| paste (dst src : Image)
| convert (mode : string) (im : Image)
| fromarray (a : Pixels)
| thumbnail (size : Qc * Qc) (im : Image).

(** What the frame iteration of [process] yields: the GIF image object
    itself, positioned at some stored frame, or a numpy array. *)
Inductive Frame :=
| GifImageFile (pos : nat)
| ndarray (a : Pixels).

Record VideoFileClip := mkClip {
  clip_fps : Qc;
  clip_duration : Qc;
  clip_size : Z * Z;
  iter_frames : list Pixels
}.

(** The image object returned by [Image.open]: one mutable object whose
    current frame is changed by [seek]. *)
Record GifFile := mkGif {
  im_size : Z * Z;
  getpalette : Palette;
  n_frames : nat;
  tell : nat
}.

Definition seek (im : GifFile) (ix : nat) : option GifFile :=
  if decide (ix < n_frames im)%nat
  then Some (mkGif (im_size im) (getpalette im) (n_frames im) ix)
  else None.

Inductive Media :=
| video_file (c : VideoFileClip)
| image_file (g : GifFile).

(** The outcome of [write_videofile] followed by re-opening the written
    file. *)
Inductive Reencoded :=
| reencoded (c : VideoFileClip)
| reencode_failed (partial_file : bool).

(** The external collaborators. *)
Record Env := mkEnv {
  media : string → option Media;
  write_videofile : VideoFileClip → Z → Reencoded;
  sink_ok : bool
}.

(** ** Calls to the collaborators *)

Inductive Event :=
| ev_write_videofile (name : string) (fps : Z)
| ev_FPDF (unit format orientation : string)
| ev_pdf_set (what value : string)
| ev_add_page
| ev_line (x1 y1 x2 y2 : Qc)
| ev_save (name : string) (im : Image)
| ev_image (name : string) (x y w h : Qc)
| ev_rotate (angle : Z) (at_ : option (Qc * Qc))
| ev_text (x y : Qc) (txt : string)
| ev_output (name : string)
| ev_remove (name : string).

Record World := mkWorld {
  files : gset string;
  trace : list Event
}.

(** ** The exception and state monad *)

Definition M (A : Type) : Type := World → Outcome A * World.

Definition ret {A} (a : A) : M A := λ w, (Return a, w).
Definition raise {A} (e : Exn) : M A := λ w, (Raise e, w).
Definition bind {A B} (c : M A) (k : A → M B) : M B :=
  λ w, match c w with
       | (Return a, w') => k a w'
       | (Raise e, w') => (Raise e, w')
       end.

Notation "x <~ c ;; k" := (bind c (λ x, k))
  (at level 100, c at next level, right associativity).
Notation "c ;;; k" := (bind c (λ _, k))
  (at level 100, right associativity).

Definition emit (e : Event) : M () :=
  λ w, (Return (), mkWorld (files w) (trace w ++ [e])).
Definition create_file (name : string) : M () :=
  λ w, (Return (), mkWorld ({[name]} ∪ files w) (trace w)).

Definition of_option {A} (o : option A) (e : Exn) : M A :=
  match o with Some a => ret a | None => raise e end.

(** Float division. *)
Definition fdiv (a b : Qc) : M Qc :=
  if decide (b = 0%Qc) then raise ZeroDivisionError else ret (a / b)%Qc.

(** [os.remove] *)
Definition os_remove (name : string) : M () :=
  λ w, if decide (name ∈ files w)
       then (Return (), mkWorld (files w ∖ {[name]}) (trace w ++ [ev_remove name]))
       else (Raise (FileNotFoundError name), w).

(** [im.save(name)] *)
Definition save (im : Image) (name : string) : M () :=
  emit (ev_save name im) ;;; create_file name.

Fixpoint for_each {A} (l : list A) (body : A → M ()) : M () :=
  match l with
  | [] => ret ()
  | a :: l' => body a ;;; for_each l' body
  end.

(** ** class AnimatedGif

    [__getitem__]: index 0 returns the image object where it stands, without
    seeking; any other index seeks first; [EOFError] becomes [IndexError]
    ([None] here), which ends a [for] loop over the object. *)
Definition getitem (im : GifFile) (ix : nat) : option GifFile :=
  if decide (ix = 0)%nat then Some im else seek im ix.

(** A [for] loop over [AnimatedGif(im)]: the positions at which the image
    object is handed to the loop body, and the object afterwards. *)
Fixpoint AnimatedGif_from (fuel : nat) (im : GifFile) (ix : nat)
  : list nat * GifFile :=
  match fuel with
  | O => ([], im)
  | S fuel' =>
      match getitem im ix with
      | Some im' =>
          let '(l, im'') := AnimatedGif_from fuel' im' (S ix) in
          (tell im' :: l, im'')
      | None => ([], im)
      end
  end.

Definition AnimatedGif (im : GifFile) : list nat * GifFile :=
  AnimatedGif_from (S (n_frames im)) im 0.

(** ** class FlipbookCreator

    [__init__] sets either [self.frames] (with [self.im], [self.palette],
    [self.last_im]) or [self.clip], never both and never neither.  The
    attribute [self.fps] is the field [self_fps]; [fps] is the parameter of
    [process]. *)
Inductive Source :=
| gif_source (im : GifFile) (palette : Palette) (last_im : Image)
| clip_source (clip : VideoFileClip).

Record FlipbookCreator := mkCreator {
  verbosity : Z;
  input_file_name : string;
  source : Source;
  self_fps : Qc;
  frame_count : Z
}.

Definition Image_open (env : Env) (name : string) : M GifFile :=
  match media env name with
  | Some (image_file g) => ret (mkGif (im_size g) (getpalette g) (n_frames g) 0)
  | _ => raise (OSError name)
  end.

Definition VideoFileClip_open (env : Env) (name : string) : M VideoFileClip :=
  match media env name with
  | Some (video_file c) => ret c
  | _ => raise (OSError name)
  end.

(** The compositing loop of [__init__], one pass over the frames. *)
Definition composite_pass (palette : Palette) (last_im : Image)
    (positions : list nat) : Image :=
  foldl (λ last f, paste (putpalette palette last) (gif_frame f))
        last_im positions.

Definition init (env : Env) (verbosity : option Z) (input_file_name : string)
  : M FlipbookCreator :=
  self <~ (if endswith input_file_name ".gif" then
      im <~ Image_open env input_file_name ;;
      let palette := getpalette im in
      let '(counted, im) := AnimatedGif im in
      let frame_count := Z.of_nat (length counted) in
      let last_im := Image_new "P" (im_size im) in
      let '(pass1, im) := AnimatedGif im in
      let last_im := composite_pass palette last_im pass1 in
      let '(pass2, im) := AnimatedGif im in
      let last_im := composite_pass palette last_im pass2 in
      ret (λ v, mkCreator v input_file_name
                  (gif_source im palette last_im) 0%Qc frame_count)
    else
      clip <~ VideoFileClip_open env input_file_name ;;
      ret (λ v, mkCreator v input_file_name (clip_source clip) (clip_fps clip)
                  (int (clip_duration clip * clip_fps clip)%Qc))) ;;
  match verbosity with
  | None => raise TypeError
  | Some v => ret (self v)
  end.

(** *** The layout computed by [process] (lines 147 to 155) *)
Record Plan := mkPlan {
  printable_area : Size;
  frame_mm : Size;
  total : Size;
  frame : Size;
  nx : Z;
  ny : Z
}.

Definition geometry (clip_size : Size) (dpi : Z) (offset height_mm : Qc)
    (margins : Margin) (paper_format : string) : M Plan :=
  paper <~ of_option (dict_get PAPER_SIZES (lower paper_format))
                     (KeyError (lower paper_format)) ;;
  let printable_area :=
    mkSize (width paper - left margins - right margins)%Qc
           (height paper - top margins - bottom margins)%Qc in
  q <~ fdiv height_mm (height clip_size) ;;
  let frame_mm := mkSize (q * width clip_size)%Qc height_mm in
  let total := mkSize (offset + width frame_mm)%Qc (height frame_mm) in
  let frame := mkSize (qz (int (width frame_mm / mm_per_inch * qz dpi)%Qc))
                      (qz (int (height frame_mm / mm_per_inch * qz dpi)%Qc)) in
  qx <~ fdiv (width printable_area) (width total) ;;
  let nx := int qx in
  qy <~ fdiv (height printable_area) (height total) ;;
  let ny := int qy in
  ret (mkPlan printable_area frame_mm total frame nx ny).

(** *** The nested function [draw_raster] *)
Definition draw_raster (nx ny : Z) (x0 y0 x1 y1 offset : Qc) (total : Size)
  : M () :=
  for_each (range (nx + 1)) (λ ix,
    let xx := (x0 + qz ix * width total)%Qc in
    emit (ev_line xx y0 xx y1) ;;;
    if decide ((0 < offset)%Qc ∧ ix ≠ nx)
    then emit (ev_line (xx + offset)%Qc y0 (xx + offset)%Qc y1)
    else ret ()) ;;;
  for_each (range (ny + 1)) (λ iy,
    let yy := (y0 + qz iy * height total)%Qc in
    emit (ev_line x0 yy x1 yy)).

(** *** The local variables of the frame loop *)
Record Locals := mkLocals {
  l_i : Z;
  l_page : Z;
  l_tx : Z;
  l_ty : Z;
  l_x : option Qc;
  l_y : option Qc;
  l_tmp_files : list string;
  l_last_im : option Image
}.

Definition temp_name (page tx ty : Z) : string :=
  "tmp-" +:+ pretty page +:+ "-" +:+ pretty tx +:+ "-" +:+ pretty ty +:+ ".png".

(** *** The body of the frame loop (lines 198 to 234) *)
Definition loop_body (self : FlipbookCreator) (p : Plan) (offset x0 y0 x1 y1 : Qc)
    (st : Locals) (f : Frame) : M Locals :=
  _ready <~ (if decide (frame_count self = 0) then raise ZeroDivisionError
             else ret (qz (l_i st + 1) / qz (frame_count self))%Qc) ;;
  let tx := l_tx st + 1 in
  converted <~ match f with
    | GifImageFile pos =>
        match source self, l_last_im st with
        | gif_source _ palette _, Some last_im =>
            let f' := putpalette palette (gif_frame pos) in
            let last_im := paste last_im f' in
            ret (convert "RGBA" last_im, Some last_im)
        | _, _ => raise (AttributeError "palette")
        end
    | ndarray a =>
        ret (thumbnail (to_tuple (frame p)) (fromarray a), l_last_im st)
    end ;;
  let '(im, last_im) := converted in
  moved <~ (if decide (tx = nx p) then
      let tx := 0 in
      let ty := l_ty st + 1 in
      if decide (ty = ny p) then
        let ty := 0 in
        draw_raster (nx p) (ny p) x0 y0 x1 y1 offset (total p) ;;;
        emit ev_add_page ;;;
        ret (l_page st + 1, tx, ty)
      else ret (l_page st, tx, ty)
    else ret (l_page st, tx, l_ty st)) ;;
  let '(page, tx, ty) := moved in
  let temp_file := temp_name page tx ty in
  save im temp_file ;;;
  let tmp_files := l_tmp_files st ++ [temp_file] in
  let x := (x0 + qz tx * width (total p))%Qc in
  let y := (y0 + qz ty * height (total p))%Qc in
  emit (ev_image temp_file (x + offset)%Qc y
                 (width (frame_mm p)) (height (frame_mm p))) ;;;
  let text := mkPoint x (y + height (frame_mm p) - qz 2)%Qc in
  (if decide (0 < offset)%Qc then
     emit (ev_rotate 90 (Some (px text, py text))) ;;;
     emit (ev_text (px text) (py text + qz 5)%Qc (pretty (l_i st))) ;;;
     emit (ev_rotate 0 None)
   else ret ()) ;;;
  ret (mkLocals (l_i st + 1) page tx ty (Some x) (Some y) tmp_files last_im).

Fixpoint frame_loop (self : FlipbookCreator) (p : Plan)
    (offset x0 y0 x1 y1 : Qc) (all_frames : list Frame) (st : Locals)
  : M Locals :=
  match all_frames with
  | [] => ret st
  | f :: rest =>
      st' <~ loop_body self p offset x0 y0 x1 y1 st f ;;
      frame_loop self p offset x0 y0 x1 y1 rest st'
  end.

(** Reading a local variable that may not have been assigned yet. *)
Definition read_local (name : string) (v : option Qc) : M Qc :=
  of_option v (UnboundLocalError name).

(** *** [FlipbookCreator.process]

    The body of [process] is split at its blank lines into the blocks below;
    [process] runs them in order. *)

(** Lines 133 to 145: transcode a clip whose rate differs from [fps], and
    read the native frame size. *)
Definition open_source (env : Env) (self : FlipbookCreator) (fps : Z)
  : M (FlipbookCreator * list string * Size) :=
  let tmp_files : list string := [] in
  match source self with
  | clip_source clip =>
      if decide (qz fps ≠ clip_fps clip) then
        emit (ev_write_videofile "tmp.mp4" fps) ;;;
        match write_videofile env clip fps with
        | reencode_failed partial_file =>
            (if partial_file then create_file "tmp.mp4" else ret ()) ;;;
            raise (OSError "tmp.mp4")
        | reencoded clip' =>
            create_file "tmp.mp4" ;;;
            ret (mkCreator (verbosity self) (input_file_name self)
                   (clip_source clip') (clip_fps clip')
                   (int (clip_duration clip' * clip_fps clip')%Qc),
                 tmp_files ++ ["tmp.mp4"], from_tuple (clip_size clip'))
        end
      else ret (self, tmp_files, from_tuple (clip_size clip))
  | gif_source im _ _ => ret (self, tmp_files, from_tuple (im_size im))
  end.

(** Lines 175 to 184: the document and its first page. *)
Definition new_document (paper_format : string) : M () :=
  emit (ev_FPDF "mm" (upper paper_format) "L") ;;;
  emit (ev_pdf_set "compression" "True") ;;;
  emit (ev_pdf_set "title" "Funny video") ;;;
  emit (ev_pdf_set "author"
          "Oliver Lau <ola@ct.de> - Heise Medien GmbH & Co. KG") ;;;
  emit (ev_pdf_set "creator" "flippy") ;;;
  emit (ev_pdf_set "keywords" "flip-book, video, animated GIF") ;;;
  emit (ev_pdf_set "draw_color" "128, 128, 128") ;;;
  emit (ev_pdf_set "line_width" "0.1") ;;;
  emit (ev_pdf_set "font" "Helvetica, , 12") ;;;
  emit ev_add_page.

(** Lines 191 to 196: the frame sequence.  The third branch of the source
    ([all_frames = []]) needs both [self.clip] and [self.frames] unset, which
    [Source] excludes.  Iterating the GIF moves the image object. *)
Definition all_frames (self : FlipbookCreator)
  : list Frame * FlipbookCreator * option Image :=
  match source self with
  | clip_source clip => (ndarray <$> iter_frames clip, self, None)
  | gif_source im palette last_im =>
      let '(positions, im') := AnimatedGif im in
      (GifImageFile <$> positions,
       mkCreator (verbosity self) (input_file_name self)
         (gif_source im' palette last_im) (self_fps self) (frame_count self),
       Some last_im)
  end.

(** Lines 236 and 237: the raster of the last page. *)
Definition final_raster (p : Plan) (offset x0 y0 x1 y1 : Qc) (st : Locals)
  : M () :=
  y <~ read_local "y" (l_y st) ;;
  if decide (y ≠ 0%Qc) then
    x <~ read_local "x" (l_x st) ;;
    if decide (x ≠ 0%Qc)
    then draw_raster (nx p) (ny p) x0 y0 x1 y1 offset (total p)
    else ret ()
  else ret ().

(** Lines 241 to 245: write the document, then remove the temporary
    files. *)
Definition finish (env : Env) (output_file_name : string)
    (tmp_files : list string) : M () :=
  (if sink_ok env then emit (ev_output output_file_name) ;;;
                       create_file output_file_name
   else raise (OSError output_file_name)) ;;;
  for_each tmp_files os_remove.

Definition initial_locals (tmp_files : list string) (last_im : option Image)
  : Locals :=
  mkLocals 0 0 (-1) 0 None None tmp_files last_im.

Definition process (env : Env) (self : FlipbookCreator)
    (output_file_name : string) (dpi : Z) (offset : Qc) (fps : Z)
    (height_mm : Qc) (margins : Margin) (paper_format : string)
  : M FlipbookCreator :=
  opened <~ open_source env self fps ;;
  let '(self, tmp_files, clip_size) := opened in
  p <~ geometry clip_size dpi offset height_mm margins paper_format ;;
  new_document paper_format ;;;
  let x0 := left margins in
  let y0 := top margins in
  let x1 := (x0 + qz (nx p) * width (total p))%Qc in
  let y1 := (y0 + qz (ny p) * height (total p))%Qc in
  let '(frames, self, last_im) := all_frames self in
  st <~ frame_loop self p offset x0 y0 x1 y1 frames
          (initial_locals tmp_files last_im) ;;
  final_raster p offset x0 y0 x1 y1 st ;;;
  finish env output_file_name (l_tmp_files st) ;;;
  ret (match source self, l_last_im st with
       | gif_source im palette _, Some last_im =>
           mkCreator (verbosity self) (input_file_name self)
             (gif_source im palette last_im) (self_fps self) (frame_count self)
       | _, _ => self
       end).

(** ** The command line *)

(** The option values of a command line that argparse could read, converted
    by their [type=] functions; [None] for [a_v] is a bare [-v].  A command
    line that argparse cannot read (no input name, an unknown option, a value
    its [type=] function rejects) or that asks for help has no such value:
    argparse ends those runs itself, with status 2 or 0, before any code of
    [main] below line 259 runs, and they are outside this model. *)
Record Args := mkArgs {
  a_video : string;
  a_out : string;
  a_height : Qc;
  a_paper : string;
  a_offset : Qc;
  a_phena : bool;
  a_dpi : Z;
  a_fps : Z;
  a_v : option Z
}.

(** [parser.parse_args()]: argparse rejects a [--paper] value outside
    [choices] with exit status 2. *)
Definition parse_args (argv : Args) : M Args :=
  if decide (a_paper argv ∈ PAPER_CHOICES) then ret argv
  else raise (SystemExit 2).

Definition default_margins : Margin := mkMargin (qz 10) (qz 10) (qz 10) (qz 10).
Definition default_fps : Z := 10.

Definition main (env : Env) (argv : Args) : M FlipbookCreator :=
  args <~ parse_args argv ;;
  (if a_phena args then raise (SystemExit 1) else ret ()) ;;;
  flippy <~ init env (a_v args) (a_video args) ;;
  process env flippy (a_out args) (a_dpi args) (a_offset args) default_fps
          (a_height args) default_margins (a_paper args).

Definition empty_world : World := mkWorld ∅ [].

(** ** Observations on a trace *)

(** The frames placed in the document: the page they land on (pages are
    opened by [add_page]; [page] is the page open at the start of [tr]), the
    image file and the position. *)
Fixpoint placements (page : Z) (tr : list Event) : list (Z * string * Qc * Qc) :=
  match tr with
  | [] => []
  | ev_add_page :: tr' => placements (page + 1) tr'
  | ev_image name x y _ _ :: tr' => (page, name, x, y) :: placements page tr'
  | _ :: tr' => placements page tr'
  end.

(** The labels printed next to the frames. *)
Definition labels (tr : list Event) : list string :=
  omap (λ e, match e with ev_text _ _ txt => Some txt | _ => None end) tr.

(** The images written to temporary files. *)
Definition saved (tr : list Event) : list (string * Image) :=
  omap (λ e, match e with ev_save name im => Some (name, im) | _ => None end) tr.

(** The re-encodings requested. *)
Definition transcodes (tr : list Event) : list (string * Z) :=
  omap (λ e, match e with
             | ev_write_videofile name fps => Some (name, fps)
             | _ => None
             end) tr.

(** The temporary files a trace creates. *)
Definition created (tr : list Event) : list string :=
  omap (λ e, match e with
             | ev_save name _ => Some name
             | ev_write_videofile name _ => Some name
             | _ => None
             end) tr.

(** The raster lines drawn. *)
Definition lines (tr : list Event) : list Event :=
  omap (λ e, match e with ev_line _ _ _ _ => Some e | _ => None end) tr.

(** [im] is the result of [thumbnail(size)]. *)
Definition resized_to (size : Qc * Qc) (im : Image) : bool :=
  match im with
  | thumbnail size' _ => bool_decide (size' = size)
  | _ => false
  end.

(** ** Closed forms *)

(** [n] is [q] cut off toward zero. *)
Definition truncation (q : Qc) (n : Z) : Prop :=
  ((0 ≤ q)%Qc → (qz n ≤ q < qz n + 1)%Qc) ∧
  ((q ≤ 0)%Qc → (qz n - 1 < q ≤ qz n)%Qc).

(** The lines [draw_raster] draws. *)
Definition raster_lines (nx ny : Z) (x0 y0 x1 y1 offset : Qc) (total : Size)
  : list Event :=
  (range (nx + 1) ≫= λ ix,
     let xx := (x0 + qz ix * width total)%Qc in
     ev_line xx y0 xx y1 ::
     if decide ((0 < offset)%Qc ∧ ix ≠ nx)
     then [ev_line (xx + offset)%Qc y0 (xx + offset)%Qc y1] else [])
  ++ ((λ iy, let yy := (y0 + qz iy * height total)%Qc in
             ev_line x0 yy x1 yy) <$> range (ny + 1)).

(** The cell of the [k]-th frame (counting from 0) on a grid of [nx] by [ny]
    tiles filled row by row: page, column, row. *)
Definition cell (nx ny k : Z) : Z * Z * Z :=
  (k `div` (nx * ny), k `mod` nx, (k `div` nx) `mod` ny).

(** One step of the tile counters (lines 203 and 211 to 218) on the triple
    page, column, row. *)
Definition advance (nx ny : Z) (s : Z * Z * Z) : Z * Z * Z :=
  let '(page, tx, ty) := s in
  if decide (tx + 1 = nx) then
    if decide (ty + 1 = ny) then (page + 1, 0, 0) else (page, 0, ty + 1)
  else (page, tx + 1, ty).

(** The step from [s] starts a new page. *)
Definition breaks (nx ny : Z) (s : Z * Z * Z) : Prop :=
  s.1.2 + 1 = nx ∧ s.2 + 1 = ny.

(** The cells of the next [n] frames after the counters [s]. *)
Fixpoint walk (nx ny : Z) (s : Z * Z * Z) (n : nat) : list (Z * Z * Z) :=
  match n with
  | O => []
  | S n' => let s' := advance nx ny s in s' :: walk nx ny s' n'
  end.

Definition cell_name (s : Z * Z * Z) : string := temp_name s.1.1 s.1.2 s.2.

Definition cell_x (p : Plan) (x0 : Qc) (s : Z * Z * Z) : Qc :=
  (x0 + qz s.1.2 * width (total p))%Qc.

Definition cell_y (p : Plan) (y0 : Qc) (s : Z * Z * Z) : Qc :=
  (y0 + qz s.2 * height (total p))%Qc.

(** The image saved for a frame (lines 204 to 210) and the composite carried
    to the next frame; [None] when a GIF frame meets a creator without
    palette. *)
Definition develop (self : FlipbookCreator) (size : Qc * Qc)
    (last_im : option Image) (f : Frame) : option (Image * option Image) :=
  match f with
  | GifImageFile pos =>
      match source self, last_im with
      | gif_source _ palette _, Some last =>
          let last' := paste last (putpalette palette (gif_frame pos)) in
          Some (convert "RGBA" last', Some last')
      | _, _ => None
      end
  | ndarray a => Some (thumbnail size (fromarray a), last_im)
  end.

Fixpoint develop_all (self : FlipbookCreator) (size : Qc * Qc)
    (last_im : option Image) (frames : list Frame)
  : option (list Image * option Image) :=
  match frames with
  | [] => Some ([], last_im)
  | f :: rest =>
      match develop self size last_im f with
      | Some (im, last') =>
          match develop_all self size last' rest with
          | Some (ims, last'') => Some (im :: ims, last'')
          | None => None
          end
      | None => None
      end
  end.

(** The calls made for the frame with index [i] that lands in cell [s]. *)
Definition tile_events (p : Plan) (offset x0 y0 : Qc) (i : Z)
    (s : Z * Z * Z) (im : Image) : list Event :=
  let x := cell_x p x0 s in
  let y := cell_y p y0 s in
  [ev_save (cell_name s) im;
   ev_image (cell_name s) (x + offset)%Qc y
            (width (frame_mm p)) (height (frame_mm p))]
  ++ if decide (0 < offset)%Qc
     then [ev_rotate 90 (Some (x, (y + height (frame_mm p) - qz 2)%Qc));
           ev_text x (y + height (frame_mm p) - qz 2 + qz 5)%Qc (pretty i);
           ev_rotate 0 None]
     else [].

(** The calls made by one pass through the loop body, from counters [s]. *)
Definition step_events (p : Plan) (offset x0 y0 x1 y1 : Qc) (i : Z)
    (s : Z * Z * Z) (im : Image) : list Event :=
  (if decide (breaks (nx p) (ny p) s)
   then raster_lines (nx p) (ny p) x0 y0 x1 y1 offset (total p) ++ [ev_add_page]
   else [])
  ++ tile_events p offset x0 y0 i (advance (nx p) (ny p) s) im.

(** The calls made by the whole loop. *)
Fixpoint loop_events (p : Plan) (offset x0 y0 x1 y1 : Qc) (i : Z)
    (s : Z * Z * Z) (ims : list Image) : list Event :=
  match ims with
  | [] => []
  | im :: ims' =>
      step_events p offset x0 y0 x1 y1 i s im
      ++ loop_events p offset x0 y0 x1 y1 (i + 1) (advance (nx p) (ny p) s) ims'
  end.

(** The local variables after the loop has placed a frame in each of the
    cells [cells], the last one being [s]. *)
Definition locals_after (p : Plan) (x0 y0 : Qc) (st : Locals)
    (cells : list (Z * Z * Z)) (last_im : option Image) : Locals :=
  match last cells with
  | None => st
  | Some s =>
      mkLocals (l_i st + Z.of_nat (length cells)) s.1.1 s.1.2 s.2
               (Some (cell_x p x0 s)) (Some (cell_y p y0 s))
               (l_tmp_files st ++ (cell_name <$> cells)) last_im
  end.

(** The calls of [new_document]. *)
Definition document_events (paper_format : string) : list Event :=
  [ev_FPDF "mm" (upper paper_format) "L";
   ev_pdf_set "compression" "True";
   ev_pdf_set "title" "Funny video";
   ev_pdf_set "author" "Oliver Lau <ola@ct.de> - Heise Medien GmbH & Co. KG";
   ev_pdf_set "creator" "flippy";
   ev_pdf_set "keywords" "flip-book, video, animated GIF";
   ev_pdf_set "draw_color" "128, 128, 128";
   ev_pdf_set "line_width" "0.1";
   ev_pdf_set "font" "Helvetica, , 12";
   ev_add_page].

(** The calls of [final_raster] when the last frame went to cell [s]. *)
Definition final_raster_events (p : Plan) (offset x0 y0 x1 y1 : Qc)
    (s : Z * Z * Z) : list Event :=
  if decide (cell_y p y0 s ≠ 0%Qc ∧ cell_x p x0 s ≠ 0%Qc)
  then raster_lines (nx p) (ny p) x0 y0 x1 y1 offset (total p)
  else [].

(** Cells in the order in which they are filled. *)
Definition cell_lt (s s' : Z * Z * Z) : Prop :=
  s.1.1 < s'.1.1 ∨
  (s.1.1 = s'.1.1 ∧ (s.2 < s'.2 ∨ (s.2 = s'.2 ∧ s.1.2 < s'.1.2))).

(** Counters the loop can be in: the column is -1 only before the first
    frame. *)
Definition cell_ok (s : Z * Z * Z) : Prop := 0 ≤ s.1.1 ∧ -1 ≤ s.1.2 ∧ 0 ≤ s.2.

Definition is_digit (c : ascii) : bool :=
  let n := nat_of_ascii c in (48 <=? n)%nat && (n <=? 57)%nat.

Fixpoint digits (s : string) : bool :=
  match s with
  | EmptyString => true
  | String c s' => is_digit c && digits s'
  end.

Definition is_line (e : Event) : Prop :=
  match e with ev_line _ _ _ _ => True | _ => False end.

(** The documents written and the files removed. *)
Definition written (tr : list Event) : list string :=
  omap (λ e, match e with ev_output name => Some name | _ => None end) tr.

Definition removed (tr : list Event) : list string :=
  omap (λ e, match e with ev_remove name => Some name | _ => None end) tr.

(** The pages opened by a trace. *)
Definition opened (tr : list Event) : Z :=
  Z.of_nat (length (omap (λ e, match e with
                              | ev_add_page => Some ()
                              | _ => None
                              end) tr)).

(** Where the frame in cell [s] is placed, as [placements] reports it. *)
Definition placement (p : Plan) (offset x0 y0 : Qc) (s : Z * Z * Z)
  : Z * string * Qc * Qc :=
  (s.1.1, cell_name s, (cell_x p x0 s + offset)%Qc, cell_y p y0 s).

(** The cells filled by a run of [n] frames. *)
Definition run_cells (p : Plan) (n : nat) : list (Z * Z * Z) :=
  walk (nx p) (ny p) (0, -1, 0) n.

(** All calls of a run of [process] that returns: re-encoding when [tmp]
    holds the re-encoded file, the document, the frames [ims], the last
    raster, the output and the removal of the temporary files. *)
Definition run_events (fps : Z) (paper_format : string) (p : Plan)
    (offset : Qc) (margins : Margin) (tmp : list string) (ims : list Image)
    (output_file_name : string) : list Event :=
  let x0 := left margins in
  let y0 := top margins in
  let x1 := (x0 + qz (nx p) * width (total p))%Qc in
  let y1 := (y0 + qz (ny p) * height (total p))%Qc in
  let cells := run_cells p (length ims) in
  ((λ name, ev_write_videofile name fps) <$> tmp)
  ++ document_events paper_format
  ++ loop_events p offset x0 y0 x1 y1 0 (0, -1, 0) ims
  ++ final_raster_events p offset x0 y0 x1 y1 (default (0, -1, 0) (last cells))
  ++ ev_output output_file_name
     :: (ev_remove <$> tmp ++ (cell_name <$> cells)).

Definition clip_creator (name : string) (clip : VideoFileClip)
  : FlipbookCreator :=
  mkCreator 0 name (clip_source clip) (clip_fps clip)
            (int (clip_duration clip * clip_fps clip)%Qc).

(** Calls that come after the last frame: raster lines, the output and the
    removals. *)
Definition is_tail (e : Event) : Prop :=
  match e with
  | ev_line _ _ _ _ | ev_output _ | ev_remove _ => True
  | _ => False
  end.

(** ** More observations and closed forms *)

(** Calls that draw on the document or save a tile image: everything but
    re-encoding, writing the document and removing files. *)
Definition is_drawing (e : Event) : Prop :=
  match e with
  | ev_write_videofile _ _ | ev_output _ | ev_remove _ => False
  | _ => True
  end.

(** The running composite of an animated GIF (lines 205 and 206): every
    frame is pasted, with the palette of the file, on the composite of the
    frames before it. *)
Fixpoint composites (palette : Palette) (last_im : Image) (positions : list nat)
  : list Image :=
  match positions with
  | [] => []
  | pos :: rest =>
      let last_im := paste last_im (putpalette palette (gif_frame pos)) in
      last_im :: composites palette last_im rest
  end.

(** The line [e] lies in the box from [(xa, ya)] to [(xb, yb)]. *)
Definition in_box (xa ya xb yb : Qc) (e : Event) : Prop :=
  match e with
  | ev_line a b c d =>
      (xa ≤ a ≤ xb)%Qc ∧ (ya ≤ b ≤ yb)%Qc ∧ (xa ≤ c ≤ xb)%Qc ∧ (ya ≤ d ≤ yb)%Qc
  | _ => False
  end.

(** The calls that print the frame numbers: rotations and texts. *)
Definition annotations (tr : list Event) : list Event :=
  omap (λ e, match e with
             | ev_rotate _ _ | ev_text _ _ _ => Some e
             | _ => None
             end) tr.

(** The three calls that print the number [i] next to the frame in cell [s]
    (lines 229 to 233). *)
Definition label_events (p : Plan) (x0 y0 : Qc) (i : Z) (s : Z * Z * Z)
  : list Event :=
  let x := cell_x p x0 s in
  let y := (cell_y p y0 s + height (frame_mm p) - qz 2)%Qc in
  [ev_rotate 90 (Some (x, y)); ev_text x (y + qz 5)%Qc (pretty i);
   ev_rotate 0 None].

(** ** Fixtures *)

Definition clip_16_9 (fps : Z) (n : nat) : VideoFileClip :=
  mkClip (qz fps) (qz (Z.of_nat n) / qz fps)%Qc (1920, 1080) (seq 0 n).

Definition gif_2 : GifFile := mkGif (500, 500) 7%nat 2 0.

(** A file system holding a three-frame 10 fps video, a 25 fps one, a video
    without frames and a two-frame GIF; re-encoding keeps the frames. *)
Definition demo_env (sink : bool) : Env :=
  mkEnv (λ name,
           if decide (name = "a.mp4") then Some (video_file (clip_16_9 10 3))
           else if decide (name = "b.mp4") then Some (video_file (clip_16_9 25 3))
           else if decide (name = "empty.mp4")
                then Some (video_file (mkClip (qz 25) 0%Qc (1920, 1080) []))
           else if decide (name = "c.gif") then Some (image_file gif_2)
           else None)
        (λ c fps, reencoded (mkClip (qz fps) (clip_duration c) (clip_size c)
                               (iter_frames c)))
        sink.

Definition demo_args (video : string) : Args :=
  mkArgs video "flip-book.pdf" (qz 30) "a4" (qz 15) false 200 10 (Some 0).

Definition with_fps (n : Z) (a : Args) : Args :=
  mkArgs (a_video a) (a_out a) (a_height a) (a_paper a) (a_offset a)
         (a_phena a) (a_dpi a) n (a_v a).

Definition with_paper (paper : string) (a : Args) : Args :=
  mkArgs (a_video a) (a_out a) (a_height a) paper (a_offset a)
         (a_phena a) (a_dpi a) (a_fps a) (a_v a).

Definition with_height (h : Qc) (a : Args) : Args :=
  mkArgs (a_video a) (a_out a) h (a_paper a) (a_offset a)
         (a_phena a) (a_dpi a) (a_fps a) (a_v a).

(** The plan of the A4 scenario: frames 30 mm high, a strip of 15 mm. *)
Definition plan_a4_30 : Plan :=
  mkPlan (mkSize (qz 277) (qz 190)) (mkSize (Q2Qc (160 # 3)) (qz 30))
         (mkSize (Q2Qc (205 # 3)) (qz 30)) (mkSize (qz 419) (qz 236)) 4 6.

(** ** The layout in binary64

    Line 132 and lines 147 to 155 once more, on Python's own numbers: an
    [int] is an integer of any size, a [float] is an IEEE 754 binary64
    number, an [int] that meets a [float] is first converted to the nearest
    [float] (ties to even), and [float()], [/] and [int()] raise as they do
    in Python. *)
Module Binary64.

Inductive number :=
| Int (z : Z)
| Float (f : float).

(** [float(z)] and the conversion of an [int] operand: the nearest binary64
    number, [OverflowError] when that is out of range. *)
Definition of_int (z : Z) : M float :=
  match binary_normalize prec emax z 0 false with
  | S754_infinity _ => raise OverflowError
  | sf => ret (SF2Prim sf)
  end.

Definition to_float (x : number) : M float :=
  match x with
  | Int z => of_int z
  | Float f => ret f
  end.

(** [a - b]: exact on two [int]s, binary64 otherwise. *)
Definition sub (a b : number) : M number :=
  match a, b with
  | Int x, Int y => ret (Int (x - y))
  | _, _ => fa <~ to_float a ;; fb <~ to_float b ;; ret (Float (fa - fb))
  end.

(** [a / b] on floats. *)
Definition fdiv (a b : float) : M float :=
  if (b =? 0)%float then raise ZeroDivisionError else ret (a / b)%float.

(** [int(f)]: truncation toward zero; NaN and the infinities have no
    integer. *)
Definition int (f : float) : M Z :=
  match Prim2SF f with
  | S754_nan => raise ValueError
  | S754_infinity _ => raise OverflowError
  | S754_zero _ => ret 0
  | S754_finite s m e =>
      let v := if (0 <=? e) then Z.pos m * 2 ^ e else Z.pos m / 2 ^ (- e) in
      ret (if s then - v else v)
  end.

Record Margin := mkMargin {
  top : number;
  right : number;
  bottom : number;
  left : number
}.

Definition PAPER_SIZES : list (string * (number * number)) :=
  [ ("a5", (Int 210, Int 148));
    ("a4", (Int 297, Int 210));
    ("a3", (Int 420, Int 297));
    ("letter", (Float 279.4, Float 215.9));
    ("legal", (Float 355.6, Float 215.9)) ]%string.

Record Plan := mkPlan {
  printable_area : number * number;
  frame_mm : float * float;
  total : float * float;
  frame : Z * Z;
  nx : Z;
  ny : Z
}.

(** [frame_mm / 25.4 * dpi], one component of line 152 or 153 before
    [int]. *)
Definition pixels (mm : float) (dpi : number) : M float :=
  let inches := (mm / 25.4)%float in
  d <~ to_float dpi ;;
  ret (inches * d)%float.

Definition geometry (clip_size : Z * Z) (dpi offset height_mm : number)
    (margins : Margin) (paper_format : string) : M Plan :=
  height_mm <~ to_float height_mm ;;
  paper <~ of_option (dict_get PAPER_SIZES (lower paper_format))
                     (KeyError (lower paper_format)) ;;
  w <~ sub paper.1 (left margins) ;;
  w <~ sub w (right margins) ;;
  h <~ sub paper.2 (top margins) ;;
  h <~ sub h (bottom margins) ;;
  let printable_area := (w, h) in
  ch <~ of_int clip_size.2 ;;
  q <~ fdiv height_mm ch ;;
  cw <~ of_int clip_size.1 ;;
  let frame_mm := ((q * cw)%float, height_mm) in
  off <~ to_float offset ;;
  let total := ((off + frame_mm.1)%float, frame_mm.2) in
  pw <~ pixels frame_mm.1 dpi ;;
  fw <~ int pw ;;
  ph <~ pixels frame_mm.2 dpi ;;
  fh <~ int ph ;;
  let frame := (fw, fh) in
  w <~ to_float printable_area.1 ;;
  qx <~ fdiv w total.1 ;;
  nx <~ int qx ;;
  h <~ to_float printable_area.2 ;;
  qy <~ fdiv h total.2 ;;
  ny <~ int qy ;;
  ret (mkPlan printable_area frame_mm total frame nx ny).

(** The exact value of a finite binary64 number: the mantissa times a power
    of two. *)
Definition value (f : float) : option Qc :=
  match Prim2SF f with
  | S754_zero _ => Some 0%Qc
  | S754_finite s m e =>
      let a := if s then Z.neg m else Z.pos m in
      Some (if (0 <=? e) then qz (a * 2 ^ e)
            else Q2Qc (a # 2 ^ Z.to_pos (- e)))
  | _ => None
  end.

(** The margins [main] passes: [Margin(10, 10, 10, 10)]. *)
Definition default_margins : Margin := mkMargin (Int 10) (Int 10) (Int 10) (Int 10).

End Binary64.

(** ** Decidable equality *)

Global Instance Size_eq_dec : EqDecision Size.
Proof. solve_decision. Defined.
Global Instance Image_eq_dec : EqDecision Image.
Proof. solve_decision. Defined.
Global Instance Event_eq_dec : EqDecision Event.
Proof. solve_decision. Defined.
Global Instance Exn_eq_dec : EqDecision Exn.
Proof. solve_decision. Defined.
Global Instance Plan_eq_dec : EqDecision Plan.
Proof. solve_decision. Defined.
Global Instance World_eq_dec : EqDecision World.
Proof. solve_decision. Defined.
Global Instance Outcome_eq_dec {A} `{EqDecision A} : EqDecision (Outcome A).
Proof. solve_decision. Defined.

(** * Properties *)

Example int_pos : int (Q2Qc (7 # 2)) = 3.
Proof. reflexivity. Qed.
Example int_neg : int (Q2Qc (-7 # 2)) = -3.
Proof. reflexivity. Qed.
Example lower_A4 : lower "A4" = "a4"%string.
Proof. reflexivity. Qed.
Example upper_letter : upper "letter" = "LETTER"%string.
Proof. reflexivity. Qed.
Example round_half : spec_round (Q2Qc (5 # 2)) = 2.
Proof. vm_compute. reflexivity. Qed.
Example endswith_gif : endswith "c.gif" ".gif" = true ∧ endswith "a.mp4" ".gif" = false.
Proof. split; reflexivity. Qed.

(** ** Arithmetic *)

Lemma qz_add a b : qz (a + b) = (qz a + qz b)%Qc.
Proof. apply Z2Qc_inj_add. Qed.

Lemma qz_mul a b : qz (a * b) = (qz a * qz b)%Qc.
Proof. apply Z2Qc_inj_mul. Qed.

Lemma qz_inj a b : qz a = qz b → a = b.
Proof. apply Z2Qc_inj. Qed.

Lemma qz_lt a b : a < b ↔ (qz a < qz b)%Qc.
Proof. apply Z2Qc_inj_lt. Qed.

Lemma qz_le a b : a ≤ b ↔ (qz a ≤ qz b)%Qc.
Proof. apply Z2Qc_inj_le. Qed.

Lemma qz_eq_0 a : qz a = 0%Qc ↔ a = 0.
Proof. unfold qz. rewrite <- Z2Qc_inj_0. apply Z2Qc_inj_iff. Qed.

(** Closed goals over [Qc] are decided by evaluation. *)
Ltac qc_closed :=
  match goal with |- ?P => apply (bool_decide_unpack P); vm_compute; exact I end.

Lemma Qc_le_this (a b : Qc) : (a ≤ b)%Qc ↔ (this a <= this b)%Q.
Proof. reflexivity. Qed.

Lemma Qc_lt_this (a b : Qc) : (a < b)%Qc ↔ (this a < this b)%Q.
Proof. reflexivity. Qed.

Lemma int_truncation q : truncation q (int q).
Proof.
  unfold truncation, int. destruct q as [[a b] Hc]. simpl.
  assert (Hb : 0 < Z.pos b) by lia.
  pose proof (Z.quot_rem' a (Z.pos b)) as Hqr.
  split; intros H0; rewrite ?Qc_le_this, ?Qc_lt_this in *; simpl in *;
    rewrite ?Qred_correct; unfold Qle, Qlt, Qplus, Qminus, Qopp in *; simpl in *.
  - assert (Ha : 0 ≤ a) by lia.
    pose proof (Z.rem_bound_pos a (Z.pos b) Ha Hb).
    generalize dependent (a `quot` Z.pos b).
    generalize dependent (a `rem` Z.pos b).
    intros; change (Z.pos (1 * 1)) with 1; nia.
  - assert (Ha : a ≤ 0) by lia.
    pose proof (Z.rem_bound_pos_neg a (Z.pos b) Hb Ha).
    generalize dependent (a `quot` Z.pos b).
    generalize dependent (a `rem` Z.pos b).
    intros; change (Z.pos (1 * 1)) with 1 in *; nia.
Qed.

(** A 16:9 frame of height 30 is 160/3 wide. *)
Lemma aspect_16_9 w h :
  h ≠ 0 → 9 * w = 16 * h → (qz 30 / qz h * qz w)%Qc = Q2Qc (160 # 3).
Proof.
  intros Hh Heq.
  assert (Hh' : qz h ≠ 0%Qc) by (rewrite qz_eq_0; done).
  assert (Hw : qz w = (Q2Qc (16 # 9) * qz h)%Qc).
  { assert (H9 : (qz 9 * qz w = qz 16 * qz h)%Qc)
      by (rewrite <- !qz_mul; congruence).
    assert (E : Q2Qc (16 # 9) = (qz 16 / qz 9)%Qc)
      by (apply Qc_is_canon; reflexivity).
    rewrite E. field_simplify_eq.
    - rewrite (Qcmult_comm (qz w)). exact H9.
    - intros H; apply qz_eq_0 in H; lia. }
  rewrite Hw.
  transitivity (qz 30 * Q2Qc (16 # 9))%Qc; [field; done|].
  apply Qc_is_canon. reflexivity.
Qed.

(** ** The geometry block *)

Lemma fdiv_ok a b w : b ≠ 0%Qc → fdiv a b w = (Return (a / b)%Qc, w).
Proof.
  intros Hb. unfold fdiv. destruct (decide (b = 0%Qc)); [done|reflexivity].
Qed.

Lemma geometry_inv cs dpi off h m pf w p w' :
  geometry cs dpi off h m pf w = (Return p, w') →
  w' = w ∧ ∃ paper,
    dict_get PAPER_SIZES (lower pf) = Some paper ∧
    height cs ≠ 0%Qc ∧ width (total p) ≠ 0%Qc ∧ height (total p) ≠ 0%Qc ∧
    printable_area p = mkSize (width paper - left m - right m)%Qc
                              (height paper - top m - bottom m)%Qc ∧
    frame_mm p = mkSize (h / height cs * width cs)%Qc h ∧
    total p = mkSize (off + width (frame_mm p))%Qc (height (frame_mm p)) ∧
    frame p = mkSize (qz (int (width (frame_mm p) / mm_per_inch * qz dpi)%Qc))
                     (qz (int (height (frame_mm p) / mm_per_inch * qz dpi)%Qc)) ∧
    nx p = int (width (printable_area p) / width (total p))%Qc ∧
    ny p = int (height (printable_area p) / height (total p))%Qc.
Proof.
  unfold geometry, bind, of_option, fdiv, ret, raise.
  intros H.
  destruct (dict_get PAPER_SIZES (lower pf)) as [paper|]; [|done].
  repeat case_decide; simplify_eq/=.
  split; [done|]. exists paper. done.
Qed.

(** C6: on A4 with 10 mm margins, a 16:9 source, a frame height of 30 mm and
    an offset of 15 mm, the layout has a printable area of 277 by 190 mm,
    frames of 160/3 (53.33 up to 0.01) by 30 mm, cells of 205/3 (68.33 up to
    0.01) by 30 mm, 4 columns and 6 rows, hence 24 frames on a full page. *)
Theorem C6_a4_scenario (w h dpi : Z) (wd : World) :
  0 < h → 9 * w = 16 * h →
  ∃ p, geometry (from_tuple (w, h)) dpi (qz 15) (qz 30) default_margins "a4" wd
       = (Return p, wd)
    ∧ printable_area p = mkSize (qz 277) (qz 190)
    ∧ frame_mm p = mkSize (Q2Qc (160 # 3)) (qz 30)
    ∧ total p = mkSize (Q2Qc (205 # 3)) (qz 30)
    ∧ nx p = 4 ∧ ny p = 6 ∧ nx p * ny p = 24
    ∧ (Q2Qc (5333 # 100) - Q2Qc (1 # 100) < width (frame_mm p)
         < Q2Qc (5333 # 100) + Q2Qc (1 # 100))%Qc
    ∧ (Q2Qc (6833 # 100) - Q2Qc (1 # 100) < width (total p)
         < Q2Qc (6833 # 100) + Q2Qc (1 # 100))%Qc.
Proof.
  intros Hh Hr.
  assert (Hq : (qz 30 / qz h * qz w)%Qc = Q2Qc (160 # 3))
    by (apply aspect_16_9; [lia | done]).
  assert (Hh0 : qz h ≠ 0%Qc) by (rewrite qz_eq_0; lia).
  unfold geometry, bind, of_option, from_tuple. simpl.
  unfold ret at 1. rewrite (fdiv_ok _ _ _ Hh0). rewrite Hq.
  rewrite fdiv_ok by qc_closed.
  eexists. split; [reflexivity|]. simpl.
  repeat split; try qc_closed; try reflexivity.
Qed.

Lemma C6_a4_scenario_witness :
  0 < 1080 ∧ 9 * 1920 = 16 * 1080 ∧
  ∃ p, geometry (from_tuple (1920, 1080)) 200 (qz 15) (qz 30) default_margins
         "a4" empty_world = (Return p, empty_world)
    ∧ printable_area p = mkSize (qz 277) (qz 190)
    ∧ frame_mm p = mkSize (Q2Qc (160 # 3)) (qz 30)
    ∧ total p = mkSize (Q2Qc (205 # 3)) (qz 30)
    ∧ nx p = 4 ∧ ny p = 6 ∧ nx p * ny p = 24
    ∧ (Q2Qc (5333 # 100) - Q2Qc (1 # 100) < width (frame_mm p)
         < Q2Qc (5333 # 100) + Q2Qc (1 # 100))%Qc
    ∧ (Q2Qc (6833 # 100) - Q2Qc (1 # 100) < width (total p)
         < Q2Qc (6833 # 100) + Q2Qc (1 # 100))%Qc.
Proof.
  split; [lia|]. split; [lia|].
  apply (C6_a4_scenario 1920 1080 200 empty_world); lia.
Defined.

(** ** The pixel size in binary64 *)

Lemma truncation_qz n : truncation (qz n) n.
Proof.
  unfold truncation. split; intros _; split.
  - apply Qcle_refl.
  - rewrite <- (Qcplus_0_r (qz n)) at 1. apply Qcplus_lt_mono_l. qc_closed.
  - apply Qclt_minus_iff.
    replace (qz n + - (qz n - 1))%Qc with 1%Qc by ring. qc_closed.
  - apply Qcle_refl.
Qed.

(** A fraction lies between the integers its numerator lies between. *)
Lemma truncation_frac (a : Z) (b : positive) (n : Z) :
  (0 ≤ a → n * Z.pos b ≤ a < (n + 1) * Z.pos b) →
  (a ≤ 0 → (n - 1) * Z.pos b < a ≤ n * Z.pos b) →
  truncation (Q2Qc (a # b)) n.
Proof.
  intros Hpos Hneg. unfold truncation.
  split; intros H0; rewrite ?Qc_le_this, ?Qc_lt_this in *; simpl in *;
    rewrite ?Qred_correct in *; unfold Qle, Qlt, Qplus, Qminus, Qopp in *;
    simpl in *.
  - assert (Ha : 0 ≤ a) by lia. specialize (Hpos Ha).
    change (Z.pos (1 * 1)) with 1. nia.
  - assert (Ha : a ≤ 0) by lia. specialize (Hneg Ha).
    change (Z.pos (1 * 1)) with 1 in *. nia.
Qed.

(** [int] cuts the exact value of a finite binary64 number off toward
    zero. *)
Lemma int_value f n w w' :
  Binary64.int f w = (Return n, w') →
  w' = w ∧ ∃ q, Binary64.value f = Some q ∧ truncation q n.
Proof.
  unfold Binary64.int, Binary64.value.
  destruct (Prim2SF f) as [sz|si| |s m e]; try done.
  { intros [= <- <-]. split; [done|]. exists 0%Qc. split; [done|].
    rewrite <- Z2Qc_inj_0. apply (truncation_qz 0). }
  intros [= <- <-]. split; [done|]. eexists. split; [reflexivity|].
  cbv zeta. destruct (0 <=? e) eqn:He.
  - replace ((if s then Z.neg m else Z.pos m) * 2 ^ e)
      with (if s then - (Z.pos m * 2 ^ e) else Z.pos m * 2 ^ e)
      by (destruct s; lia).
    apply truncation_qz.
  - apply Z.leb_gt in He.
    assert (Hk : Z.pos (2 ^ Z.to_pos (- e)) = 2 ^ (- e)).
    { rewrite Pos2Z.inj_pow, Z2Pos.id by lia. done. }
    assert (Hk0 : 0 < 2 ^ (- e)) by (apply Z.pow_pos_nonneg; lia).
    pose proof (Z.mul_div_le (Z.pos m) (2 ^ (- e)) Hk0) as Hlo.
    pose proof (Z.mul_succ_div_gt (Z.pos m) (2 ^ (- e)) Hk0) as Hhi.
    apply truncation_frac; rewrite Hk; destruct s; lia.
Qed.

Lemma of_option_pure {A} (o : option A) e w r w' :
  of_option o e w = (r, w') → w' = w.
Proof. destruct o; by intros [= <- <-]. Qed.

Lemma of_int_pure z w r w' : Binary64.of_int z w = (r, w') → w' = w.
Proof.
  unfold Binary64.of_int.
  destruct (binary_normalize prec emax z 0 false); by intros [= <- <-].
Qed.

Lemma to_float_pure x w r w' : Binary64.to_float x w = (r, w') → w' = w.
Proof. destruct x; [apply of_int_pure|by intros [= <- <-]]. Qed.

Lemma fdiv64_pure a b w r w' : Binary64.fdiv a b w = (r, w') → w' = w.
Proof. unfold Binary64.fdiv. case_match; by intros [= <- <-]. Qed.

Lemma int64_pure f w r w' : Binary64.int f w = (r, w') → w' = w.
Proof.
  unfold Binary64.int. destruct (Prim2SF f); by intros [= <- <-].
Qed.

Lemma bind_pure {A B} (c : M A) (k : A → M B) :
  (∀ w r w', c w = (r, w') → w' = w) →
  (∀ a w r w', k a w = (r, w') → w' = w) →
  ∀ w r w', bind c k w = (r, w') → w' = w.
Proof.
  intros Hc Hk w r w'. unfold bind.
  destruct (c w) as [[a|e] w1] eqn:E; apply Hc in E as ->.
  - apply Hk.
  - by intros [= <- <-].
Qed.

Lemma sub_pure a b w r w' : Binary64.sub a b w = (r, w') → w' = w.
Proof.
  destruct a as [x|fa], b as [y|fb]; simpl;
    try (by intros [= <- <-]);
    unfold bind, ret; simpl;
    repeat match goal with
           | |- context [Binary64.of_int ?z ?w] =>
               let E := fresh in
               destruct (Binary64.of_int z w) as [[?|?] ?] eqn:E;
               apply of_int_pure in E as ->
           end; by intros [= <- <-].
Qed.

Lemma pixels_pure mm dpi w r w' : Binary64.pixels mm dpi w = (r, w') → w' = w.
Proof.
  unfold Binary64.pixels. apply bind_pure; [apply to_float_pure|].
  by intros ???? [= <- <-].
Qed.

Ltac pure_step :=
  match goal with
  | |- bind ?c ?k ?w = _ → _ =>
      let E := fresh "E" in
      let w1 := fresh "w" in
      change (bind c k w)
        with (match c w with
              | (Return a, w') => k a w'
              | (Raise e, w') => (Raise e, w')
              end);
      destruct (c w) as [[?|?] w1] eqn:E; [|intros [=]];
      first [ pose proof (to_float_pure _ _ _ _ E)
            | pose proof (of_int_pure _ _ _ _ E)
            | pose proof (of_option_pure _ _ _ _ _ E)
            | pose proof (sub_pure _ _ _ _ _ E)
            | pose proof (fdiv64_pure _ _ _ _ _ E)
            | pose proof (pixels_pure _ _ _ _ _ E)
            | pose proof (int64_pure _ _ _ _ E) ];
      subst w1; cbv beta zeta
  end.

(** The pixel size of a plan is [int] of the two pixel products. *)
Lemma geometry64_frame cs dpi off h m pf w p w' :
  Binary64.geometry cs dpi off h m pf w = (Return p, w') →
  w' = w ∧
  ∃ pw ph,
    Binary64.pixels (Binary64.frame_mm p).1 dpi w = (Return pw, w) ∧
    Binary64.int pw w = (Return (Binary64.frame p).1, w) ∧
    Binary64.pixels (Binary64.frame_mm p).2 dpi w = (Return ph, w) ∧
    Binary64.int ph w = (Return (Binary64.frame p).2, w).
Proof.
  unfold Binary64.geometry. repeat pure_step.
  intros [= <- <-]. split; [done|]. cbn [Binary64.frame_mm Binary64.frame fst snd].
  eauto 10.
Qed.

(** C8, as the program has it: each component of the pixel size is the
    binary64 number [frame_mm / 25.4 * dpi] cut off toward zero by [int];
    it is not rounded to the nearest integer.  [frame_mm], the quotient and
    the product are binary64 numbers, rounded as Python rounds them, and the
    pixel size is the truncation of the exact value of the product. *)
Theorem C8_frame_px_truncates cs dpi off h m pf w p w' :
  Binary64.geometry cs dpi off h m pf w = (Return p, w') →
  ∃ pw ph : float,
    Binary64.pixels (Binary64.frame_mm p).1 dpi w = (Return pw, w) ∧
    Binary64.pixels (Binary64.frame_mm p).2 dpi w = (Return ph, w) ∧
    ∃ qw qh : Qc,
      Binary64.value pw = Some qw ∧ Binary64.value ph = Some qh ∧
      truncation qw (Binary64.frame p).1 ∧
      truncation qh (Binary64.frame p).2.
Proof.
  intros H.
  apply geometry64_frame in H as (_ & pw & ph & Hpw & Hfw & Hph & Hfh).
  apply int_value in Hfw as (_ & qw & Hqw & Htw).
  apply int_value in Hfh as (_ & qh & Hqh & Hth).
  exists pw, ph. split; [done|]. split; [done|]. by exists qw, qh.
Qed.

Lemma C8_frame_px_truncates_witness :
  ∃ p, Binary64.geometry (1920, 1080) (Binary64.Int 72) (Binary64.Float 15)
         (Binary64.Float 158.75) Binary64.default_margins "a4" empty_world
       = (Return p, empty_world)
     ∧ Binary64.frame p = (799, 450)
     ∧ ∃ pw ph : float,
         Binary64.pixels (Binary64.frame_mm p).1 (Binary64.Int 72) empty_world
         = (Return pw, empty_world) ∧
         Binary64.pixels (Binary64.frame_mm p).2 (Binary64.Int 72) empty_world
         = (Return ph, empty_world) ∧
         ∃ qw qh : Qc,
           Binary64.value pw = Some qw ∧ Binary64.value ph = Some qh ∧
           truncation qw (Binary64.frame p).1 ∧
           truncation qh (Binary64.frame p).2.
Proof.
  eexists. split; [vm_compute; reflexivity|]. split; [reflexivity|].
  apply (C8_frame_px_truncates (1920, 1080) (Binary64.Int 72) (Binary64.Float 15)
           (Binary64.Float 158.75) Binary64.default_margins "a4" empty_world _
           empty_world).
  vm_compute. reflexivity.
Defined.

(** C8 as stated fails: for a 1920x1080 source at 30 mm and 200 dpi the
    binary64 pixel width is 419.94..., the program plans 419 and the nearest
    integer is 420. *)
Lemma C8_counterexample :
  ∃ p pw qw,
    Binary64.geometry (1920, 1080) (Binary64.Int 200) (Binary64.Float 15)
      (Binary64.Int 30) Binary64.default_margins "a4" empty_world
    = (Return p, empty_world)
    ∧ Binary64.pixels (Binary64.frame_mm p).1 (Binary64.Int 200) empty_world
      = (Return pw, empty_world)
    ∧ Binary64.value pw = Some qw
    ∧ (Binary64.frame p).1 = 419
    ∧ spec_round qw = 420
    ∧ (Binary64.frame p).1 ≠ spec_round qw.
Proof.
  eexists _, _, _. split; [vm_compute; reflexivity|].
  split; [vm_compute; reflexivity|]. split; [vm_compute; reflexivity|].
  split; [reflexivity|]. split; [vm_compute; reflexivity|].
  vm_compute. discriminate.
Qed.

(** ** The command line *)

(** The value given to [--fps] never reaches [process]. *)
Lemma main_fps_irrelevant env argv n w :
  main env (with_fps n argv) w = main env argv w.
Proof.
  destruct argv. unfold main, parse_args, bind, with_fps. simpl.
  destruct (decide (a_paper0 ∈ PAPER_CHOICES)); reflexivity.
Qed.

(** C1 fails on the program: [main] calls [process] without [fps], so the
    target rate is always the default 10.  With [--fps 25], a 10 fps source
    is not re-encoded although 25 differs from its rate, and a 25 fps source
    is re-encoded to 10 fps although 25 is its rate. *)
Theorem C1_fps_option_dropped :
  let slow := main (demo_env true) (with_fps 25 (demo_args "a.mp4")) empty_world in
  let fast := main (demo_env true) (with_fps 25 (demo_args "b.mp4")) empty_world in
  transcodes (trace slow.2) = []
  ∧ length (placements (-1) (trace slow.2)) = 3%nat
  ∧ transcodes (trace fast.2) = [("tmp.mp4"%string, 10)].
Proof. vm_compute. done. Qed.

(** C9: a [--paper] value outside the catalog ends the run with exit status
    2 before the source is opened: nothing is decoded, nothing is written. *)
Theorem C9_unknown_paper_rejected env argv w :
  a_paper argv ∉ PAPER_CHOICES →
  main env argv w = (Raise (SystemExit 2), w).
Proof.
  intros H. unfold main, parse_args, bind.
  destruct (decide (a_paper argv ∈ PAPER_CHOICES)); done.
Qed.

Lemma C9_unknown_paper_rejected_witness :
  (("bogus" : string) ∉ PAPER_CHOICES) ∧
  main (demo_env true) (with_paper "bogus" (demo_args "b.mp4")) empty_world
  = (Raise (SystemExit 2), empty_world).
Proof.
  assert (H : ("bogus" : string) ∉ PAPER_CHOICES)
    by (apply (bool_decide_unpack _); exact I).
  split; [exact H|].
  apply (C9_unknown_paper_rejected (demo_env true)
           (with_paper "bogus" (demo_args "b.mp4")) empty_world H).
Defined.

(** [process] itself looks the paper up only after the source has been
    re-encoded: called with an unknown key on a source that needs
    re-encoding, it raises [KeyError] and leaves [tmp.mp4] behind. *)
Example process_unknown_paper_after_transcode :
  let r := (flippy <~ init (demo_env true) (Some 0) "b.mp4" ;;
            process (demo_env true) flippy "out.pdf" 200 (qz 15) 10 (qz 30)
                    default_margins "bogus") empty_world in
  r.1 = Raise (KeyError "bogus")
  ∧ transcodes (trace r.2) = [("tmp.mp4"%string, 10)]
  ∧ elements (files r.2) = ["tmp.mp4"%string].
Proof. vm_compute. done. Qed.

(** ** Running the blocks of [process] *)

Lemma bind_run {A B} (c : M A) (k : A → M B) w a w' :
  c w = (Return a, w') → bind c k w = k a w'.
Proof. intros H. unfold bind. rewrite H. reflexivity. Qed.

Lemma bind_raise {A B} (c : M A) (k : A → M B) w e w' :
  c w = (Raise e, w') → bind c k w = (Raise e, w').
Proof. intros H. unfold bind. rewrite H. reflexivity. Qed.

Lemma for_each_emit {A} (g : A → list Event) (body : A → M ()) l w :
  (∀ a w, body a w = (Return (), mkWorld (files w) (trace w ++ g a))) →
  for_each l body w = (Return (), mkWorld (files w) (trace w ++ (l ≫= g))).
Proof.
  intros Hbody. revert w. induction l as [|a l IH]; intros w; simpl.
  - unfold ret. rewrite app_nil_r. by destruct w.
  - erewrite bind_run by apply Hbody. rewrite IH. simpl.
    by rewrite <- app_assoc.
Qed.

Lemma bind_singleton {A B} (g : A → B) (l : list A) :
  l ≫= (λ a, [g a]) = g <$> l.
Proof. induction l; simpl; [done|]. by f_equal. Qed.

Lemma draw_raster_run nx ny x0 y0 x1 y1 offset total w :
  draw_raster nx ny x0 y0 x1 y1 offset total w
  = (Return (), mkWorld (files w)
       (trace w ++ raster_lines nx ny x0 y0 x1 y1 offset total)).
Proof.
  unfold draw_raster, raster_lines.
  erewrite bind_run.
  2:{ apply (for_each_emit (λ ix,
        let xx := (x0 + qz ix * width total)%Qc in
        ev_line xx y0 xx y1 ::
        if decide ((0 < offset)%Qc ∧ ix ≠ nx)
        then [ev_line (xx + offset)%Qc y0 (xx + offset)%Qc y1] else [])).
      intros ix w0. unfold bind, emit, ret. simpl.
      case_decide; simpl; by rewrite <- ?app_assoc. }
  erewrite (for_each_emit (λ iy, [ev_line x0 (y0 + qz iy * height total)%Qc x1
                                    (y0 + qz iy * height total)%Qc])).
  2:{ intros iy w0. reflexivity. }
  simpl. rewrite <- app_assoc, bind_singleton. reflexivity.
Qed.

Lemma loop_body_run self p offset x0 y0 x1 y1 st f w im last' :
  frame_count self ≠ 0 →
  develop self (to_tuple (frame p)) (l_last_im st) f = Some (im, last') →
  let s := (l_page st, l_tx st, l_ty st) in
  let s' := advance (nx p) (ny p) s in
  loop_body self p offset x0 y0 x1 y1 st f w
  = (Return (mkLocals (l_i st + 1) s'.1.1 s'.1.2 s'.2
               (Some (cell_x p x0 s')) (Some (cell_y p y0 s'))
               (l_tmp_files st ++ [cell_name s']) last'),
     mkWorld ({[cell_name s']} ∪ files w)
             (trace w ++ step_events p offset x0 y0 x1 y1 (l_i st) s im)).
Proof.
  intros Hfc Hdev s s'. unfold loop_body.
  destruct (decide (frame_count self = 0)) as [|_]; [done|].
  rewrite (bind_run _ _ w _ w) by reflexivity.
  erewrite (bind_run _ _ w (im, last') w).
  2:{ unfold develop in Hdev. destruct f as [pos|a].
      - destruct (source self) as [g pal l0|c], (l_last_im st) as [l|];
          simplify_eq/=; reflexivity.
      - simplify_eq/=. reflexivity. }
  cbv beta iota.
  unfold s', s, step_events, tile_events, advance, breaks, cell_x, cell_y, cell_name.
  simpl.
  destruct (decide (l_tx st + 1 = nx p)) as [Hx|Hx];
    [destruct (decide (l_ty st + 1 = ny p)) as [Hy|Hy]|].
  - rewrite decide_True by done.
    erewrite bind_run.
    2:{ erewrite bind_run by apply draw_raster_run.
        erewrite bind_run by reflexivity. reflexivity. }
    cbv beta iota. unfold save, bind, emit, create_file, ret; simpl.
    case_decide; simpl; rewrite <- ?app_assoc; simpl; reflexivity.
  - rewrite decide_False by tauto.
    unfold save, bind, emit, create_file, ret; simpl.
    case_decide; simpl; rewrite <- ?app_assoc; simpl; reflexivity.
  - rewrite decide_False by tauto.
    unfold save, bind, emit, create_file, ret; simpl.
    case_decide; simpl; rewrite <- ?app_assoc; simpl; reflexivity.
Qed.

Lemma locals_after_cons p x0 y0 st s1 rest last1 last' :
  (rest = [] → last' = last1) →
  locals_after p x0 y0
    (mkLocals (l_i st + 1) s1.1.1 s1.1.2 s1.2 (Some (cell_x p x0 s1))
       (Some (cell_y p y0 s1)) (l_tmp_files st ++ [cell_name s1]) last1)
    rest last'
  = locals_after p x0 y0 st (s1 :: rest) last'.
Proof.
  intros Hl. unfold locals_after.
  destruct rest as [|s2 rest]; simpl.
  - rewrite Hl by done. reflexivity.
  - destruct (last (s2 :: rest)) as [s|] eqn:E.
    + f_equal; [lia|]. by rewrite <- app_assoc.
    + by apply last_None in E.
Qed.

Lemma triple_eta (s : Z * Z * Z) : (s.1.1, s.1.2, s.2) = s.
Proof. by destruct s as [[? ?] ?]. Qed.

Lemma frame_loop_run self p offset x0 y0 x1 y1 frames st w ims last' :
  frame_count self ≠ 0 →
  develop_all self (to_tuple (frame p)) (l_last_im st) frames = Some (ims, last') →
  let s := (l_page st, l_tx st, l_ty st) in
  let cells := walk (nx p) (ny p) s (length frames) in
  frame_loop self p offset x0 y0 x1 y1 frames st w
  = (Return (locals_after p x0 y0 st cells last'),
     mkWorld (list_to_set (cell_name <$> cells) ∪ files w)
             (trace w ++ loop_events p offset x0 y0 x1 y1 (l_i st) s ims)).
Proof.
  intros Hfc. revert st w ims last'.
  induction frames as [|f rest IH]; intros st w ims last' Hdev;
    cbn [develop_all] in Hdev; cbn zeta.
  - simplify_eq. simpl. unfold ret. rewrite app_nil_r, (left_id_L ∅ (∪)).
    by destruct w.
  - destruct (develop self (to_tuple (frame p)) (l_last_im st) f)
      as [[im last1]|] eqn:Hf; [|done].
    destruct (develop_all self (to_tuple (frame p)) last1 rest)
      as [[ims' last'']|] eqn:Hrest; [|done].
    simplify_eq.
    cbn [frame_loop length walk loop_events fmap list_fmap list_to_set foldr].
    set (s1 := advance (nx p) (ny p) (l_page st, l_tx st, l_ty st)).
    erewrite bind_run by (by apply loop_body_run).
    erewrite IH by (cbn [l_last_im]; exact Hrest).
    cbn [l_page l_tx l_ty l_i files trace]. fold s1. rewrite triple_eta.
    f_equal.
    + f_equal. apply locals_after_cons.
      intros Hw. destruct rest; [|done]. simpl in Hrest. by simplify_eq.
    + f_equal.
      * rewrite (assoc_L (∪)). f_equal. apply (comm_L (∪)).
      * by rewrite <- app_assoc.
Qed.
(** ** Temporary file names *)

Lemma pretty_N_char_digit x : is_digit (pretty_N_char x) = true.
Proof. unfold pretty_N_char. by repeat case_match. Qed.

Lemma pretty_N_go_digits x s : digits s = true → digits (pretty_N_go x s) = true.
Proof.
  revert s. induction (N.lt_wf_0 x) as [x _ IH]; intros s Hs.
  assert (x = 0 ∨ 0 < x)%N as [->|?] by lia.
  - by rewrite pretty_N_go_0.
  - rewrite pretty_N_go_step by done. apply IH.
    { by apply N.div_lt. }
    simpl. by rewrite pretty_N_char_digit.
Qed.

Lemma pretty_Z_digits (z : Z) : 0 ≤ z → digits (pretty z) = true.
Proof.
  intros Hz. destruct z as [|q|q]; [done| |lia].
  unfold pretty, pretty_Z, pretty, pretty_positive, pretty, pretty_N.
  case_decide; [done|]. by apply pretty_N_go_digits.
Qed.

Lemma digits_split a b c r1 r2 :
  digits a = true → digits b = true → is_digit c = false →
  a +:+ String c r1 = b +:+ String c r2 → a = b ∧ r1 = r2.
Proof.
  revert b. induction a as [|x a IH]; intros [|y b] Ha Hb Hc Heq;
    simpl in *; simplify_eq.
  - done.
  - apply andb_prop in Hb as [Hy _]. congruence.
  - apply andb_prop in Ha as [Hx _]. congruence.
  - apply andb_prop in Ha as [_ Ha]. apply andb_prop in Hb as [_ Hb].
    destruct (IH b Ha Hb Hc) as [-> ->]; done.
Qed.

Lemma temp_name_inj page tx ty page' tx' ty' :
  0 ≤ page → 0 ≤ tx → 0 ≤ ty → 0 ≤ page' → 0 ≤ tx' → 0 ≤ ty' →
  temp_name page tx ty = temp_name page' tx' ty' →
  page = page' ∧ tx = tx' ∧ ty = ty'.
Proof.
  intros ?????? Heq. unfold temp_name in Heq. simpl in Heq.
  simplify_eq.
  apply digits_split in Heq as [Hp Heq]; [|by apply pretty_Z_digits..|done].
  apply digits_split in Heq as [Hx Heq]; [|by apply pretty_Z_digits..|done].
  change ".png"%string with (String "." "png") in Heq.
  apply digits_split in Heq as [Hy _]; [|by apply pretty_Z_digits..|done].
  split_and!; by apply (inj pretty).
Qed.

Lemma temp_name_not_mp4 page tx ty : temp_name page tx ty ≠ "tmp.mp4"%string.
Proof. unfold temp_name. simpl. intros H. simplify_eq. Qed.

(** ** The tile counters *)

Lemma advance_lt nx ny s : cell_lt s (advance nx ny s).
Proof.
  destruct s as [[page tx] ty]. unfold advance, cell_lt.
  repeat case_decide; simpl; lia.
Qed.

Lemma advance_ok nx ny s :
  cell_ok s → cell_ok (advance nx ny s) ∧ 0 ≤ (advance nx ny s).1.2.
Proof.
  destruct s as [[page tx] ty]. unfold advance, cell_ok.
  repeat case_decide; simpl; lia.
Qed.

Lemma cell_lt_trans s1 s2 s3 : cell_lt s1 s2 → cell_lt s2 s3 → cell_lt s1 s3.
Proof. unfold cell_lt. lia. Qed.

Lemma walk_gt nx ny s n s' : s' ∈ walk nx ny s n → cell_lt s s'.
Proof.
  revert s. induction n as [|n IH]; intros s; simpl.
  - by intros ?%elem_of_nil.
  - intros [->|Hin]%elem_of_cons; [apply advance_lt|].
    eapply cell_lt_trans; [apply advance_lt|by apply IH].
Qed.

Lemma walk_nonneg nx ny s n s' :
  cell_ok s → s' ∈ walk nx ny s n → 0 ≤ s'.1.1 ∧ 0 ≤ s'.1.2 ∧ 0 ≤ s'.2.
Proof.
  revert s. induction n as [|n IH]; intros s Hok; simpl.
  - by intros ?%elem_of_nil.
  - destruct (advance_ok nx ny s Hok) as [Hok' Htx].
    intros [->|Hin]%elem_of_cons; [unfold cell_ok in Hok'; lia|].
    by eapply IH.
Qed.

Lemma cell_name_inj s s' :
  (0 ≤ s.1.1 ∧ 0 ≤ s.1.2 ∧ 0 ≤ s.2) → (0 ≤ s'.1.1 ∧ 0 ≤ s'.1.2 ∧ 0 ≤ s'.2) →
  cell_name s = cell_name s' → s = s'.
Proof.
  destruct s as [[page tx] ty], s' as [[page' tx'] ty']. simpl.
  intros (?&?&?) (?&?&?) Heq. apply temp_name_inj in Heq; [|done..].
  simpl in Heq. destruct Heq as (-> & -> & ->). done.
Qed.

Lemma walk_names_NoDup nx ny s n :
  cell_ok s → NoDup (cell_name <$> walk nx ny s n).
Proof.
  revert s. induction n as [|n IH]; intros s Hok; simpl.
  - constructor.
  - destruct (advance_ok nx ny s Hok) as [Hok' Htx].
    constructor; [|by apply IH].
    intros (s' & Heq & Hin)%list_elem_of_fmap.
    pose proof (walk_gt _ _ _ _ _ Hin) as Hlt.
    apply cell_name_inj in Heq.
    + subst s'. unfold cell_lt in Hlt. lia.
    + unfold cell_ok in Hok'. lia.
    + by eapply walk_nonneg.
Qed.

Lemma walk_length nx ny s n : length (walk nx ny s n) = n.
Proof. revert s. induction n; intros s; simpl; [done|]. by f_equal. Qed.

(** ** Cleaning up *)

(** Removing files that exist, each once, succeeds. *)
Lemma remove_all_run (l : list string) w :
  NoDup l → (∀ name, name ∈ l → name ∈ files w) →
  for_each l os_remove w
  = (Return (), mkWorld (files w ∖ list_to_set l) (trace w ++ (ev_remove <$> l))).
Proof.
  revert w. induction l as [|a l IH]; intros w Hnd Hin; simpl.
  - unfold ret. rewrite app_nil_r, difference_empty_L. by destruct w.
  - apply NoDup_cons in Hnd as [Ha Hnd].
    erewrite bind_run.
    2:{ unfold os_remove. rewrite decide_True by (apply Hin; left). reflexivity. }
    rewrite IH; [|done|].
    + simpl. f_equal. f_equal; [set_solver|by rewrite <- app_assoc].
    + intros name Hname. simpl. apply elem_of_difference. split.
      * apply Hin. by right.
      * intros ->%elem_of_singleton. done.
Qed.

(** Whatever [os.remove] manages to remove before failing, a normal return
    means every listed file is gone. *)
Lemma remove_all_inv (l : list string) w w' :
  for_each l os_remove w = (Return (), w') →
  files w' = files w ∖ list_to_set l ∧ trace w' = trace w ++ (ev_remove <$> l).
Proof.
  revert w. induction l as [|a l IH]; intros w; simpl.
  - unfold ret. intros [= <-]. rewrite app_nil_r. set_solver.
  - unfold bind, os_remove.
    destruct (decide (a ∈ files w)) as [Ha|Ha]; [|done].
    intros Hrest%IH. simpl in Hrest. destruct Hrest as [-> ->].
    split; [set_solver|by rewrite <- app_assoc].
Qed.

(** ** The remaining blocks *)

Lemma new_document_run pf w :
  new_document pf w
  = (Return (), mkWorld (files w) (trace w ++ document_events pf)).
Proof.
  unfold new_document, document_events, bind, emit. simpl.
  by rewrite <- !app_assoc.
Qed.

Lemma final_raster_run p offset x0 y0 x1 y1 st w s :
  l_x st = Some (cell_x p x0 s) → l_y st = Some (cell_y p y0 s) →
  final_raster p offset x0 y0 x1 y1 st w
  = (Return (), mkWorld (files w)
       (trace w ++ final_raster_events p offset x0 y0 x1 y1 s)).
Proof.
  intros Hx Hy. unfold final_raster, final_raster_events, read_local.
  rewrite Hx, Hy. unfold bind, of_option, ret. simpl.
  destruct (decide (cell_y p y0 s ≠ 0%Qc)) as [Hy0|Hy0];
    [destruct (decide (cell_x p x0 s ≠ 0%Qc)) as [Hx0|Hx0]|].
  - rewrite decide_True by done. apply draw_raster_run.
  - rewrite decide_False by tauto. rewrite app_nil_r. by destruct w.
  - rewrite decide_False by tauto. rewrite app_nil_r. by destruct w.
Qed.

Lemma final_raster_unbound p offset x0 y0 x1 y1 st w :
  l_y st = None →
  final_raster p offset x0 y0 x1 y1 st w = (Raise (UnboundLocalError "y"), w).
Proof. intros Hy. unfold final_raster, read_local. by rewrite Hy. Qed.

Lemma finish_run env out tmp w :
  sink_ok env = true → NoDup tmp →
  (∀ name, name ∈ tmp → name ∈ files w) →
  finish env out tmp w
  = (Return (), mkWorld (({[out]} ∪ files w) ∖ list_to_set tmp)
       (trace w ++ ev_output out :: (ev_remove <$> tmp))).
Proof.
  intros Hsink Hnd Hin. unfold finish. rewrite Hsink.
  erewrite bind_run by reflexivity.
  rewrite remove_all_run; [|done|].
  - simpl. by rewrite <- app_assoc.
  - intros name Hname. simpl. apply elem_of_union_r. by apply Hin.
Qed.

Lemma finish_sink_fails env out tmp w :
  sink_ok env = false →
  finish env out tmp w = (Raise (OSError out), w).
Proof. intros Hsink. unfold finish. by rewrite Hsink. Qed.

Lemma open_source_inv env self fps w self1 tmp cs w1 :
  open_source env self fps w = (Return (self1, tmp, cs), w1) →
  (tmp = [] ∧ w1 = w ∧ self1 = self) ∨
  (tmp = ["tmp.mp4"%string] ∧
   w1 = mkWorld ({["tmp.mp4"%string]} ∪ files w)
                (trace w ++ [ev_write_videofile "tmp.mp4" fps]) ∧
   ∃ clip clip', source self = clip_source clip ∧ qz fps ≠ clip_fps clip ∧
     write_videofile env clip fps = reencoded clip' ∧
     source self1 = clip_source clip').
Proof.
  unfold open_source. destruct (source self) as [im pal last|clip] eqn:Hs.
  - unfold ret. intros [= <- <- <- <-]. by left.
  - destruct (decide (qz fps ≠ clip_fps clip)) as [Hne|He].
    + destruct (write_videofile env clip fps) as [clip'|partial] eqn:Hw.
      * unfold bind, emit, create_file, ret. simpl.
        intros [= <- <- <- <-]. right. split_and!; [done..|].
        by exists clip, clip'.
      * unfold bind, emit, create_file, ret, raise. simpl.
        by destruct partial.
    + unfold ret. intros [= <- <- <- <-]. by left.
Qed.

Lemma develop_all_gif self size g pal l0 positions last :
  source self = gif_source g pal l0 →
  ∃ ims last', develop_all self size (Some last) (GifImageFile <$> positions)
               = Some (ims, last') ∧ length ims = length positions.
Proof.
  intros Hs. revert last.
  induction positions as [|pos l IH]; intros last; simpl.
  - by eexists _, _.
  - rewrite Hs.
    destruct (IH (paste last (putpalette pal (gif_frame pos))))
      as (ims & last' & Hd & Hlen).
    unfold fmap in Hd. rewrite Hd.
    eexists _, _. split; [done|]. simpl. by rewrite Hlen.
Qed.

Lemma develop_all_clip self size last_im (l : list Pixels) :
  develop_all self size last_im (ndarray <$> l)
  = Some ((λ a, thumbnail size (fromarray a)) <$> l, last_im).
Proof.
  induction l as [|a l IH]; simpl; [done|].
  unfold fmap in IH. by rewrite IH.
Qed.

Lemma all_frames_develop self size frames self2 last_im :
  all_frames self = (frames, self2, last_im) →
  ∃ ims last', develop_all self2 size last_im frames = Some (ims, last') ∧
               length ims = length frames ∧
               frame_count self2 = frame_count self.
Proof.
  unfold all_frames. destruct (source self) as [im pal last|clip] eqn:Hs.
  - destruct (AnimatedGif im) as [positions im'] eqn:Hg.
    intros [= <- <- <-].
    destruct (develop_all_gif
                (mkCreator (verbosity self) (input_file_name self)
                   (gif_source im' pal last) (self_fps self) (frame_count self))
                size im' pal last positions last eq_refl)
      as (ims & last' & Hd & Hlen).
    eexists _, _. split; [exact Hd|]. by rewrite length_fmap.
  - intros [= <- <- <-]. rewrite develop_all_clip.
    eexists _, _. split; [done|]. by rewrite !length_fmap.
Qed.

Lemma open_source_tmp env self fps w self1 tmp cs w1 :
  open_source env self fps w = (Return (self1, tmp, cs), w1) →
  NoDup tmp ∧ ∀ name, name ∈ tmp → name = "tmp.mp4"%string ∧ name ∈ files w1.
Proof.
  intros [(-> & _)|(-> & -> & _)]%open_source_inv.
  - split; [constructor|]. by intros name ?%elem_of_nil.
  - split; [apply NoDup_singleton|].
    intros name ->%list_elem_of_singleton. simpl. set_solver.
Qed.

Lemma last_walk nx ny s n : n ≠ 0%nat → is_Some (last (walk nx ny s n)).
Proof.
  intros Hn. destruct n as [|n]; [done|]. simpl.
  destruct (last (advance nx ny s :: walk nx ny (advance nx ny s) n)) eqn:E;
    [done|]. by apply last_None in E.
Qed.

Lemma process_run env self out dpi offset fps h margins pf w
    self1 tmp cs w1 p frames self2 last_im ims last' :
  open_source env self fps w = (Return (self1, tmp, cs), w1) →
  geometry cs dpi offset h margins pf w1 = (Return p, w1) →
  all_frames self1 = (frames, self2, last_im) →
  develop_all self2 (to_tuple (frame p)) last_im frames = Some (ims, last') →
  frames ≠ [] → frame_count self1 ≠ 0 → sink_ok env = true →
  let x0 := left margins in
  let y0 := top margins in
  let x1 := (x0 + qz (nx p) * width (total p))%Qc in
  let y1 := (y0 + qz (ny p) * height (total p))%Qc in
  let cells := walk (nx p) (ny p) (0, -1, 0) (length frames) in
  ∃ self' s, last cells = Some s ∧
    process env self out dpi offset fps h margins pf w
    = (Return self',
       mkWorld (({[out]} ∪ (list_to_set (cell_name <$> cells) ∪ files w1))
                ∖ list_to_set (tmp ++ (cell_name <$> cells)))
         (trace w1 ++ document_events pf
          ++ loop_events p offset x0 y0 x1 y1 0 (0, -1, 0) ims
          ++ final_raster_events p offset x0 y0 x1 y1 s
          ++ ev_output out :: (ev_remove <$> tmp ++ (cell_name <$> cells)))).
Proof.
  intros Hopen Hgeo Hall Hdev Hne Hfc Hsink x0 y0 x1 y1 cells.
  destruct (last_walk (nx p) (ny p) (0, -1, 0) (length frames)) as [s Hs].
  { by destruct frames. }
  fold cells in Hs.
  destruct (open_source_tmp _ _ _ _ _ _ _ _ Hopen) as [Hnd Htmp].
  assert (Hfc2 : frame_count self2 ≠ 0).
  { destruct (all_frames_develop _ (to_tuple (frame p)) _ _ _ Hall)
      as (_ & _ & _ & _ & ->). done. }
  eexists _, s. split; [done|].
  unfold process.
  erewrite bind_run by exact Hopen. cbv beta iota.
  erewrite bind_run by exact Hgeo.
  erewrite bind_run by apply new_document_run.
  rewrite Hall.
  erewrite bind_run.
  2:{ apply frame_loop_run; [exact Hfc2|exact Hdev]. }
  cbn [initial_locals l_page l_tx l_ty l_i l_tmp_files files trace].
  fold x0 y0 x1 y1 cells.
  unfold locals_after. rewrite Hs.
  erewrite bind_run.
  2:{ apply (final_raster_run _ _ _ _ _ _ _ _ s); reflexivity. }
  erewrite bind_run.
  2:{ apply finish_run; [done| |].
      - cbn [l_tmp_files]. apply NoDup_app. split_and!; [done| |].
        + intros name [-> _]%Htmp (s' & Heq & _)%list_elem_of_fmap.
          symmetry in Heq. by apply temp_name_not_mp4 in Heq.
        + by apply walk_names_NoDup.
      - cbn [l_tmp_files files]. intros name [Hin|Hin]%elem_of_app.
        + apply elem_of_union_r. by apply Htmp.
        + apply elem_of_union_l. by apply elem_of_list_to_set. }
  cbn [l_tmp_files files trace]. unfold ret.
  rewrite <- !app_assoc. reflexivity.
Qed.

(** ** Reading the trace of the loop *)

Lemma raster_lines_lines nx ny x0 y0 x1 y1 offset total :
  Forall is_line (raster_lines nx ny x0 y0 x1 y1 offset total).
Proof.
  unfold raster_lines. apply Forall_app. split.
  - apply Forall_bind, Forall_forall. intros ix _. simpl.
    case_decide; repeat constructor.
  - apply Forall_fmap, Forall_forall. intros iy _. exact I.
Qed.

Lemma omap_lines {B} (f : Event → option B) l :
  (∀ e, is_line e → f e = None) → Forall is_line l → omap f l = [].
Proof.
  intros Hf. induction 1 as [|e l He _ IH]; simpl; [done|].
  by rewrite (Hf e He).
Qed.

Lemma placements_lines pg l tr :
  Forall is_line l → placements pg (l ++ tr) = placements pg tr.
Proof.
  induction 1 as [|e l He _ IH]; simpl; [done|]. by destruct e.
Qed.

Lemma placements_app pg a b :
  placements pg (a ++ b) = placements pg a ++ placements (pg + opened a) b.
Proof.
  revert pg. induction a as [|e a IH]; intros pg; simpl.
  - unfold opened. simpl. by rewrite Z.add_0_r.
  - destruct e; simpl; rewrite IH; unfold opened; simpl; try done.
    f_equal. f_equal. rewrite Nat2Z.inj_succ. unfold omap. lia.
Qed.

Lemma advance_page nx ny s :
  (advance nx ny s).1.1 = s.1.1 + (if decide (breaks nx ny s) then 1 else 0).
Proof.
  destruct s as [[page tx] ty]. unfold advance, breaks. simpl.
  repeat case_decide; simpl; lia.
Qed.

(** The lemmas below read one observation off the calls of the loop; the
    layout and the origin are fixed. *)
Section LoopTrace.

Context (p : Plan) (offset x0 y0 x1 y1 : Qc).

Lemma placements_tile i s im pg tr :
  placements pg (tile_events p offset x0 y0 i s im ++ tr)
  = (pg, cell_name s, (cell_x p x0 s + offset)%Qc, cell_y p y0 s)
    :: placements pg tr.
Proof. unfold tile_events. simpl. by case_decide. Qed.

Lemma placements_loop i s ims pg :
  pg = s.1.1 →
  placements pg (loop_events p offset x0 y0 x1 y1 i s ims)
  = placement p offset x0 y0 <$> walk (nx p) (ny p) s (length ims).
Proof.
  revert i s pg. induction ims as [|im ims IH]; intros i s pg Hpg; simpl; [done|].
  unfold step_events. rewrite <- !app_assoc.
  pose proof (advance_page (nx p) (ny p) s) as Hp.
  destruct (decide (breaks (nx p) (ny p) s)).
  - rewrite <- !app_assoc.
    rewrite placements_lines by apply raster_lines_lines.
    cbn [app placements]. rewrite placements_tile. unfold placement at 1. f_equal.
    + repeat f_equal. lia.
    + apply IH. lia.
  - cbn [app]. rewrite placements_tile. unfold placement at 1. f_equal.
    + repeat f_equal. lia.
    + apply IH. lia.
Qed.

Lemma created_lines l : Forall is_line l → created l = [].
Proof. intros H. apply omap_lines; [|done]. by intros []. Qed.

Lemma saved_lines l : Forall is_line l → saved l = [].
Proof. intros H. apply omap_lines; [|done]. by intros []. Qed.

Lemma labels_lines l : Forall is_line l → labels l = [].
Proof. intros H. apply omap_lines; [|done]. by intros []. Qed.

Lemma created_app a b : created (a ++ b) = created a ++ created b.
Proof. apply omap_app. Qed.

Lemma saved_app a b : saved (a ++ b) = saved a ++ saved b.
Proof. apply omap_app. Qed.

Lemma labels_app a b : labels (a ++ b) = labels a ++ labels b.
Proof. apply omap_app. Qed.

Lemma created_step i s im :
  created (step_events p offset x0 y0 x1 y1 i s im)
  = [cell_name (advance (nx p) (ny p) s)].
Proof.
  unfold step_events. rewrite created_app.
  assert (Hr : created (if decide (breaks (nx p) (ny p) s)
               then raster_lines (nx p) (ny p) x0 y0 x1 y1 offset (total p)
                    ++ [ev_add_page] else []) = []).
  { case_decide; [|done].
    rewrite created_app. rewrite created_lines by apply raster_lines_lines.
    reflexivity. }
  rewrite Hr. unfold tile_events.
  destruct (decide (0 < offset)%Qc); reflexivity.
Qed.

Lemma saved_step i s im :
  saved (step_events p offset x0 y0 x1 y1 i s im)
  = [(cell_name (advance (nx p) (ny p) s), im)].
Proof.
  unfold step_events. rewrite saved_app.
  assert (Hr : saved (if decide (breaks (nx p) (ny p) s)
               then raster_lines (nx p) (ny p) x0 y0 x1 y1 offset (total p)
                    ++ [ev_add_page] else []) = []).
  { case_decide; [|done].
    rewrite saved_app. rewrite saved_lines by apply raster_lines_lines.
    reflexivity. }
  rewrite Hr. unfold tile_events.
  destruct (decide (0 < offset)%Qc); reflexivity.
Qed.

Lemma labels_step i s im :
  labels (step_events p offset x0 y0 x1 y1 i s im)
  = if decide (0 < offset)%Qc then [pretty i] else [].
Proof.
  unfold step_events. rewrite labels_app.
  assert (Hr : labels (if decide (breaks (nx p) (ny p) s)
               then raster_lines (nx p) (ny p) x0 y0 x1 y1 offset (total p)
                    ++ [ev_add_page] else []) = []).
  { case_decide; [|done].
    rewrite labels_app. rewrite labels_lines by apply raster_lines_lines.
    reflexivity. }
  rewrite Hr. unfold tile_events.
  destruct (decide (0 < offset)%Qc); reflexivity.
Qed.

Lemma created_loop i s ims :
  created (loop_events p offset x0 y0 x1 y1 i s ims)
  = cell_name <$> walk (nx p) (ny p) s (length ims).
Proof.
  revert i s. induction ims as [|im ims IH]; intros i s; simpl; [done|].
  by rewrite created_app, created_step, IH.
Qed.

Lemma saved_loop i s ims :
  saved (loop_events p offset x0 y0 x1 y1 i s ims)
  = zip (cell_name <$> walk (nx p) (ny p) s (length ims)) ims.
Proof.
  revert i s. induction ims as [|im ims IH]; intros i s; simpl; [done|].
  by rewrite saved_app, saved_step, IH.
Qed.

Lemma labels_loop i s ims :
  labels (loop_events p offset x0 y0 x1 y1 i s ims)
  = if decide (0 < offset)%Qc
    then (λ k, pretty (i + Z.of_nat k)) <$> seq 0 (length ims)
    else [].
Proof.
  revert i s. induction ims as [|im ims IH]; intros i s; simpl.
  - by case_decide.
  - rewrite labels_app, labels_step, IH.
    destruct (decide (0 < offset)%Qc); simpl; [|done].
    rewrite Z.add_0_r. f_equal.
    rewrite <- fmap_S_seq, <- list_fmap_compose. apply list_fmap_ext.
    intros _ k _. simpl. f_equal. lia.
Qed.

End LoopTrace.

(** ** Row-major filling *)

Lemma succ_div_mod n k :
  0 < n → 0 ≤ k →
  (k `mod` n + 1 = n → (k + 1) `mod` n = 0 ∧ (k + 1) `div` n = k `div` n + 1) ∧
  (k `mod` n + 1 ≠ n →
     (k + 1) `mod` n = k `mod` n + 1 ∧ (k + 1) `div` n = k `div` n).
Proof.
  intros Hn Hk.
  pose proof (Z.div_mod k n ltac:(lia)) as Hdm.
  pose proof (Z.mod_pos_bound k n Hn) as Hb.
  split; intros Hc.
  - assert (Hq : (k + 1) `div` n = k `div` n + 1).
    { symmetry. apply (Z.div_unique _ _ _ 0); lia. }
    split; [|done]. rewrite Z.mod_eq, Hq by lia. lia.
  - assert (Hq : (k + 1) `div` n = k `div` n).
    { symmetry. apply (Z.div_unique _ _ _ (k `mod` n + 1)); lia. }
    split; [|done]. rewrite Z.mod_eq, Hq by lia. lia.
Qed.

Lemma advance_cell nx ny k :
  1 ≤ nx → 1 ≤ ny → 0 ≤ k →
  advance nx ny (cell nx ny k) = cell nx ny (k + 1).
Proof.
  intros Hx Hy Hk. unfold advance, cell.
  rewrite <- !Z.div_div by lia.
  destruct (succ_div_mod nx k ltac:(lia) Hk) as [Hw Hn].
  assert (Hq : 0 ≤ k `div` nx) by (apply Z.div_pos; lia).
  destruct (succ_div_mod ny (k `div` nx) ltac:(lia) Hq) as [Hw' Hn'].
  destruct (decide (k `mod` nx + 1 = nx)) as [E|E].
  - destruct (Hw E) as [-> ->].
    destruct (decide ((k `div` nx) `mod` ny + 1 = ny)) as [E'|E'].
    + destruct (Hw' E') as [-> ->]. done.
    + destruct (Hn' E') as [-> ->]. done.
  - destruct (Hn E) as [-> ->]. done.
Qed.

Lemma advance_initial nx ny :
  1 ≤ nx → 1 ≤ ny → advance nx ny (0, -1, 0) = cell nx ny 0.
Proof.
  intros Hx Hy. unfold advance, cell. simpl.
  rewrite decide_False by lia.
  by rewrite !Z.div_0_l, !Z.mod_0_l by lia.
Qed.

Lemma walk_cells_from nx ny k n :
  1 ≤ nx → 1 ≤ ny → 0 ≤ k →
  walk nx ny (cell nx ny k) n
  = (λ j, cell nx ny (k + 1 + Z.of_nat j)) <$> seq 0 n.
Proof.
  intros Hx Hy. revert k.
  induction n as [|n IH]; intros k Hk; cbn [walk seq fmap list_fmap]; [done|].
  rewrite advance_cell by done. rewrite Z.add_0_r. f_equal.
  rewrite IH by lia. rewrite <- fmap_S_seq, <- list_fmap_compose.
  apply list_fmap_ext. intros _ j _. simpl. f_equal. lia.
Qed.

(** On a grid of at least one tile the [n] frames of a run fill the cells
    [cell 0], [cell 1], ... *)
Lemma walk_cells nx ny n :
  1 ≤ nx → 1 ≤ ny →
  walk nx ny (0, -1, 0) n = (λ j, cell nx ny (Z.of_nat j)) <$> seq 0 n.
Proof.
  intros Hx Hy. destruct n as [|n]; cbn [walk seq fmap list_fmap]; [done|].
  rewrite advance_initial by done. f_equal.
  rewrite walk_cells_from by lia. rewrite <- fmap_S_seq, <- list_fmap_compose.
  apply list_fmap_ext. intros _ j _. simpl. f_equal. lia.
Qed.

(** ** Runs of [process] that do not return *)

Lemma process_unfold env self out dpi offset fps h margins pf w
    self1 tmp cs w1 p frames self2 last_im :
  open_source env self fps w = (Return (self1, tmp, cs), w1) →
  geometry cs dpi offset h margins pf w1 = (Return p, w1) →
  all_frames self1 = (frames, self2, last_im) →
  let x0 := left margins in
  let y0 := top margins in
  let x1 := (x0 + qz (nx p) * width (total p))%Qc in
  let y1 := (y0 + qz (ny p) * height (total p))%Qc in
  ∃ k : Locals → FlipbookCreator,
  process env self out dpi offset fps h margins pf w
  = (st <~ frame_loop self2 p offset x0 y0 x1 y1 frames
             (initial_locals tmp last_im) ;;
     final_raster p offset x0 y0 x1 y1 st ;;;
     finish env out (l_tmp_files st) ;;;
     ret (k st))
      (mkWorld (files w1) (trace w1 ++ document_events pf)).
Proof.
  intros Hopen Hgeo Hall x0 y0 x1 y1. eexists.
  unfold process.
  erewrite bind_run by exact Hopen. cbv beta iota.
  erewrite bind_run by exact Hgeo.
  erewrite bind_run by apply new_document_run.
  rewrite Hall. reflexivity.
Qed.

Lemma frame_loop_zero_count self p offset x0 y0 x1 y1 f frames st w :
  frame_count self = 0 →
  frame_loop self p offset x0 y0 x1 y1 (f :: frames) st w
  = (Raise ZeroDivisionError, w).
Proof.
  intros Hfc. simpl. unfold bind at 1. unfold loop_body.
  rewrite decide_True by done. reflexivity.
Qed.

(** ** Runs of [process] that return *)

Lemma open_source_world env self fps w self1 tmp cs w1 :
  open_source env self fps w = (Return (self1, tmp, cs), w1) →
  files w1 = list_to_set tmp ∪ files w ∧
  trace w1 = trace w ++ ((λ name, ev_write_videofile name fps) <$> tmp) ∧
  (tmp = [] ∨ tmp = ["tmp.mp4"%string]).
Proof.
  intros [(-> & -> & _)|(-> & -> & _)]%open_source_inv; simpl.
  - rewrite app_nil_r. split_and!; [set_solver|done|by left].
  - split_and!; [set_solver|done|by right].
Qed.

Lemma process_returns env self out dpi offset fps h margins pf w
    self1 tmp cs w1 p frames self2 last_im ims last' :
  open_source env self fps w = (Return (self1, tmp, cs), w1) →
  geometry cs dpi offset h margins pf w1 = (Return p, w1) →
  all_frames self1 = (frames, self2, last_im) →
  develop_all self2 (to_tuple (frame p)) last_im frames = Some (ims, last') →
  frames ≠ [] → frame_count self1 ≠ 0 → sink_ok env = true →
  ∃ self',
    process env self out dpi offset fps h margins pf w
    = (Return self',
       mkWorld (({[out]} ∪ files w)
                ∖ list_to_set (tmp ++ (cell_name <$> run_cells p (length ims))))
               (trace w ++ run_events fps pf p offset margins tmp ims out)).
Proof.
  intros Hopen Hgeo Hall Hdev Hne Hfc Hsink.
  destruct (process_run _ _ out dpi offset fps h margins pf w _ _ _ _ _ _ _ _ _ _
              Hopen Hgeo Hall Hdev Hne Hfc Hsink) as (self' & s & Hs & ->).
  destruct (open_source_world _ _ _ _ _ _ _ _ Hopen) as (Hf & Ht & _).
  assert (Hlen : length frames = length ims).
  { clear -Hdev. revert last_im ims Hdev.
    induction frames as [|f frames IH]; intros last_im ims Hdev; simpl in *.
    - by simplify_eq.
    - destruct (develop _ _ _ f) as [[im l1]|]; [|done].
      destruct (develop_all _ _ l1 frames) as [[ims' l2]|] eqn:E; [|done].
      simplify_eq. simpl. f_equal. by eapply IH. }
  exists self'. unfold run_events, run_cells. rewrite <- Hlen, Hs. simpl.
  f_equal. f_equal.
  - rewrite Hf. set_solver.
  - rewrite Ht. by rewrite <- !app_assoc.
Qed.

(** ** Reading the trace of a run *)

Lemma final_raster_lines p offset x0 y0 x1 y1 s :
  Forall is_line (final_raster_events p offset x0 y0 x1 y1 s).
Proof.
  unfold final_raster_events. case_decide; [apply raster_lines_lines|constructor].
Qed.

Lemma placements_removes pg (l : list string) :
  placements pg (ev_remove <$> l) = [].
Proof. induction l; simpl; done. Qed.

Lemma created_removes (l : list string) : created (ev_remove <$> l) = [].
Proof. induction l; simpl; done. Qed.

Lemma saved_removes (l : list string) : saved (ev_remove <$> l) = [].
Proof. induction l; simpl; done. Qed.

Lemma labels_removes (l : list string) : labels (ev_remove <$> l) = [].
Proof. induction l; simpl; done. Qed.

Lemma placements_run fps pf p offset margins tmp ims out :
  tmp = [] ∨ tmp = ["tmp.mp4"%string] →
  placements (-1) (run_events fps pf p offset margins tmp ims out)
  = placement p offset (left margins) (top margins)
    <$> run_cells p (length ims).
Proof.
  intros Htmp. unfold run_events.
  rewrite placements_app.
  assert (H0 : placements (-1) ((λ name, ev_write_videofile name fps) <$> tmp) = []
               ∧ opened ((λ name, ev_write_videofile name fps) <$> tmp) = 0)
    by (destruct Htmp as [-> | ->]; done).
  destruct H0 as [-> ->]. cbn [app document_events placements].
  change (-1 + 0 + 1) with 0.
  rewrite placements_app, placements_loop by done.
  rewrite placements_lines by apply final_raster_lines.
  cbn [placements]. rewrite placements_removes, app_nil_r. done.
Qed.

Lemma created_transcodes fps (l : list string) :
  created ((λ name, ev_write_videofile name fps) <$> l) = l.
Proof.
  induction l as [|a l IH]; [done|].
  change (a :: created ((λ name, ev_write_videofile name fps) <$> l) = a :: l).
  by rewrite IH.
Qed.

Lemma created_run fps pf p offset margins tmp ims out :
  created (run_events fps pf p offset margins tmp ims out)
  = tmp ++ (cell_name <$> run_cells p (length ims)).
Proof.
  unfold run_events. rewrite !created_app, created_loop, created_transcodes.
  rewrite (created_lines _ (final_raster_lines _ _ _ _ _ _ _)).
  change (created (document_events pf)) with (@nil string).
  change (created (ev_output out :: (ev_remove <$>
            tmp ++ (cell_name <$> run_cells p (length ims)))))
    with (created (ev_remove <$> tmp ++ (cell_name <$> run_cells p (length ims)))).
  by rewrite created_removes, app_nil_r.
Qed.

Lemma saved_run fps pf p offset margins tmp ims out :
  saved (run_events fps pf p offset margins tmp ims out)
  = zip (cell_name <$> run_cells p (length ims)) ims.
Proof.
  unfold run_events. rewrite !saved_app, saved_loop.
  rewrite (saved_lines _ (final_raster_lines _ _ _ _ _ _ _)).
  change (saved (document_events pf)) with (@nil (string * Image)).
  change (saved (ev_output out :: (ev_remove <$>
            tmp ++ (cell_name <$> run_cells p (length ims)))))
    with (saved (ev_remove <$> tmp ++ (cell_name <$> run_cells p (length ims)))).
  rewrite saved_removes, app_nil_r.
  assert (H0 : saved ((λ name, ev_write_videofile name fps) <$> tmp) = []).
  { induction tmp as [|a l IH]; [done|exact IH]. }
  by rewrite H0.
Qed.

Lemma labels_run fps pf p offset margins tmp ims out :
  labels (run_events fps pf p offset margins tmp ims out)
  = if decide (0 < offset)%Qc
    then (λ k, pretty (Z.of_nat k)) <$> seq 0 (length ims)
    else [].
Proof.
  unfold run_events. rewrite !labels_app, labels_loop.
  rewrite (labels_lines _ (final_raster_lines _ _ _ _ _ _ _)).
  change (labels (document_events pf)) with (@nil string).
  change (labels (ev_output out :: (ev_remove <$>
            tmp ++ (cell_name <$> run_cells p (length ims)))))
    with (labels (ev_remove <$> tmp ++ (cell_name <$> run_cells p (length ims)))).
  rewrite labels_removes, app_nil_r.
  assert (H0 : labels ((λ name, ev_write_videofile name fps) <$> tmp) = []).
  { induction tmp as [|a l IH]; [done|exact IH]. }
  rewrite H0. simpl. case_decide; [|done].
  apply list_fmap_ext. intros _ k _. done.
Qed.

(** ** Failing and returning runs *)

(** C10: when the frame sequence is empty, [process] builds the document,
    skips the loop and fails on the unassigned local [y] in the end-of-stream
    check: nothing is written, nothing is removed, and the temporary files
    created so far stay. *)
Theorem C10_no_frames_unbound env self out dpi offset fps h margins pf w
    self1 tmp cs w1 p self2 last_im :
  open_source env self fps w = (Return (self1, tmp, cs), w1) →
  geometry cs dpi offset h margins pf w1 = (Return p, w1) →
  all_frames self1 = ([], self2, last_im) →
  ∃ w' evs,
    process env self out dpi offset fps h margins pf w
    = (Raise (UnboundLocalError "y"), w') ∧
    trace w' = trace w ++ evs ∧
    written evs = [] ∧ removed evs = [] ∧ created evs = tmp ∧
    ∀ name, name ∈ tmp → name ∈ files w'.
Proof.
  intros Hopen Hgeo Hall.
  destruct (process_unfold _ _ out dpi offset fps h margins pf _ _ _ _ _ _ _ _ _
              Hopen Hgeo Hall) as [k ->].
  destruct (open_source_world _ _ _ _ _ _ _ _ Hopen) as (Hf & Ht & Htmp).
  eexists _, _. split.
  - cbn [frame_loop]. erewrite bind_run by reflexivity.
    erewrite bind_raise; [reflexivity|].
    by apply final_raster_unbound.
  - simpl. rewrite Ht, <- app_assoc. split; [reflexivity|].
    split_and!.
    + destruct Htmp as [-> | ->]; done.
    + destruct Htmp as [-> | ->]; done.
    + destruct Htmp as [-> | ->]; done.
    + intros name Hin. rewrite Hf. set_solver.
Qed.

Lemma C10_no_frames_unbound_witness :
  ∃ w' evs,
    process (demo_env true)
      (clip_creator "empty.mp4" (mkClip (qz 25) 0%Qc (1920, 1080) []))
      "flip-book.pdf" 200 (qz 15) 10 (qz 30) default_margins "a4" empty_world
    = (Raise (UnboundLocalError "y"), w') ∧
    trace w' = trace empty_world ++ evs ∧
    written evs = [] ∧ removed evs = [] ∧ created evs = ["tmp.mp4"%string] ∧
    ∀ name, name ∈ ["tmp.mp4"%string] → name ∈ files w'.
Proof.
  eapply (C10_no_frames_unbound (demo_env true)
            (clip_creator "empty.mp4" (mkClip (qz 25) 0%Qc (1920, 1080) []))
            "flip-book.pdf" 200 (qz 15) 10 (qz 30) default_margins "a4"
            empty_world).
  - vm_compute. reflexivity.
  - vm_compute. reflexivity.
  - vm_compute. reflexivity.
Defined.

(** C3, as the program has it: when [process] returns, every temporary file
    it created (the re-encoded video, the image of every tile) has been
    removed.  Nothing is promised when it raises. *)
Theorem C3_cleanup_on_return env self out dpi offset fps h margins pf w self' w' :
  process env self out dpi offset fps h margins pf w = (Return self', w') →
  ∃ evs, trace w' = trace w ++ evs ∧
         ∀ name, name ∈ created evs → name ∉ files w'.
Proof.
  intros Hret.
  destruct (open_source env self fps w) as [[[[self1 tmp] cs]|e] w1] eqn:Hopen.
  2:{ unfold process in Hret. erewrite bind_raise in Hret by exact Hopen. done. }
  destruct (geometry cs dpi offset h margins pf w1) as [[p|e] w1'] eqn:Hgeo.
  2:{ unfold process in Hret. erewrite bind_run in Hret by exact Hopen.
      cbv beta iota in Hret. erewrite bind_raise in Hret by exact Hgeo. done. }
  destruct (geometry_inv _ _ _ _ _ _ _ _ _ Hgeo) as [-> _].
  destruct (all_frames self1) as [[frames self2] last_im] eqn:Hall.
  destruct (process_unfold _ _ out dpi offset fps h margins pf _ _ _ _ _ _ _ _ _
              Hopen Hgeo Hall) as [k Hk].
  destruct (all_frames_develop _ (to_tuple (frame p)) _ _ _ Hall)
    as (ims & last' & Hdev & Hlen & Hfc).
  destruct frames as [|f frames].
  { rewrite Hk in Hret. cbn [frame_loop] in Hret.
    erewrite bind_run in Hret by reflexivity.
    erewrite bind_raise in Hret; [done|]. by apply final_raster_unbound. }
  destruct (decide (frame_count self1 = 0)) as [Hz|Hnz].
  { rewrite Hk in Hret. erewrite bind_raise in Hret; [done|].
    apply frame_loop_zero_count. congruence. }
  destruct (sink_ok env) eqn:Hsink.
  - destruct (process_returns _ _ out dpi offset fps h margins pf w _ _ _ _ _ _ _ _
                _ _ Hopen Hgeo Hall Hdev ltac:(done) Hnz Hsink) as [self'' Hrun].
    rewrite Hrun in Hret. injection Hret as _ <-.
    eexists. split; [reflexivity|]. simpl.
    intros name Hin. rewrite created_run in Hin.
    rewrite elem_of_difference, elem_of_list_to_set. tauto.
  - rewrite Hk in Hret.
    erewrite bind_run in Hret by (apply frame_loop_run; [congruence|exact Hdev]).
    destruct (last_walk (nx p) (ny p) (0, -1, 0) (length (f :: frames)))
      as [s Hs]; [done|].
    unfold locals_after in Hret. cbn [initial_locals l_page l_tx l_ty] in Hret.
    rewrite Hs in Hret.
    erewrite bind_run in Hret
      by (apply (final_raster_run _ _ _ _ _ _ _ _ s); reflexivity).
    erewrite bind_raise in Hret by (by apply finish_sink_fails). done.
Qed.

Lemma C3_cleanup_on_return_witness :
  ∃ self' w',
    process (demo_env true) (clip_creator "b.mp4" (clip_16_9 25 3))
      "flip-book.pdf" 200 (qz 15) 10 (qz 30) default_margins "a4" empty_world
    = (Return self', w') ∧
    ∃ evs, trace w' = trace empty_world ++ evs ∧
           ∀ name, name ∈ created evs → name ∉ files w'.
Proof.
  eexists _, _. split; [vm_compute; reflexivity|].
  eapply (C3_cleanup_on_return (demo_env true)
            (clip_creator "b.mp4" (clip_16_9 25 3))
            "flip-book.pdf" 200 (qz 15) 10 (qz 30) default_margins "a4"
            empty_world).
  vm_compute. reflexivity.
Defined.

(** C3 as stated fails: when the document cannot be written, [process]
    raises and the re-encoded video and the three tile images stay on
    disk. *)
Lemma C3_counterexample :
  let r := process (demo_env false) (clip_creator "b.mp4" (clip_16_9 25 3))
             "flip-book.pdf" 200 (qz 15) 10 (qz 30) default_margins "a4"
             empty_world in
  r.1 = Raise (OSError "flip-book.pdf") ∧
  created (trace r.2)
  = ["tmp.mp4"; "tmp-0-0-0.png"; "tmp-0-1-0.png"; "tmp-0-2-0.png"]%string ∧
  Forall (λ name, name ∈ files r.2) (created (trace r.2)).
Proof.
  split; [vm_compute; reflexivity|]. split; [vm_compute; reflexivity|].
  apply (bool_decide_unpack _). vm_compute. exact I.
Qed.

(** ** Degenerate grids *)

(** C2, as the program has it: [process] does not check the tile counts.
    When a count is zero and nothing else fails (the source opens, there are
    frames, the frame count is not zero, the document can be written), the
    run returns normally and has placed every frame. *)
Theorem C2_zero_tiles_accepted env self out dpi offset fps h margins pf w
    self1 tmp cs w1 p frames self2 last_im :
  open_source env self fps w = (Return (self1, tmp, cs), w1) →
  geometry cs dpi offset h margins pf w1 = (Return p, w1) →
  all_frames self1 = (frames, self2, last_im) →
  nx p = 0 ∨ ny p = 0 →
  frames ≠ [] → frame_count self1 ≠ 0 → sink_ok env = true →
  ∃ self' w' evs,
    process env self out dpi offset fps h margins pf w = (Return self', w') ∧
    trace w' = trace w ++ evs ∧
    length (placements (-1) evs) = length frames.
Proof.
  intros Hopen Hgeo Hall _ Hne Hfc Hsink.
  destruct (all_frames_develop _ (to_tuple (frame p)) _ _ _ Hall)
    as (ims & last' & Hdev & Hlen & _).
  destruct (process_returns _ _ out dpi offset fps h margins pf w _ _ _ _ _ _ _ _
              _ _ Hopen Hgeo Hall Hdev Hne Hfc Hsink) as [self' Hrun].
  destruct (open_source_world _ _ _ _ _ _ _ _ Hopen) as (_ & _ & Htmp).
  eexists _, _, _. split; [exact Hrun|]. split; [reflexivity|].
  rewrite placements_run by done.
  unfold run_cells. by rewrite length_fmap, walk_length.
Qed.

Lemma C2_zero_tiles_accepted_witness :
  ∃ self' w' evs,
    process (demo_env true) (clip_creator "a.mp4" (clip_16_9 10 3))
      "flip-book.pdf" 200 (qz 15) 10 (qz 200) default_margins "a4" empty_world
    = (Return self', w') ∧
    trace w' = trace empty_world ++ evs ∧
    length (placements (-1) evs) = length (ndarray <$> seq 0 3).
Proof.
  eapply (C2_zero_tiles_accepted (demo_env true)
            (clip_creator "a.mp4" (clip_16_9 10 3))
            "flip-book.pdf" 200 (qz 15) 10 (qz 200) default_margins "a4"
            empty_world).
  - vm_compute. reflexivity.
  - vm_compute. reflexivity.
  - vm_compute. reflexivity.
  - left. vm_compute. reflexivity.
  - discriminate.
  - vm_compute. discriminate.
  - reflexivity.
Defined.

(** C2 as stated fails: with a frame height of 200 mm on A4 the printable
    area is 277 by 190 mm, both tile counts are 0, and the run still returns
    normally with its three frames placed. *)
Lemma C2_counterexample :
  let r := main (demo_env true) (with_height (qz 200) (demo_args "a.mp4"))
             empty_world in
  (∃ p, geometry (from_tuple (1920, 1080)) 200 (qz 15) (qz 200)
          default_margins "a4" empty_world = (Return p, empty_world)
        ∧ (0 < width (printable_area p))%Qc
        ∧ (0 < height (printable_area p))%Qc
        ∧ nx p = 0 ∧ ny p = 0)
  ∧ (∃ self', r.1 = Return self')
  ∧ length (placements (-1) (trace r.2)) = 3%nat.
Proof.
  split.
  - eexists. split; [vm_compute; reflexivity|].
    split; [qc_closed|]. split; [qc_closed|]. split; reflexivity.
  - split; [eexists; vm_compute; reflexivity|vm_compute; reflexivity].
Qed.

(** ** Pagination *)

Lemma lines_are_tail l : Forall is_line l → Forall is_tail l.
Proof. intros H. eapply Forall_impl; [exact H|]. by intros []. Qed.

Lemma placements_tail pg l : Forall is_tail l → placements pg l = [].
Proof. induction 1 as [|e l He _ IH]; [done|]. by destruct e. Qed.

Lemma labels_tail l : Forall is_tail l → labels l = [].
Proof. induction 1 as [|e l He _ IH]; [done|]. by destruct e. Qed.

(** Whatever the outcome of a run whose frame count is not zero, its trace
    is the re-encoding, the document, the calls of the loop and a tail
    without frames. *)
Lemma process_trace env self out dpi offset fps h margins pf w
    self1 tmp cs w1 p frames self2 last_im ims last' :
  open_source env self fps w = (Return (self1, tmp, cs), w1) →
  geometry cs dpi offset h margins pf w1 = (Return p, w1) →
  all_frames self1 = (frames, self2, last_im) →
  develop_all self2 (to_tuple (frame p)) last_im frames = Some (ims, last') →
  frame_count self1 ≠ 0 →
  let x0 := left margins in
  let y0 := top margins in
  let x1 := (x0 + qz (nx p) * width (total p))%Qc in
  let y1 := (y0 + qz (ny p) * height (total p))%Qc in
  ∃ res w' tail,
    process env self out dpi offset fps h margins pf w = (res, w') ∧
    trace w' = trace w ++ ((λ name, ev_write_videofile name fps) <$> tmp)
               ++ document_events pf
               ++ loop_events p offset x0 y0 x1 y1 0 (0, -1, 0) ims ++ tail ∧
    Forall is_tail tail.
Proof.
  intros Hopen Hgeo Hall Hdev Hnz x0 y0 x1 y1.
  destruct (process_unfold _ _ out dpi offset fps h margins pf _ _ _ _ _ _ _ _ _
              Hopen Hgeo Hall) as [k Hk].
  destruct (open_source_world _ _ _ _ _ _ _ _ Hopen) as (_ & Ht & _).
  destruct (all_frames_develop _ (to_tuple (frame p)) _ _ _ Hall)
    as (_ & _ & _ & _ & Hfc).
  destruct frames as [|f frames].
  { simpl in Hdev. simplify_eq.
    eexists _, _, []. split; [|split; [|constructor]].
    - rewrite Hk. cbn [frame_loop]. erewrite bind_run by reflexivity.
      erewrite bind_raise; [reflexivity|]. by apply final_raster_unbound.
    - cbn [trace loop_events app]. rewrite Ht, <- !app_assoc.
      by rewrite app_nil_r. }
  destruct (sink_ok env) eqn:Hsink.
  - destruct (process_returns _ _ out dpi offset fps h margins pf w _ _ _ _ _ _ _ _
                _ _ Hopen Hgeo Hall Hdev ltac:(done) Hnz Hsink) as [self' Hrun].
    eexists _, _, _. split; [exact Hrun|].
    unfold run_events. fold x0 y0 x1 y1. cbn [trace].
    split; [reflexivity|].
    apply Forall_app. split; [apply lines_are_tail, final_raster_lines|].
    constructor; [exact I|]. apply Forall_fmap, Forall_forall. by intros ??.
  - destruct (last_walk (nx p) (ny p) (0, -1, 0) (length (f :: frames)))
      as [s Hs]; [done|].
    eexists _, _, (final_raster_events p offset x0 y0 x1 y1 s). split.
    + rewrite Hk.
      erewrite bind_run by (apply frame_loop_run; [congruence|exact Hdev]).
      cbn [initial_locals l_page l_tx l_ty l_i].
      unfold locals_after. rewrite Hs.
      erewrite bind_run
        by (apply (final_raster_run _ _ _ _ _ _ _ _ s); reflexivity).
      erewrite bind_raise by (by apply finish_sink_fails). reflexivity.
    + cbn [trace files]. rewrite Ht, <- !app_assoc. split; [reflexivity|].
      apply lines_are_tail, final_raster_lines.
Qed.

(** C5: on a grid of at least one column and one row, frame number [k]
    (counting from 0) lands on page [k / (nx*ny)] in column [k mod nx] of row
    [(k / nx) mod ny], so every full page holds exactly [nx*ny] frames filled
    row by row, and the index printed next to frame [k] is [k]: it starts at
    0 and grows by one per frame.  This holds whether [process] returns or
    fails after the loop. *)
Theorem C5_row_major_pagination env self out dpi offset fps h margins pf w
    self1 tmp cs w1 p frames self2 last_im :
  open_source env self fps w = (Return (self1, tmp, cs), w1) →
  geometry cs dpi offset h margins pf w1 = (Return p, w1) →
  all_frames self1 = (frames, self2, last_im) →
  1 ≤ nx p → 1 ≤ ny p → frame_count self1 ≠ 0 →
  ∃ res w' evs,
    process env self out dpi offset fps h margins pf w = (res, w') ∧
    trace w' = trace w ++ evs ∧
    placements (-1) evs
    = (λ k, placement p offset (left margins) (top margins)
              (cell (nx p) (ny p) (Z.of_nat k))) <$> seq 0 (length frames) ∧
    ((0 < offset)%Qc →
     labels evs = (λ k, pretty (Z.of_nat k)) <$> seq 0 (length frames)).
Proof.
  intros Hopen Hgeo Hall Hx Hy Hfc.
  destruct (all_frames_develop _ (to_tuple (frame p)) _ _ _ Hall)
    as (ims & last' & Hdev & Hlen & _).
  destruct (process_trace _ _ out dpi offset fps h margins pf w _ _ _ _ _ _ _ _
              _ _ Hopen Hgeo Hall Hdev Hfc) as (res & w' & tail & Hrun & Ht & Htail).
  destruct (open_source_world _ _ _ _ _ _ _ _ Hopen) as (_ & _ & Htmp).
  exists res, w'. eexists. split; [exact Hrun|]. split; [exact Ht|]. split.
  - rewrite placements_app.
    assert (H0 : placements (-1) ((λ name, ev_write_videofile name fps) <$> tmp) = []
                 ∧ opened ((λ name, ev_write_videofile name fps) <$> tmp) = 0)
      by (destruct Htmp as [-> | ->]; done).
    destruct H0 as [-> ->]. cbn [app document_events placements].
    change (-1 + 0 + 1) with 0.
    rewrite placements_app, placements_loop by done.
    rewrite (placements_tail _ tail), app_nil_r by done.
    rewrite walk_cells by done. by rewrite <- list_fmap_compose, Hlen.
  - intros Hoff. rewrite !labels_app, labels_loop, decide_True by done.
    rewrite (labels_tail tail), app_nil_r by done.
    assert (H0 : labels ((λ name, ev_write_videofile name fps) <$> tmp) = [])
      by (destruct Htmp as [-> | ->]; done).
    rewrite H0. cbn [labels document_events omap list_omap app]. rewrite Hlen.
    apply list_fmap_ext. intros _ k _. done.
Qed.

Lemma C5_row_major_pagination_witness :
  ∃ res w' evs,
    process (demo_env true) (clip_creator "long.mp4" (clip_16_9 10 50))
      "flip-book.pdf" 200 (qz 15) 10 (qz 30) default_margins "a4" empty_world
    = (res, w') ∧
    trace w' = trace empty_world ++ evs ∧
    placements (-1) evs
    = (λ k, placement
              (mkPlan (mkSize (qz 277) (qz 190)) (mkSize (Q2Qc (160 # 3)) (qz 30))
                 (mkSize (Q2Qc (205 # 3)) (qz 30)) (mkSize (qz 419) (qz 236)) 4 6)
              (qz 15) (left default_margins) (top default_margins)
              (cell 4 6 (Z.of_nat k))) <$> seq 0 50 ∧
    ((0 < qz 15)%Qc →
     labels evs = (λ k, pretty (Z.of_nat k)) <$> seq 0 50).
Proof.
  refine (C5_row_major_pagination (demo_env true)
            (clip_creator "long.mp4" (clip_16_9 10 50))
            "flip-book.pdf" 200 (qz 15) 10 (qz 30) default_margins "a4"
            empty_world _ _ _ _
            (mkPlan (mkSize (qz 277) (qz 190)) (mkSize (Q2Qc (160 # 3)) (qz 30))
               (mkSize (Q2Qc (205 # 3)) (qz 30)) (mkSize (qz 419) (qz 236)) 4 6)
            (ndarray <$> seq 0 50) _ _ _ _ _ _ _ _).
  - vm_compute. reflexivity.
  - apply (bool_decide_unpack _). vm_compute. exact I.
  - vm_compute. reflexivity.
  - simpl. lia.
  - simpl. lia.
  - vm_compute. discriminate.
Defined.

(** ** Resizing *)

(** The frames of a video are resized to the planned pixel size before they
    are saved. *)
Lemma video_frames_resized env self out dpi offset fps h margins pf w
    self1 tmp cs w1 p clip self' w' :
  open_source env self fps w = (Return (self1, tmp, cs), w1) →
  geometry cs dpi offset h margins pf w1 = (Return p, w1) →
  source self1 = clip_source clip →
  process env self out dpi offset fps h margins pf w = (Return self', w') →
  ∃ evs, trace w' = trace w ++ evs ∧
    (saved evs).*2
    = (λ a, thumbnail (to_tuple (frame p)) (fromarray a)) <$> iter_frames clip.
Proof.
  intros Hopen Hgeo Hsrc Hret.
  assert (Hall : all_frames self1 = (ndarray <$> iter_frames clip, self1, None))
    by (unfold all_frames; by rewrite Hsrc).
  pose proof (develop_all_clip self1 (to_tuple (frame p)) None (iter_frames clip))
    as Hdev.
  destruct (process_unfold _ _ out dpi offset fps h margins pf _ _ _ _ _ _ _ _ _
              Hopen Hgeo Hall) as [k Hk].
  destruct (iter_frames clip) as [|a l] eqn:Hfr.
  { rewrite Hk in Hret. cbn [fmap list_fmap frame_loop] in Hret.
    erewrite bind_run in Hret by reflexivity.
    erewrite bind_raise in Hret; [done|]. by apply final_raster_unbound. }
  destruct (decide (frame_count self1 = 0)) as [Hz|Hnz].
  { rewrite Hk in Hret. erewrite bind_raise in Hret; [done|].
    by apply frame_loop_zero_count. }
  destruct (sink_ok env) eqn:Hsink.
  - destruct (process_returns _ _ out dpi offset fps h margins pf w _ _ _ _ _ _ _ _
                _ _ Hopen Hgeo Hall Hdev ltac:(done) Hnz Hsink) as [self'' Hrun].
    rewrite Hrun in Hret. injection Hret as _ <-.
    eexists. split; [reflexivity|].
    rewrite saved_run. apply snd_zip.
    unfold run_cells. by rewrite (length_fmap cell_name), walk_length.
  - rewrite Hk in Hret.
    erewrite bind_run in Hret by (by apply frame_loop_run).
    destruct (last_walk (nx p) (ny p) (0, -1, 0)
                (length (ndarray <$> a :: l))) as [s Hs]; [done|].
    unfold locals_after in Hret. cbn [initial_locals l_page l_tx l_ty] in Hret.
    rewrite Hs in Hret.
    erewrite bind_run in Hret
      by (apply (final_raster_run _ _ _ _ _ _ _ _ s); reflexivity).
    erewrite bind_raise in Hret by (by apply finish_sink_fails). done.
Qed.

(** C7 fails on the program for GIF sources: the [thumbnail] call sits in
    the video branch only.  The two frames of the 500 by 500 GIF are saved
    as converted composites, none resized to the planned 236 by 236. *)
Theorem C7_gif_frames_not_resized :
  let r := main (demo_env true) (demo_args "c.gif") empty_world in
  (∃ self', r.1 = Return self')
  ∧ (∃ p, geometry (from_tuple (500, 500)) 200 (qz 15) (qz 30)
            default_margins "a4" empty_world = (Return p, empty_world)
          ∧ to_tuple (frame p) = (qz 236, qz 236))
  ∧ length (saved (trace r.2)) = 2%nat
  ∧ Forall (λ ni, resized_to (qz 236, qz 236) ni.2 = false
                  ∧ ∃ composite, ni.2 = convert "RGBA" composite)
           (saved (trace r.2)).
Proof.
  split; [eexists; vm_compute; reflexivity|].
  split.
  { eexists. split; [vm_compute; reflexivity|]. qc_closed. }
  split; [vm_compute; reflexivity|].
  vm_compute. repeat constructor; eexists; reflexivity.
Qed.

(** ** The raster *)

Lemma lines_app a b : lines (a ++ b) = lines a ++ lines b.
Proof. apply omap_app. Qed.

Lemma lines_of_lines l : Forall is_line l → lines l = l.
Proof.
  induction 1 as [|e l He _ IH]; [done|].
  destruct e; try done.
  match goal with
  | |- lines (?e :: l) = _ => change (lines (e :: l)) with (e :: lines l)
  end.
  by rewrite IH.
Qed.

Lemma lines_step p offset x0 y0 x1 y1 i s im :
  lines (step_events p offset x0 y0 x1 y1 i s im)
  = if decide (breaks (nx p) (ny p) s)
    then raster_lines (nx p) (ny p) x0 y0 x1 y1 offset (total p) else [].
Proof.
  unfold step_events. rewrite lines_app.
  assert (Ht : lines (tile_events p offset x0 y0 i (advance (nx p) (ny p) s) im)
               = []).
  { unfold tile_events. destruct (decide (0 < offset)%Qc); reflexivity. }
  rewrite Ht, app_nil_r. case_decide; [|done].
  rewrite lines_app, lines_of_lines by apply raster_lines_lines.
  apply app_nil_r.
Qed.

(** The page the loop is on after [n] more frames. *)
Lemma walk_page_le nx ny s n s' : s' ∈ walk nx ny s n → s.1.1 ≤ s'.1.1.
Proof. intros H%walk_gt. unfold cell_lt in H. lia. Qed.

Lemma lines_loop p offset x0 y0 x1 y1 i s ims :
  lines (loop_events p offset x0 y0 x1 y1 i s ims)
  = mjoin (replicate
             (Z.to_nat ((default s (last (walk (nx p) (ny p) s (length ims)))).1.1
                        - s.1.1))
             (raster_lines (nx p) (ny p) x0 y0 x1 y1 offset (total p))).
Proof.
  revert i s. induction ims as [|im ims IH]; intros i s.
  - simpl. by rewrite Z.sub_diag.
  - cbn [loop_events length walk]. rewrite lines_app, lines_step, IH.
    set (s1 := advance (nx p) (ny p) s).
    set (R := raster_lines (nx p) (ny p) x0 y0 x1 y1 offset (total p)).
    assert (Hlast : default s (last (s1 :: walk (nx p) (ny p) s1 (length ims)))
                    = default s1 (last (walk (nx p) (ny p) s1 (length ims)))).
    { destruct (walk (nx p) (ny p) s1 (length ims)) as [|c l] eqn:E; [done|].
      cbn [last]. destruct (last (c :: l)) eqn:El; [done|].
      by apply last_None in El. }
    rewrite Hlast.
    set (sL := default s1 (last (walk (nx p) (ny p) s1 (length ims)))).
    assert (Hle : s1.1.1 ≤ sL.1.1).
    { unfold sL. destruct (last (walk (nx p) (ny p) s1 (length ims))) as [c|] eqn:E;
        [|simpl; lia].
      simpl. eapply walk_page_le. apply last_Some_elem_of. exact E. }
    pose proof (advance_page (nx p) (ny p) s) as Hp. fold s1 in Hp.
    destruct (decide (breaks (nx p) (ny p) s)).
    + replace (Z.to_nat (sL.1.1 - s.1.1)) with (S (Z.to_nat (sL.1.1 - s1.1.1)))
        by lia.
      done.
    + replace (sL.1.1 - s.1.1) with (sL.1.1 - s1.1.1) by lia. done.
Qed.

Lemma Qc_pos_ne_0 (a : Qc) : (0 < a)%Qc → a ≠ 0%Qc.
Proof. intros Ha Heq. by apply (Qclt_not_eq _ _ Ha). Qed.

(** With margins that are not zero the last page gets its raster. *)
Lemma final_raster_drawn p offset x0 y0 x1 y1 s :
  (0 < x0)%Qc → (0 < y0)%Qc →
  (0 ≤ width (total p))%Qc → (0 ≤ height (total p))%Qc →
  0 ≤ s.1.2 → 0 ≤ s.2 →
  final_raster_events p offset x0 y0 x1 y1 s
  = raster_lines (nx p) (ny p) x0 y0 x1 y1 offset (total p).
Proof.
  intros Hx0 Hy0 Hw Hh Htx Hty. unfold final_raster_events.
  assert (H0 : ∀ k, 0 ≤ k → (0 ≤ qz k)%Qc).
  { intros k Hk. apply qz_le in Hk. unfold qz in *.
    by rewrite Z2Qc_inj_0 in Hk. }
  rewrite decide_True; [done|]. split.
  - apply Qc_pos_ne_0. unfold cell_y.
    apply Qcplus_pos_nonneg; [done|]. apply Qcmult_nonneg_nonneg; auto.
  - apply Qc_pos_ne_0. unfold cell_x.
    apply Qcplus_pos_nonneg; [done|]. apply Qcmult_nonneg_nonneg; auto.
Qed.

Lemma lines_removes (l : list string) : lines (ev_remove <$> l) = [].
Proof. induction l; simpl; done. Qed.

Lemma lines_run fps pf p offset margins tmp ims out :
  let x0 := left margins in
  let y0 := top margins in
  let x1 := (x0 + qz (nx p) * width (total p))%Qc in
  let y1 := (y0 + qz (ny p) * height (total p))%Qc in
  lines (run_events fps pf p offset margins tmp ims out)
  = lines (loop_events p offset x0 y0 x1 y1 0 (0, -1, 0) ims)
    ++ final_raster_events p offset x0 y0 x1 y1
         (default (0, -1, 0) (last (run_cells p (length ims)))).
Proof.
  intros x0 y0 x1 y1. unfold run_events. fold x0 y0 x1 y1.
  rewrite !lines_app.
  rewrite (lines_of_lines _ (final_raster_lines _ _ _ _ _ _ _)).
  assert (H0 : lines ((λ name, ev_write_videofile name fps) <$> tmp) = []).
  { induction tmp as [|a l IH]; [done|exact IH]. }
  rewrite H0.
  change (lines (document_events pf)) with (@nil Event).
  change (lines (ev_output out :: (ev_remove <$>
            tmp ++ (cell_name <$> run_cells p (length ims)))))
    with (lines (ev_remove <$> tmp ++ (cell_name <$> run_cells p (length ims)))).
  rewrite lines_removes, app_nil_r. done.
Qed.

(** With at least one column and one row, margins that are not zero and
    cells of non-negative size, a run of [n] frames draws the raster once
    per page: after the last tile of each full page and once more for the
    last page. *)
Lemma raster_once_per_page fps pf p offset margins tmp ims out :
  1 ≤ nx p → 1 ≤ ny p →
  (0 < left margins)%Qc → (0 < top margins)%Qc →
  (0 ≤ width (total p))%Qc → (0 ≤ height (total p))%Qc →
  ims ≠ [] →
  let x0 := left margins in
  let y0 := top margins in
  let x1 := (x0 + qz (nx p) * width (total p))%Qc in
  let y1 := (y0 + qz (ny p) * height (total p))%Qc in
  let pages := S (Z.to_nat ((Z.of_nat (length ims) - 1) `div` (nx p * ny p))) in
  lines (run_events fps pf p offset margins tmp ims out)
  = mjoin (replicate pages
             (raster_lines (nx p) (ny p) x0 y0 x1 y1 offset (total p))).
Proof.
  intros Hx Hy Hl Ht Hw Hh Hne x0 y0 x1 y1 pages.
  rewrite lines_run, lines_loop. fold x0 y0 x1 y1. unfold run_cells.
  rewrite walk_cells by done.
  destruct ims as [|im ims]; [done|]. cbn [length].
  rewrite seq_S, fmap_app. cbn [fmap list_fmap]. rewrite last_snoc.
  cbn [default].
  assert (Hc : 0 ≤ Z.of_nat (0 + length ims)) by lia.
  rewrite final_raster_drawn; [|done..| |].
  - unfold pages. cbn [length cell fst snd].
    replace (Z.of_nat (S (length ims)) - 1) with (Z.of_nat (0 + length ims))
      by lia.
    rewrite Z.sub_0_r.
    set (k := Z.to_nat _). set (R := raster_lines _ _ _ _ _ _ _ _).
    change (S k) with (1 + k)%nat. rewrite Nat.add_comm.
    rewrite replicate_add, join_app. simpl. by rewrite app_nil_r.
  - simpl. apply Z.mod_pos_bound. lia.
  - simpl. apply Z.mod_pos_bound. lia.
Qed.

(** C4 fails on the program: the end-of-stream check tests the millimetre
    coordinates of the last tile against 0 instead of asking whether a tile
    was placed.  With a top margin of 0 the three frames of the first row are
    placed at y = 0, the check fails, and the page gets no raster at all. *)
Theorem C4_last_raster_skipped :
  let r := process (demo_env true) (clip_creator "a.mp4" (clip_16_9 10 3))
             "flip-book.pdf" 200 (qz 15) 10 (qz 30)
             (mkMargin 0%Qc (qz 10) (qz 10) (qz 10)) "a4" empty_world in
  (∃ self', r.1 = Return self')
  ∧ (placements (-1) (trace r.2)).*1.*1.*1 = [0; 0; 0]
  ∧ written (trace r.2) = ["flip-book.pdf"%string]
  ∧ lines (trace r.2) = [].
Proof.
  split; [eexists; vm_compute; reflexivity|].
  split; [vm_compute; reflexivity|].
  split; vm_compute; reflexivity.
Qed.

(** ** The scenarios in binary64 *)

(** The A4 scenario of C6 comes out the same in binary64 arithmetic: 4 by 6
    tiles, a frame 53.33 mm wide up to 0.01, and a pixel size of 419 by
    236. *)
Example a4_scenario_binary64 :
  ∃ p, Binary64.geometry (1920, 1080) (Binary64.Int 200) (Binary64.Float 15)
         (Binary64.Int 30) Binary64.default_margins "a4" empty_world
       = (Return p, empty_world)
  ∧ Binary64.nx p = 4 ∧ Binary64.ny p = 6 ∧ Binary64.frame p = (419, 236)
  ∧ Binary64.printable_area p = (Binary64.Int 277, Binary64.Int 190)
  ∧ ((53.32 <? (Binary64.frame_mm p).1) && ((Binary64.frame_mm p).1 <? 53.34))%float
    = true
  ∧ ((68.32 <? (Binary64.total p).1) && ((Binary64.total p).1 <? 68.34))%float
    = true.
Proof. eexists. split; [vm_compute; reflexivity|]. vm_compute. done. Qed.

(** So do the frame height of 200 mm used against C2 (no tile fits) and the
    coordinate test used against C4 (a tile in row 0 under a top margin of 0
    is at y = 0.0). *)
Example failing_inputs_binary64 :
  ∃ p, Binary64.geometry (1920, 1080) (Binary64.Int 200) (Binary64.Float 15)
         (Binary64.Int 200) Binary64.default_margins "a4" empty_world
       = (Return p, empty_world)
  ∧ Binary64.nx p = 0 ∧ Binary64.ny p = 0
  ∧ (0 + 0 * 30 =? 0)%float = true.
Proof. eexists. split; [vm_compute; reflexivity|]. vm_compute. done. Qed.

(** The layout block in binary64 on inputs where rounding, overflow and NaN
    show: a frame 158.75 mm high at 72 dpi is 799 pixels wide (the exact
    product is 800), a height of 43.5 mm gives two columns and one of
    63.333333333333336 mm three rows; a height that is NaN has no pixel size
    ([ValueError]), an infinite one overflows, and a height that underflows
    to a cell width of 0.0 divides by zero. *)
Example binary64_edge_inputs :
  let run h dpi off :=
    (Binary64.geometry (1920, 1080) (Binary64.Int dpi) (Binary64.Float off)
       (Binary64.Float h) Binary64.default_margins "a4" empty_world).1 in
  (∃ p, run 158.75%float 72 15%float = Return p ∧ Binary64.frame p = (799, 450))
  ∧ (∃ p, run 25.4%float 200 15%float = Return p ∧ Binary64.frame p = (355, 200))
  ∧ (∃ p, run 43.5%float 200 15%float = Return p ∧ Binary64.nx p = 2)
  ∧ (∃ p, run 63.333333333333336%float 200 15%float = Return p ∧ Binary64.ny p = 3)
  ∧ run nan 200 15%float = Raise ValueError
  ∧ run infinity 200 15%float = Raise OverflowError
  ∧ run 5e-324%float 200 0%float = Raise ZeroDivisionError
  ∧ run 0%float 200 15%float = Raise ZeroDivisionError.
Proof.
  cbv zeta. repeat split; try (eexists; split; vm_compute; reflexivity);
    vm_compute; reflexivity.
Qed.

(** ** Failures of the blocks *)

Lemma dict_get_Some {A} (d : list (string * A)) k :
  is_Some (dict_get d k) ↔ k ∈ d.*1.
Proof.
  induction d as [|[k' v] d IH]; simpl.
  - split; [by intros [? ?]|by intros ?%elem_of_nil].
  - rewrite elem_of_cons. destruct (decide (k' = k)) as [->|Hne].
    + split; [by left|by eexists].
    + rewrite IH. split; [by right|]. intros [->|?]; done.
Qed.

Lemma open_source_raise env self fps w e w1 :
  open_source env self fps w = (Raise e, w1) →
  e = OSError "tmp.mp4" ∧
  trace w1 = trace w ++ [ev_write_videofile "tmp.mp4" fps] ∧
  (files w1 = files w ∨ files w1 = {["tmp.mp4"%string]} ∪ files w) ∧
  ∃ clip, source self = clip_source clip ∧ qz fps ≠ clip_fps clip.
Proof.
  unfold open_source. destruct (source self) as [im pal l0|clip]; [done|].
  destruct (decide (qz fps ≠ clip_fps clip)) as [Hne|]; [|done].
  unfold bind, emit.
  destruct (write_videofile env clip fps) as [clip'|[]]; [done| |];
    unfold create_file, ret, raise; intros [= <- <-]; simpl; eauto 10.
Qed.

Lemma geometry_raise cs dpi off h m pf w e w' :
  geometry cs dpi off h m pf w = (Raise e, w') →
  w' = w ∧
  ((e = KeyError (lower pf) ∧ lower pf ∉ PAPER_CHOICES) ∨
   (e = ZeroDivisionError ∧ lower pf ∈ PAPER_CHOICES ∧
    (height cs = 0%Qc ∨ (off + h / height cs * width cs)%Qc = 0%Qc ∨ h = 0%Qc))).
Proof.
  unfold geometry, bind.
  destruct (dict_get PAPER_SIZES (lower pf)) as [paper|] eqn:Hp; simpl.
  2:{ intros [= <- <-]. split; [done|]. left. split; [done|].
      unfold PAPER_CHOICES. rewrite <- dict_get_Some, Hp. by intros [? ?]. }
  assert (Hin : lower pf ∈ PAPER_CHOICES)
    by (unfold PAPER_CHOICES; rewrite <- dict_get_Some, Hp; by eexists).
  unfold fdiv at 1. destruct (decide (height cs = 0%Qc)) as [Hc|Hc].
  { intros [= <- <-]. eauto 10. }
  unfold ret at 1. simpl.
  unfold fdiv at 1.
  destruct (decide ((off + h / height cs * width cs)%Qc = 0%Qc)) as [Hw|Hw].
  { intros [= <- <-]. eauto 10. }
  unfold ret at 1. simpl. unfold fdiv.
  destruct (decide (h = 0%Qc)) as [Hh|Hh].
  { intros [= <- <-]. eauto 10. }
  done.
Qed.

(** ** The ways a run ends *)

(** The ways in which a run of [process] ends. *)
Lemma process_cases env self out dpi offset fps h margins pf w :
  let r := process env self out dpi offset fps h margins pf w in
  let x0 := left margins in
  let y0 := top margins in
  (∃ w1, open_source env self fps w = (Raise (OSError "tmp.mp4"), w1) ∧
         r = (Raise (OSError "tmp.mp4"), w1)) ∨
  ∃ self1 tmp cs w1,
    open_source env self fps w = (Return (self1, tmp, cs), w1) ∧
    ((∃ e, geometry cs dpi offset h margins pf w1 = (Raise e, w1) ∧
           r = (Raise e, w1)) ∨
     ∃ p frames self2 last_im ims last',
       geometry cs dpi offset h margins pf w1 = (Return p, w1) ∧
       all_frames self1 = (frames, self2, last_im) ∧
       develop_all self2 (to_tuple (frame p)) last_im frames = Some (ims, last') ∧
       length ims = length frames ∧
       let x1 := (x0 + qz (nx p) * width (total p))%Qc in
       let y1 := (y0 + qz (ny p) * height (total p))%Qc in
       let doc := mkWorld (files w1) (trace w1 ++ document_events pf) in
       let cells := run_cells p (length ims) in
       ((frames = [] ∧ r = (Raise (UnboundLocalError "y"), doc)) ∨
        (frames ≠ [] ∧ frame_count self1 = 0 ∧
         r = (Raise ZeroDivisionError, doc)) ∨
        (frames ≠ [] ∧ frame_count self1 ≠ 0 ∧ sink_ok env = false ∧
         ∃ s, last cells = Some s ∧
           r = (Raise (OSError out),
                mkWorld (list_to_set (cell_name <$> cells) ∪ files w1)
                  (trace w1 ++ document_events pf
                   ++ loop_events p offset x0 y0 x1 y1 0 (0, -1, 0) ims
                   ++ final_raster_events p offset x0 y0 x1 y1 s))) ∨
        (frames ≠ [] ∧ frame_count self1 ≠ 0 ∧ sink_ok env = true ∧
         ∃ self',
           r = (Return self',
                mkWorld (({[out]} ∪ files w) ∖ list_to_set (tmp ++ (cell_name <$> cells)))
                  (trace w ++ run_events fps pf p offset margins tmp ims out))))).
Proof.
  intros r x0 y0. subst r.
  destruct (open_source env self fps w) as [[[[self1 tmp] cs]|e] w1] eqn:Hopen.
  2:{ left. destruct (open_source_raise _ _ _ _ _ _ Hopen) as (-> & _).
      exists w1. split; [done|]. unfold process. by erewrite bind_raise. }
  right. exists self1, tmp, cs, w1. split; [done|].
  destruct (geometry cs dpi offset h margins pf w1) as [[p|e] w1'] eqn:Hgeo.
  2:{ left. destruct (geometry_raise _ _ _ _ _ _ _ _ _ Hgeo) as [-> _].
      exists e. split; [done|]. unfold process.
      erewrite bind_run by exact Hopen. cbv beta iota.
      by erewrite bind_raise by exact Hgeo. }
  right. destruct (geometry_inv _ _ _ _ _ _ _ _ _ Hgeo) as [-> _].
  destruct (all_frames self1) as [[frames self2] last_im] eqn:Hall.
  destruct (process_unfold _ _ out dpi offset fps h margins pf _ _ _ _ _ _ _ _ _
              Hopen Hgeo Hall) as [k Hk].
  destruct (all_frames_develop _ (to_tuple (frame p)) _ _ _ Hall)
    as (ims & last' & Hdev & Hlen & Hfc).
  exists p, frames, self2, last_im, ims, last'.
  do 4 (split; [done|]). intros x1 y1 doc cells.
  destruct frames as [|f frames].
  { left. split; [done|]. rewrite Hk. cbn [frame_loop].
    erewrite bind_run by reflexivity.
    erewrite bind_raise; [reflexivity|]. by apply final_raster_unbound. }
  right. destruct (decide (frame_count self1 = 0)) as [Hz|Hnz].
  { left. do 2 (split; [done|]). rewrite Hk.
    erewrite bind_raise; [reflexivity|].
    apply frame_loop_zero_count. congruence. }
  right. destruct (sink_ok env) eqn:Hsink.
  - right. do 3 (split; [done|]).
    apply (process_returns _ _ out dpi offset fps h margins pf w _ _ _ _ _ _ _ _
             _ _ Hopen Hgeo Hall Hdev ltac:(done) Hnz Hsink).
  - left. do 3 (split; [done|]). subst cells. unfold run_cells. rewrite Hlen.
    destruct (last_walk (nx p) (ny p) (0, -1, 0) (length (f :: frames)))
      as [s Hs]; [done|].
    exists s. split; [exact Hs|]. rewrite Hk.
    erewrite bind_run by (apply frame_loop_run; [congruence|exact Hdev]).
    cbn [initial_locals l_page l_tx l_ty l_i].
    unfold locals_after. rewrite Hs.
    erewrite bind_run
      by (apply (final_raster_run _ _ _ _ _ _ _ _ s); reflexivity).
    erewrite bind_raise by (by apply finish_sink_fails).
    cbn [files trace]. by rewrite <- !app_assoc.
Qed.

(** ** Iterating an animated GIF *)

Lemma AnimatedGif_from_seek fuel im ix :
  (0 < ix)%nat → (n_frames im - ix ≤ fuel)%nat →
  AnimatedGif_from fuel im ix
  = (seq ix (n_frames im - ix),
     if decide (ix < n_frames im)%nat
     then mkGif (im_size im) (getpalette im) (n_frames im) (n_frames im - 1)
     else im).
Proof.
  revert im ix. induction fuel as [|fuel IH]; intros im ix Hix Hfuel.
  - simpl. replace (n_frames im - ix)%nat with 0%nat by lia.
    rewrite decide_False by lia. done.
  - cbn [AnimatedGif_from]. unfold getitem, seek.
    rewrite (decide_False (P := ix = 0%nat)) by lia.
    destruct (decide (ix < n_frames im)%nat) as [Hlt|Hge].
    + rewrite IH by (simpl; lia). cbn [n_frames im_size getpalette tell].
      replace (n_frames im - ix)%nat with (S (n_frames im - S ix)) by lia.
      simpl. f_equal. case_decide; [done|].
      f_equal. lia.
    + replace (n_frames im - ix)%nat with 0%nat by lia. done.
Qed.

Lemma AnimatedGif_from_0 fuel im :
  (n_frames im < fuel)%nat →
  AnimatedGif_from fuel im 0
  = (tell im :: seq 1 (n_frames im - 1),
     mkGif (im_size im) (getpalette im) (n_frames im)
           (if decide (2 ≤ n_frames im)%nat then (n_frames im - 1)%nat else tell im)).
Proof.
  intros Hfuel. destruct fuel as [|fuel]; [lia|].
  cbn [AnimatedGif_from]. unfold getitem. rewrite decide_True by done.
  rewrite AnimatedGif_from_seek by lia. f_equal.
  destruct im as [sz pal n t]. simpl.
  destruct (decide (1 < n)%nat), (decide (2 ≤ n)%nat); try lia; done.
Qed.

(** X1: a [for] loop over [AnimatedGif(im)] hands out the image object once
    per stored frame and at least once: first where the image stands (index
    0 is returned without seeking), then at the positions 1 to [n_frames-1];
    afterwards the image stands at the last frame.  The iteration ends by
    the failing seek, never by lack of fuel. *)
Theorem AnimatedGif_positions (im : GifFile) :
  AnimatedGif im
  = (tell im :: seq 1 (n_frames im - 1),
     mkGif (im_size im) (getpalette im) (n_frames im)
           (if decide (2 ≤ n_frames im)%nat then (n_frames im - 1)%nat else tell im))
  ∧ ∀ fuel, (n_frames im < fuel)%nat → AnimatedGif_from fuel im 0 = AnimatedGif im.
Proof.
  unfold AnimatedGif. split.
  - apply AnimatedGif_from_0. lia.
  - intros fuel Hfuel. rewrite !AnimatedGif_from_0 by lia. done.
Qed.

Lemma AnimatedGif_last g t :
  AnimatedGif (mkGif (im_size g) (getpalette g) (n_frames g) t)
  = (t :: seq 1 (n_frames g - 1),
     mkGif (im_size g) (getpalette g) (n_frames g)
           (if decide (2 ≤ n_frames g)%nat then (n_frames g - 1)%nat else t)).
Proof. unfold AnimatedGif. rewrite AnimatedGif_from_0 by (simpl; lia). done. Qed.

Lemma AnimatedGif_rewound g :
  AnimatedGif (mkGif (im_size g) (getpalette g) (n_frames g) 0)
  = (0%nat :: seq 1 (n_frames g - 1),
     mkGif (im_size g) (getpalette g) (n_frames g) (n_frames g - 1)).
Proof.
  rewrite AnimatedGif_last. repeat f_equal. case_decide; lia.
Qed.

Lemma AnimatedGif_at_end g :
  AnimatedGif (mkGif (im_size g) (getpalette g) (n_frames g) (n_frames g - 1))
  = ((n_frames g - 1)%nat :: seq 1 (n_frames g - 1),
     mkGif (im_size g) (getpalette g) (n_frames g) (n_frames g - 1)).
Proof.
  rewrite AnimatedGif_last. repeat f_equal. by case_decide.
Qed.

(** The creator [__init__] builds for an animated GIF. *)
Lemma init_gif env v name g w :
  endswith name ".gif" = true → media env name = Some (image_file g) →
  let order := (n_frames g - 1)%nat :: seq 1 (n_frames g - 1) in
  init env (Some v) name w
  = (Return (mkCreator v name
       (gif_source (mkGif (im_size g) (getpalette g) (n_frames g) (n_frames g - 1))
          (getpalette g)
          (composite_pass (getpalette g)
             (composite_pass (getpalette g) (Image_new "P" (im_size g)) order)
             order))
       0%Qc (Z.of_nat (S (n_frames g - 1)))), w).
Proof.
  intros Hgif Hmedia order. unfold init. rewrite Hgif.
  unfold Image_open. rewrite Hmedia. unfold bind at 2. unfold ret at 1.
  cbv beta iota. cbn [getpalette im_size].
  rewrite AnimatedGif_rewound. rewrite !AnimatedGif_at_end.
  cbn [getpalette im_size length]. rewrite length_seq. done.
Qed.

(** X2: for an animated GIF with [n] stored frames the creator counts [n]
    frames (one for a file without frames), its rate is 0 and nothing is
    written; but the three iterations of [__init__] leave the image object at
    its last frame, and since index 0 is handed out without seeking, the
    frames [process] iterates are those at the positions n-1, 1, 2, ..., n-1:
    the first picture of the flip-book is the last frame of the GIF and the
    stored frame 0 is never shown when there are two frames or more. *)
Theorem init_gif_frame_order env v name g w :
  endswith name ".gif" = true → media env name = Some (image_file g) →
  ∃ self, init env (Some v) name w = (Return self, w) ∧
    frame_count self = Z.of_nat (S (n_frames g - 1)) ∧
    self_fps self = 0%Qc ∧
    (all_frames self).1.1
    = GifImageFile <$> ((n_frames g - 1)%nat :: seq 1 (n_frames g - 1)) ∧
    ((2 ≤ n_frames g)%nat → GifImageFile 0 ∉ (all_frames self).1.1).
Proof.
  intros Hgif Hmedia. eexists. split; [by apply init_gif|].
  split; [done|]. split; [done|].
  unfold all_frames. cbn [source]. rewrite AnimatedGif_at_end. cbn [fst].
  split; [done|]. intros Hn Hin.
  apply list_elem_of_fmap in Hin as (pos & [= <-] & Hin).
  apply elem_of_cons in Hin as [Hin|Hin]; [lia|].
  apply elem_of_seq in Hin. lia.
Qed.

Lemma init_gif_frame_order_witness :
  endswith "c.gif" ".gif" = true ∧
  media (demo_env true) "c.gif" = Some (image_file gif_2) ∧
  ∃ self, init (demo_env true) (Some 0) "c.gif" empty_world
          = (Return self, empty_world) ∧
    frame_count self = Z.of_nat (S (n_frames gif_2 - 1)) ∧
    self_fps self = 0%Qc ∧
    (all_frames self).1.1
    = GifImageFile <$> ((n_frames gif_2 - 1)%nat :: seq 1 (n_frames gif_2 - 1)) ∧
    ((2 ≤ n_frames gif_2)%nat → GifImageFile 0 ∉ (all_frames self).1.1).
Proof.
  split; [reflexivity|]. split; [reflexivity|].
  apply (init_gif_frame_order (demo_env true) 0 "c.gif" gif_2 empty_world);
    reflexivity.
Defined.

(** ** The constructor and the command line *)

Lemma init_inv env v name w res w' :
  init env v name w = (res, w') →
  w' = w ∧
  match res with
  | Return self =>
      v = Some (verbosity self) ∧ input_file_name self = name ∧
      is_Some (media env name)
  | Raise e =>
      (e = OSError name) ∨ (e = TypeError ∧ v = None ∧ is_Some (media env name))
  end.
Proof.
  unfold init, Image_open, VideoFileClip_open.
  destruct (endswith name ".gif"), (media env name) as [[c|g]|];
    unfold bind, ret, raise; simpl;
    repeat match goal with
           | |- context [AnimatedGif ?x] => destruct (AnimatedGif x)
           end;
    destruct v; intros [= <- <-]; simpl; eauto 10.
Qed.

(** Neither the constructor nor [process] ever ends a run with an exit
    status. *)
Lemma process_never_exits env self out dpi offset fps h margins pf w c w' :
  process env self out dpi offset fps h margins pf w ≠ (Raise (SystemExit c), w').
Proof.
  intros Hrun.
  destruct (process_cases env self out dpi offset fps h margins pf w)
    as [(w1 & _ & Hr)|(self1 & tmp & cs & w1 & _ & [(e' & Hgeo & Hr)|Hr])];
    cbv zeta in *.
  - rewrite Hr in Hrun. done.
  - rewrite Hr in Hrun. injection Hrun as -> _.
    by destruct (geometry_raise _ _ _ _ _ _ _ _ _ Hgeo) as [_ [[? _]|[? _]]].
  - destruct Hr as (p & frames & self2 & last_im & ims & last' & _ & _ & _ & _ &
                    [[_ Hr]|[(_ & _ & Hr)|[(_ & _ & _ & s & _ & Hr)|(_ & _ & _ & s & Hr)]]]);
      rewrite Hr in Hrun; done.
Qed.

(** X3: exit statuses once the arguments are accepted.  For a command line
    that argparse has accepted (its option values converted and the paper
    among the catalog keys), [main] ends with an exit status exactly when
    [--phena] is given: the status is 1, and the input has not been opened
    nor anything written.  Neither the constructor nor [process] ever ends a
    run with an exit status; their failures are uncaught exceptions. *)
Theorem exit_status_after_parsing env argv w c w' :
  a_paper argv ∈ PAPER_CHOICES →
  main env argv w = (Raise (SystemExit c), w') ↔
  w' = w ∧ c = 1 ∧ a_phena argv = true.
Proof.
  intros Hin. unfold main, parse_args. rewrite decide_True by done.
  unfold bind at 1, ret at 1.
  destruct (a_phena argv) eqn:Hph.
  { unfold bind, raise. split.
    - by intros [= <- <-].
    - by intros (-> & -> & _). }
  unfold bind at 1, ret at 1. split.
  - intros Hrun. exfalso. unfold bind in Hrun.
    destruct (init env (a_v argv) (a_video argv) w) as [[self|e] w1] eqn:Hinit.
    + by apply process_never_exits in Hrun.
    + apply init_inv in Hinit as [_ Hk]. naive_solver.
  - by intros (_ & _ & ?).
Qed.

Lemma exit_status_after_parsing_witness :
  ("a4" : string) ∈ PAPER_CHOICES ∧
  (main (demo_env true)
     (mkArgs "a.mp4" "flip-book.pdf" (qz 30) "a4" (qz 15) true 200 10 (Some 1))
     empty_world = (Raise (SystemExit 1), empty_world) ↔
   empty_world = empty_world ∧ 1 = 1 ∧ true = true).
Proof.
  assert (Hin : ("a4" : string) ∈ PAPER_CHOICES)
    by (apply (bool_decide_unpack _); vm_compute; exact I).
  split; [exact Hin|].
  apply (exit_status_after_parsing (demo_env true)
           (mkArgs "a.mp4" "flip-book.pdf" (qz 30) "a4" (qz 15) true 200 10 (Some 1))
           empty_world 1 empty_world Hin).
Defined.

(** X4: a bare [-v] (argparse stores [None]) makes every run fail before
    anything is processed: nothing is re-encoded, saved or written.  The
    comparison [self.verbosity > 0] raises [TypeError] at the end of
    [__init__], after the input has been opened; the run fails earlier only
    with the exit statuses of the argument checks or because the input cannot
    be opened. *)
Theorem main_bare_v env argv w :
  a_v argv = None →
  ∃ e, main env argv w = (Raise e, w) ∧
    (e = SystemExit 2 ∧ a_paper argv ∉ PAPER_CHOICES ∨
     e = SystemExit 1 ∧ a_phena argv = true ∨
     e = OSError (a_video argv) ∨
     e = TypeError ∧ is_Some (media env (a_video argv))).
Proof.
  intros Hv. unfold main, parse_args.
  destruct (decide (a_paper argv ∈ PAPER_CHOICES)) as [Hin|Hnin].
  2:{ exists (SystemExit 2). split; [done|auto]. }
  unfold bind at 1, ret at 1.
  destruct (a_phena argv) eqn:Hph.
  { exists (SystemExit 1). split; [done|auto]. }
  unfold bind at 1, ret at 1. unfold bind.
  destruct (init env (a_v argv) (a_video argv) w) as [[self|e] w1] eqn:Hinit;
    apply init_inv in Hinit as [-> Hk].
  - destruct Hk as [Hk _]. congruence.
  - exists e. split; [done|]. naive_solver.
Qed.

Lemma main_bare_v_witness :
  a_v (mkArgs "a.mp4" "flip-book.pdf" (qz 30) "a4" (qz 15) false 200 10 None) = None ∧
  ∃ e, main (demo_env true)
         (mkArgs "a.mp4" "flip-book.pdf" (qz 30) "a4" (qz 15) false 200 10 None)
         empty_world = (Raise e, empty_world) ∧
    (e = SystemExit 2 ∧ ("a4" : string) ∉ PAPER_CHOICES ∨
     e = SystemExit 1 ∧ false = true ∨
     e = OSError "a.mp4" ∨
     e = TypeError ∧ is_Some (media (demo_env true) "a.mp4")).
Proof.
  split; [reflexivity|].
  apply (main_bare_v (demo_env true)
           (mkArgs "a.mp4" "flip-book.pdf" (qz 30) "a4" (qz 15) false 200 10 None)
           empty_world).
  reflexivity.
Defined.

(** ** Outcomes of a run *)

Lemma omap_none {B} (f : Event → option B) (P : Event → Prop) l :
  (∀ e, P e → f e = None) → Forall P l → omap f l = [].
Proof.
  intros Hf. induction 1 as [|e l He _ IH]; [done|].
  cbn [omap list_omap]. rewrite (Hf e He). exact IH.
Qed.

Lemma lines_are_drawing l : Forall is_line l → Forall is_drawing l.
Proof. intros H. eapply Forall_impl; [exact H|]. by intros []. Qed.

Lemma document_drawing pf : Forall is_drawing (document_events pf).
Proof. unfold document_events. repeat constructor. Qed.

Lemma loop_drawing p offset x0 y0 x1 y1 i s ims :
  Forall is_drawing (loop_events p offset x0 y0 x1 y1 i s ims).
Proof.
  revert i s. induction ims as [|im ims IH]; intros i s; [constructor|].
  cbn [loop_events]. apply Forall_app. split; [|apply IH].
  unfold step_events, tile_events. apply Forall_app. split.
  - case_decide; [|constructor]. apply Forall_app. split; [|by repeat constructor].
    apply lines_are_drawing, raster_lines_lines.
  - case_decide; repeat constructor.
Qed.

Lemma final_raster_drawing p offset x0 y0 x1 y1 s :
  Forall is_drawing (final_raster_events p offset x0 y0 x1 y1 s).
Proof. apply lines_are_drawing, final_raster_lines. Qed.

Lemma written_drawing l : Forall is_drawing l → written l = [].
Proof. apply omap_none. by intros []. Qed.

Lemma removed_drawing l : Forall is_drawing l → removed l = [].
Proof. apply omap_none. by intros []. Qed.

Lemma transcodes_drawing l : Forall is_drawing l → transcodes l = [].
Proof. apply omap_none. by intros []. Qed.

Lemma written_app a b : written (a ++ b) = written a ++ written b.
Proof. apply omap_app. Qed.

Lemma removed_app a b : removed (a ++ b) = removed a ++ removed b.
Proof. apply omap_app. Qed.

Lemma transcodes_app a b : transcodes (a ++ b) = transcodes a ++ transcodes b.
Proof. apply omap_app. Qed.

Lemma removed_removes (l : list string) : removed (ev_remove <$> l) = l.
Proof. induction l as [|a l IH]; [done|]. simpl. by f_equal. Qed.

Lemma written_removes (l : list string) : written (ev_remove <$> l) = [].
Proof. by induction l. Qed.

Lemma transcodes_removes (l : list string) : transcodes (ev_remove <$> l) = [].
Proof. by induction l. Qed.

(** The trace of the part of a run that follows the re-encoding, in a run
    that returns. *)
Lemma run_events_split fps pf p offset margins tmp ims out :
  ∃ body, Forall is_drawing body ∧
    run_events fps pf p offset margins tmp ims out
    = ((λ name, ev_write_videofile name fps) <$> tmp) ++ body
      ++ ev_output out :: (ev_remove <$> tmp ++ (cell_name <$> run_cells p (length ims))).
Proof.
  unfold run_events. eexists (_ ++ _ ++ _). split.
  - apply Forall_app. split; [apply document_drawing|].
    apply Forall_app. split; [apply loop_drawing|apply final_raster_drawing].
  - by rewrite <- !app_assoc.
Qed.

Lemma transcodes_writes fps (l : list string) :
  transcodes ((λ name, ev_write_videofile name fps) <$> l) = (., fps) <$> l.
Proof. induction l as [|a l IH]; [done|]. simpl. by f_equal. Qed.

Lemma written_writes fps (l : list string) :
  written ((λ name, ev_write_videofile name fps) <$> l) = [].
Proof. by induction l. Qed.

Lemma removed_writes fps (l : list string) :
  removed ((λ name, ev_write_videofile name fps) <$> l) = [].
Proof. by induction l. Qed.

(** X5: the document is written exactly when the run returns.  A run of
    [process] that returns has written the document exactly once and has
    removed exactly the files it created, in the order of their creation; a
    run that raises has written no document and has removed no file. *)
Theorem document_written_iff_returns env self out dpi offset fps h margins pf w :
  let r := process env self out dpi offset fps h margins pf w in
  ∃ evs, trace r.2 = trace w ++ evs ∧
    match r.1 with
    | Return _ => written evs = [out] ∧ removed evs = created evs
    | Raise _ => written evs = [] ∧ removed evs = []
    end.
Proof.
  intros r.
  destruct (process_cases env self out dpi offset fps h margins pf w)
    as [(w1 & Hopen & Hr)|(self1 & tmp & cs & w1 & Hopen & [(e' & Hgeo & Hr)|Hr])];
    cbv zeta in *; fold r in Hr.
  - apply open_source_raise in Hopen as (_ & Ht & _).
    rewrite Hr. cbn [fst snd].
    eexists. split; [exact Ht|]. done.
  - apply open_source_world in Hopen as (_ & Ht & _).
    rewrite Hr. cbn [fst snd].
    eexists. split; [exact Ht|].
    by rewrite written_writes, removed_writes.
  - destruct Hr as (p & frames & self2 & last_im & ims & last' & _ & _ & _ & _ & Hr).
    apply open_source_world in Hopen as (_ & Ht & _).
    destruct Hr as [[_ Hr]|[(_ & _ & Hr)|[(_ & _ & _ & s & _ & Hr)|(_ & _ & _ & s & Hr)]]];
      fold r in Hr; rewrite Hr; cbn [fst snd trace].
    + eexists. split; [by rewrite Ht, <- app_assoc|].
      by rewrite written_app, removed_app, written_writes, removed_writes.
    + eexists. split; [by rewrite Ht, <- app_assoc|].
      by rewrite written_app, removed_app, written_writes, removed_writes.
    + eexists. split; [by rewrite Ht, <- app_assoc|].
      rewrite !written_app, !removed_app, written_writes, removed_writes.
      rewrite (written_drawing (document_events pf)),
        (removed_drawing (document_events pf)) by apply document_drawing.
      rewrite (written_drawing (loop_events _ _ _ _ _ _ _ _ _)),
        (removed_drawing (loop_events _ _ _ _ _ _ _ _ _)) by apply loop_drawing.
      by rewrite written_drawing, removed_drawing by apply final_raster_drawing.
    + eexists. split; [reflexivity|].
      rewrite created_run.
      destruct (run_events_split fps pf p offset margins tmp ims out)
        as (body & Hbody & ->).
      rewrite !written_app, !removed_app, written_writes, removed_writes.
      rewrite written_drawing, removed_drawing by done.
      cbn [written removed omap list_omap app].
      fold (written (ev_remove <$> tmp ++ (cell_name <$> run_cells p (length ims)))).
      fold (removed (ev_remove <$> tmp ++ (cell_name <$> run_cells p (length ims)))).
      by rewrite written_removes, removed_removes.
Qed.

(** ** Temporary files and re-encoding *)

Lemma open_source_tmp_eq env self fps w self1 tmp cs w1 :
  open_source env self fps w = (Return (self1, tmp, cs), w1) →
  tmp = match source self with
        | clip_source clip =>
            if decide (qz fps ≠ clip_fps clip) then ["tmp.mp4"%string] else []
        | gif_source _ _ _ => []
        end.
Proof.
  unfold open_source. destruct (source self) as [im pal l0|clip].
  { by intros [= <- <- <- <-]. }
  destruct (decide (qz fps ≠ clip_fps clip)) as [Hne|]; [|by intros [= <- <- <- <-]].
  unfold bind, emit.
  destruct (write_videofile env clip fps) as [clip'|[]]; try done.
  unfold create_file, ret. by intros [= <- <- <- <-].
Qed.

Lemma run_names_NoDup tmp p n :
  tmp = [] ∨ tmp = ["tmp.mp4"%string] →
  NoDup (tmp ++ (cell_name <$> run_cells p n)).
Proof.
  intros Htmp. apply NoDup_app. split; [|split].
  - destruct Htmp as [-> | ->]; [constructor|]. apply NoDup_singleton.
  - intros name Hin Hin'. apply list_elem_of_fmap in Hin' as (s & -> & _).
    destruct Htmp as [-> | ->]; [by apply elem_of_nil in Hin|].
    apply list_elem_of_singleton in Hin. by apply temp_name_not_mp4 in Hin.
  - apply walk_names_NoDup. unfold cell_ok. simpl. lia.
Qed.

(** X6: no temporary file is written twice.  In every run of [process],
    whatever its outcome and whatever the tile counts (zero and negative
    counts included), the names of the files it creates, the re-encoded video
    and the tile images, are pairwise distinct: no tile image overwrites
    another before the document is written. *)
Theorem temp_files_distinct env self out dpi offset fps h margins pf w :
  let r := process env self out dpi offset fps h margins pf w in
  ∃ evs, trace r.2 = trace w ++ evs ∧ NoDup (created evs).
Proof.
  intros r.
  destruct (process_cases env self out dpi offset fps h margins pf w)
    as [(w1 & Hopen & Hr)|(self1 & tmp & cs & w1 & Hopen & [(e' & Hgeo & Hr)|Hr])];
    cbv zeta in *; fold r in Hr.
  - apply open_source_raise in Hopen as (_ & Ht & _). rewrite Hr. cbn [snd].
    eexists. split; [exact Ht|]. apply NoDup_singleton.
  - apply open_source_world in Hopen as (_ & Ht & Htmp). rewrite Hr. cbn [snd].
    eexists. split; [exact Ht|]. rewrite created_transcodes.
    destruct Htmp as [-> | ->]; [constructor|apply NoDup_singleton].
  - destruct Hr as (p & frames & self2 & last_im & ims & last' & _ & _ & _ & _ & Hr).
    apply open_source_world in Hopen as (_ & Ht & Htmp).
    assert (Hnil : NoDup (tmp ++ []))
      by (destruct Htmp as [-> | ->]; [constructor|apply NoDup_singleton]).
    destruct Hr as [[_ Hr]|[(_ & _ & Hr)|[(_ & _ & _ & s & _ & Hr)|(_ & _ & _ & s & Hr)]]];
      fold r in Hr; rewrite Hr; cbn [snd trace].
    + eexists. split; [by rewrite Ht, <- app_assoc|].
      by rewrite created_app, created_transcodes.
    + eexists. split; [by rewrite Ht, <- app_assoc|].
      by rewrite created_app, created_transcodes.
    + eexists. split; [by rewrite Ht, <- app_assoc|].
      rewrite !created_app, created_transcodes, created_loop.
      rewrite (created_lines (final_raster_events _ _ _ _ _ _ _))
        by apply final_raster_lines.
      cbn [created document_events omap list_omap app]. rewrite app_nil_r.
      by apply run_names_NoDup.
    + eexists. split; [reflexivity|]. rewrite created_run.
      by apply run_names_NoDup.
Qed.

(** X7: [process] re-encodes exactly when the source is a video whose
    native rate differs from the [fps] parameter, and then once, to the file
    [tmp.mp4] at the rate [fps]; an animated GIF is never re-encoded. *)
Theorem transcodes_iff env self out dpi offset fps h margins pf w :
  let r := process env self out dpi offset fps h margins pf w in
  ∃ evs, trace r.2 = trace w ++ evs ∧
    transcodes evs
    = match source self with
      | clip_source clip =>
          if decide (qz fps ≠ clip_fps clip) then [("tmp.mp4"%string, fps)] else []
      | gif_source _ _ _ => []
      end.
Proof.
  intros r.
  destruct (process_cases env self out dpi offset fps h margins pf w)
    as [(w1 & Hopen & Hr)|(self1 & tmp & cs & w1 & Hopen & Hr)];
    cbv zeta in *.
  { apply open_source_raise in Hopen as (_ & Ht & _ & clip & -> & Hne).
    fold r in Hr. rewrite Hr. cbn [snd].
    eexists. split; [exact Ht|]. by rewrite decide_True. }
  pose proof (open_source_tmp_eq _ _ _ _ _ _ _ _ Hopen) as Htmp.
  apply open_source_world in Hopen as (_ & Ht & _).
  assert (Hw : transcodes ((λ name, ev_write_videofile name fps) <$> tmp)
               = match source self with
                 | clip_source clip =>
                     if decide (qz fps ≠ clip_fps clip)
                     then [("tmp.mp4"%string, fps)] else []
                 | gif_source _ _ _ => []
                 end).
  { rewrite transcodes_writes, Htmp. destruct (source self); [done|].
    by case_decide. }
  destruct Hr as [(e' & Hgeo & Hr)|Hr]; fold r in Hr.
  { rewrite Hr. cbn [snd]. eexists. split; [exact Ht|]. exact Hw. }
  destruct Hr as (p & frames & self2 & last_im & ims & last' & _ & _ & _ & _ & Hr).
  destruct Hr as [[_ Hr]|[(_ & _ & Hr)|[(_ & _ & _ & s & _ & Hr)|(_ & _ & _ & s & Hr)]]];
    fold r in Hr; rewrite Hr; cbn [snd trace].
  - eexists. split; [by rewrite Ht, <- app_assoc|].
    by rewrite transcodes_app, Hw, app_nil_r.
  - eexists. split; [by rewrite Ht, <- app_assoc|].
    by rewrite transcodes_app, Hw, app_nil_r.
  - eexists. split; [by rewrite Ht, <- app_assoc|].
    rewrite !transcodes_app, Hw.
    rewrite (transcodes_drawing (loop_events _ _ _ _ _ _ _ _ _)) by apply loop_drawing.
    rewrite (transcodes_drawing (final_raster_events _ _ _ _ _ _ _))
      by apply final_raster_drawing.
    cbn [transcodes document_events omap list_omap app]. by rewrite app_nil_r.
  - eexists. split; [reflexivity|].
    destruct (run_events_split fps pf p offset margins tmp ims out)
      as (body & Hbody & ->).
    rewrite !transcodes_app, Hw, (transcodes_drawing body) by done.
    cbn [transcodes omap list_omap app].
    fold (transcodes (ev_remove <$> tmp ++ (cell_name <$> run_cells p (length ims)))).
    by rewrite transcodes_removes, app_nil_r.
Qed.

(** X8: the files on disk after a run of [process] that returns are the
    files that were there before, together with the output, less the files
    the run created: files of other names are left alone, but a file that was
    there under the name of a temporary file ([tmp.mp4], [tmp-0-0-0.png],
    ...) is gone, and so is the document itself when it is given such a
    name. *)
Theorem files_after_return env self out dpi offset fps h margins pf w self' w' :
  process env self out dpi offset fps h margins pf w = (Return self', w') →
  ∃ evs, trace w' = trace w ++ evs ∧
    files w' = ({[out]} ∪ files w) ∖ list_to_set (created evs).
Proof.
  intros Hrun.
  destruct (process_cases env self out dpi offset fps h margins pf w)
    as [(w1 & Hopen & Hr)|(self1 & tmp & cs & w1 & Hopen & [(e' & Hgeo & Hr)|Hr])];
    cbv zeta in *; try congruence.
  destruct Hr as (p & frames & self2 & last_im & ims & last' & _ & _ & _ & _ & Hr).
  destruct Hr as [[_ Hr]|[(_ & _ & Hr)|[(_ & _ & _ & s & _ & Hr)|(_ & _ & _ & s & Hr)]]];
    try congruence.
  rewrite Hr in Hrun. injection Hrun as _ <-. cbn [trace files].
  eexists. split; [reflexivity|]. by rewrite created_run.
Qed.

Lemma files_after_return_witness :
  ∃ self' w',
    process (demo_env true) (clip_creator "b.mp4" (clip_16_9 25 3))
      "flip-book.pdf" 200 (qz 15) 10 (qz 30) default_margins "a4"
      (mkWorld {["b.mp4"; "tmp-0-1-0.png"]}%string []) = (Return self', w') ∧
    ∃ evs, trace w' = trace (mkWorld {["b.mp4"; "tmp-0-1-0.png"]}%string []) ++ evs ∧
      files w' = ({["flip-book.pdf"%string]}
                  ∪ files (mkWorld {["b.mp4"; "tmp-0-1-0.png"]}%string []))
                 ∖ list_to_set (created evs).
Proof.
  eexists _, _. split; [vm_compute; reflexivity|].
  eapply (files_after_return (demo_env true)
            (clip_creator "b.mp4" (clip_16_9 25 3))
            "flip-book.pdf" 200 (qz 15) 10 (qz 30) default_margins "a4"
            (mkWorld {["b.mp4"; "tmp-0-1-0.png"]}%string [])).
  vm_compute. reflexivity.
Defined.

(** ** Plans with cells of positive size *)

(** A plan for a source of positive size, a positive frame height and a
    binding strip that is not negative has cells of positive size. *)
Lemma plan_positive cs dpi off h m pf w p w' :
  geometry cs dpi off h m pf w = (Return p, w') →
  (0 ≤ off)%Qc → (0 < h)%Qc → (0 < width cs)%Qc → (0 < height cs)%Qc →
  (0 < width (frame_mm p))%Qc ∧ (0 < height (frame_mm p))%Qc ∧
  width (total p) = (off + width (frame_mm p))%Qc ∧
  height (total p) = height (frame_mm p) ∧
  (0 < width (total p))%Qc ∧ (0 < height (total p))%Qc ∧
  nx p = int (width (printable_area p) / width (total p))%Qc ∧
  ny p = int (height (printable_area p) / height (total p))%Qc.
Proof.
  intros Hgeo Hoff Hh Hcw Hch.
  destruct (geometry_inv _ _ _ _ _ _ _ _ _ Hgeo)
    as (_ & paper & _ & _ & _ & _ & _ & Hfm & Htot & _ & Hnx & Hny).
  assert (Hfw : (0 < width (frame_mm p))%Qc).
  { rewrite Hfm. cbn [width]. apply Qcmult_pos_pos; [|done].
    unfold Qcdiv. apply Qcmult_pos_pos; [done|by apply Qcinv_pos]. }
  assert (Hfh : (0 < height (frame_mm p))%Qc) by (by rewrite Hfm).
  rewrite Htot. cbn [width height]. repeat split; try done.
  - by apply Qcplus_nonneg_pos.
  - by rewrite Hnx, Htot.
  - by rewrite Hny, Htot.
Qed.

(** ** The paper key *)

Lemma lower_upper_ascii c : lower_ascii (upper_ascii c) = lower_ascii c.
Proof. destruct c as [[] [] [] [] [] [] [] []]; reflexivity. Qed.

Lemma upper_lower_ascii c : upper_ascii (lower_ascii c) = upper_ascii c.
Proof. destruct c as [[] [] [] [] [] [] [] []]; reflexivity. Qed.

Lemma upper_lower s : upper (lower s) = upper s.
Proof.
  unfold upper, lower. induction s as [|c s IH]; [done|].
  cbn [str_map]. by rewrite upper_lower_ascii, IH.
Qed.

Lemma lower_upper s : lower (upper s) = lower s.
Proof.
  unfold upper, lower. induction s as [|c s IH]; [done|].
  cbn [str_map]. by rewrite lower_upper_ascii, IH.
Qed.

(** X12: [process] reads its paper key without regard to case: two keys
    that differ only in the case of their ASCII letters ([A4] and [a4])
    give the same run, call by call, since the catalog is consulted with the
    lower-cased key and the document is opened with the upper-cased one. *)
Theorem process_paper_case env self out dpi offset fps h margins pf pf' w :
  lower pf = lower pf' →
  process env self out dpi offset fps h margins pf w
  = process env self out dpi offset fps h margins pf' w.
Proof.
  intros Hl.
  assert (Hu : upper pf = upper pf') by (by rewrite <- upper_lower, Hl, upper_lower).
  unfold process, geometry, new_document. by rewrite Hl, Hu.
Qed.

Lemma process_paper_case_witness :
  lower "Letter" = lower "LETTER" ∧
  process (demo_env true) (clip_creator "a.mp4" (clip_16_9 10 3))
    "flip-book.pdf" 200 (qz 15) 10 (qz 30) default_margins "Letter" empty_world
  = process (demo_env true) (clip_creator "a.mp4" (clip_16_9 10 3))
      "flip-book.pdf" 200 (qz 15) 10 (qz 30) default_margins "LETTER" empty_world.
Proof.
  split; [reflexivity|].
  apply (process_paper_case (demo_env true) (clip_creator "a.mp4" (clip_16_9 10 3))
           "flip-book.pdf" 200 (qz 15) 10 (qz 30) default_margins
           "Letter" "LETTER" empty_world).
  reflexivity.
Defined.

(** ** Tiles on the page *)

Lemma process_return_inv env self out dpi offset fps h margins pf w self' w'
    self1 tmp cs w1 p :
  process env self out dpi offset fps h margins pf w = (Return self', w') →
  open_source env self fps w = (Return (self1, tmp, cs), w1) →
  geometry cs dpi offset h margins pf w1 = (Return p, w1) →
  ∃ frames self2 last_im ims last',
    all_frames self1 = (frames, self2, last_im) ∧
    develop_all self2 (to_tuple (frame p)) last_im frames = Some (ims, last') ∧
    length ims = length frames ∧ frames ≠ [] ∧ frame_count self1 ≠ 0 ∧
    sink_ok env = true ∧
    w' = mkWorld (({[out]} ∪ files w)
                  ∖ list_to_set (tmp ++ (cell_name <$> run_cells p (length ims))))
                 (trace w ++ run_events fps pf p offset margins tmp ims out).
Proof.
  intros Hrun Hopen Hgeo.
  destruct (process_cases env self out dpi offset fps h margins pf w)
    as [(w1' & Hopen' & Hr)|(self1' & tmp' & cs' & w1' & Hopen' & Hr)];
    cbv zeta in *; [congruence|].
  rewrite Hopen in Hopen'. injection Hopen' as <- <- <- <-.
  destruct Hr as [(e' & Hgeo' & Hr)|Hr]; [congruence|].
  destruct Hr as (p' & frames & self2 & last_im & ims & last' & Hgeo' & Hall & Hdev
                  & Hlen & Hr).
  rewrite Hgeo in Hgeo'. injection Hgeo' as <-.
  destruct Hr as [[_ Hr]|[(_ & _ & Hr)|[(_ & _ & _ & s & _ & Hr)|(? & ? & ? & s & Hr)]]];
    try congruence.
  rewrite Hr in Hrun. injection Hrun as _ <-.
  exists frames, self2, last_im, ims, last'. done.
Qed.

Lemma qz_nonneg k : 0 ≤ k → (0 ≤ qz k)%Qc.
Proof.
  intros Hk. apply qz_le in Hk. unfold qz in *. by rewrite Z2Qc_inj_0 in Hk.
Qed.

Lemma qz_succ k : (qz (k + 1) = qz k + 1)%Qc.
Proof. rewrite qz_add. unfold qz at 2. by rewrite Z2Qc_inj_1. Qed.

Lemma saved_tail l : Forall is_tail l → saved l = [].
Proof. apply omap_none. by intros []. Qed.

(** What the frame loop of a run leaves in the trace, whatever the outcome
    of the run. *)
Lemma process_loop_observed env self out dpi offset fps h margins pf w
    self1 tmp cs w1 p frames self2 last_im ims last' :
  open_source env self fps w = (Return (self1, tmp, cs), w1) →
  geometry cs dpi offset h margins pf w1 = (Return p, w1) →
  all_frames self1 = (frames, self2, last_im) →
  develop_all self2 (to_tuple (frame p)) last_im frames = Some (ims, last') →
  frame_count self1 ≠ 0 →
  ∃ res w' evs,
    process env self out dpi offset fps h margins pf w = (res, w') ∧
    trace w' = trace w ++ evs ∧
    placements (-1) evs
    = placement p offset (left margins) (top margins) <$> run_cells p (length ims) ∧
    saved evs = zip (cell_name <$> run_cells p (length ims)) ims.
Proof.
  intros Hopen Hgeo Hall Hdev Hfc.
  destruct (process_trace _ _ out dpi offset fps h margins pf w _ _ _ _ _ _ _ _
              _ _ Hopen Hgeo Hall Hdev Hfc) as (res & w' & tail & Hrun & Ht & Htail).
  destruct (open_source_world _ _ _ _ _ _ _ _ Hopen) as (_ & _ & Htmp).
  exists res, w'. eexists. split; [exact Hrun|]. split; [exact Ht|]. split.
  - rewrite placements_app.
    assert (H0 : placements (-1) ((λ name, ev_write_videofile name fps) <$> tmp) = []
                 ∧ opened ((λ name, ev_write_videofile name fps) <$> tmp) = 0)
      by (destruct Htmp as [-> | ->]; done).
    destruct H0 as [-> ->]. cbn [app document_events placements].
    change (-1 + 0 + 1) with 0.
    rewrite placements_app, placements_loop by done.
    by rewrite (placements_tail _ tail), app_nil_r by done.
  - rewrite !saved_app, saved_loop, (saved_tail tail), app_nil_r by done.
    assert (H0 : saved ((λ name, ev_write_videofile name fps) <$> tmp) = [])
      by (destruct Htmp as [-> | ->]; done).
    by rewrite H0.
Qed.

Lemma qz_scale_le (a b : Z) (c : Qc) :
  a < b → (0 ≤ c)%Qc → (qz a * c + c ≤ qz b * c)%Qc.
Proof.
  intros Hab Hc.
  replace (qz a * c + c)%Qc with (qz (a + 1) * c)%Qc by (rewrite qz_succ; ring).
  apply Qcmult_le_compat_r; [|done]. apply (proj1 (qz_le _ _)). lia.
Qed.

(** X15: every frame gets a file of its own.  In a run that reaches the
    frame loop with a frame count that is not zero, one image is saved and
    one picture is placed per frame of the source, the picture placed for the
    k-th frame is the file saved for it, and no two frames share a file
    name; this holds on every grid and whether or not the run later
    fails. *)
Theorem one_file_per_frame env self out dpi offset fps h margins pf w
    self1 tmp cs w1 p frames self2 last_im :
  open_source env self fps w = (Return (self1, tmp, cs), w1) →
  geometry cs dpi offset h margins pf w1 = (Return p, w1) →
  all_frames self1 = (frames, self2, last_im) →
  frame_count self1 ≠ 0 →
  ∃ res w' evs,
    process env self out dpi offset fps h margins pf w = (res, w') ∧
    trace w' = trace w ++ evs ∧
    length (saved evs) = length frames ∧
    (λ pl, pl.1.1.2) <$> placements (-1) evs = (saved evs).*1 ∧
    NoDup (saved evs).*1.
Proof.
  intros Hopen Hgeo Hall Hfc.
  destruct (all_frames_develop _ (to_tuple (frame p)) _ _ _ Hall)
    as (ims & last' & Hdev & Hlen & _).
  destruct (process_loop_observed _ _ out dpi offset fps h margins pf w _ _ _ _ _ _
              _ _ _ _ Hopen Hgeo Hall Hdev Hfc)
    as (res & w' & evs & Hrun & Ht & Hpl & Hsv).
  exists res, w', evs. split; [exact Hrun|]. split; [exact Ht|].
  assert (Hnames : (saved evs).*1 = cell_name <$> run_cells p (length ims)).
  { rewrite Hsv. apply fst_zip. rewrite length_fmap. unfold run_cells.
    by rewrite walk_length. }
  split; [|split].
  - rewrite <- (length_fmap fst), Hnames, length_fmap. unfold run_cells.
    by rewrite walk_length.
  - rewrite Hnames, Hpl, <- list_fmap_compose. done.
  - rewrite Hnames. apply walk_names_NoDup. unfold cell_ok. simpl. lia.
Qed.

Lemma one_file_per_frame_witness :
  ∃ res w' evs,
    process (demo_env true) (clip_creator "b.mp4" (clip_16_9 25 3))
      "flip-book.pdf" 200 (qz 15) 10 (qz 30) default_margins "a4" empty_world
    = (res, w') ∧
    trace w' = trace empty_world ++ evs ∧
    length (saved evs) = length (ndarray <$> seq 0 3) ∧
    (λ pl, pl.1.1.2) <$> placements (-1) evs = (saved evs).*1 ∧
    NoDup (saved evs).*1.
Proof.
  eapply (one_file_per_frame (demo_env true)
            (clip_creator "b.mp4" (clip_16_9 25 3))
            "flip-book.pdf" 200 (qz 15) 10 (qz 30) default_margins "a4"
            empty_world).
  - vm_compute. reflexivity.
  - vm_compute. reflexivity.
  - vm_compute. reflexivity.
  - vm_compute. discriminate.
Defined.

(** ** Pages *)

Lemma opened_app a b : opened (a ++ b) = opened a + opened b.
Proof. unfold opened. rewrite omap_app, length_app. lia. Qed.

Lemma opened_lines l : Forall is_line l → opened l = 0.
Proof.
  intros Hl. unfold opened. rewrite (omap_none _ is_line l); [done| |done].
  by intros [].
Qed.

Lemma opened_tail l : Forall is_tail l → opened l = 0.
Proof.
  intros Hl. unfold opened. rewrite (omap_none _ is_tail l); [done| |done].
  by intros [].
Qed.

Lemma opened_step p offset x0 y0 x1 y1 i s im :
  opened (step_events p offset x0 y0 x1 y1 i s im)
  = if decide (breaks (nx p) (ny p) s) then 1 else 0.
Proof.
  unfold step_events. rewrite opened_app.
  assert (Ht : opened (tile_events p offset x0 y0 i (advance (nx p) (ny p) s) im) = 0).
  { unfold tile_events. destruct (decide (0 < offset)%Qc); reflexivity. }
  rewrite Ht, Z.add_0_r. case_decide; [|done].
  rewrite opened_app, opened_lines by apply raster_lines_lines. done.
Qed.

Lemma last_walk_cons nx ny s n :
  default s (last (walk nx ny s (S n)))
  = default (advance nx ny s) (last (walk nx ny (advance nx ny s) n)).
Proof.
  cbn [walk]. set (s1 := advance nx ny s).
  destruct (walk nx ny s1 n) as [|c l] eqn:E; [done|].
  cbn [last]. destruct (last (c :: l)) eqn:El; [done|].
  by apply last_None in El.
Qed.

(** The loop opens a page whenever the page counter goes up. *)
Lemma opened_loop p offset x0 y0 x1 y1 i s ims :
  opened (loop_events p offset x0 y0 x1 y1 i s ims)
  = (default s (last (walk (nx p) (ny p) s (length ims)))).1.1 - s.1.1.
Proof.
  revert i s. induction ims as [|im ims IH]; intros i s.
  - simpl. by rewrite Z.sub_diag.
  - cbn [loop_events length]. rewrite opened_app, opened_step, IH, last_walk_cons.
    pose proof (advance_page (nx p) (ny p) s) as Hp.
    destruct (decide (breaks (nx p) (ny p) s)); lia.
Qed.

Lemma last_run_cell p n :
  1 ≤ nx p → 1 ≤ ny p →
  last (run_cells p (S n)) = Some (cell (nx p) (ny p) (Z.of_nat n)).
Proof.
  intros Hx Hy. unfold run_cells. rewrite walk_cells by done.
  rewrite seq_S, fmap_app. cbn [fmap list_fmap]. by rewrite last_snoc.
Qed.

(** X16: the number of pages.  On a grid of at least one column and one
    row, a run that reaches the frame loop with [n >= 1] frames opens
    [(n - 1) div (nx * ny) + 1] pages, the first one included, whether it
    returns or fails after the loop: a page is opened only when a frame is
    about to be placed on it, so a source that fills its last page exactly
    leaves no empty page behind. *)
Theorem page_count env self out dpi offset fps h margins pf w
    self1 tmp cs w1 p frames self2 last_im :
  open_source env self fps w = (Return (self1, tmp, cs), w1) →
  geometry cs dpi offset h margins pf w1 = (Return p, w1) →
  all_frames self1 = (frames, self2, last_im) →
  1 ≤ nx p → 1 ≤ ny p → frames ≠ [] → frame_count self1 ≠ 0 →
  ∃ res w' evs,
    process env self out dpi offset fps h margins pf w = (res, w') ∧
    trace w' = trace w ++ evs ∧
    opened evs = (Z.of_nat (length frames) - 1) `div` (nx p * ny p) + 1.
Proof.
  intros Hopen Hgeo Hall Hx Hy Hne Hfc.
  destruct (all_frames_develop _ (to_tuple (frame p)) _ _ _ Hall)
    as (ims & last' & Hdev & Hlen & _).
  destruct (process_trace _ _ out dpi offset fps h margins pf w _ _ _ _ _ _ _ _
              _ _ Hopen Hgeo Hall Hdev Hfc) as (res & w' & tail & Hrun & Ht & Htail).
  destruct (open_source_world _ _ _ _ _ _ _ _ Hopen) as (_ & _ & Htmp).
  exists res, w'. eexists. split; [exact Hrun|]. split; [exact Ht|].
  rewrite !opened_app, opened_loop, (opened_tail tail) by done.
  assert (H0 : opened ((λ name, ev_write_videofile name fps) <$> tmp) = 0)
    by (destruct Htmp as [-> | ->]; done).
  rewrite H0. change (opened (document_events pf)) with 1.
  destruct frames as [|f frames]; [done|].
  rewrite Hlen. cbn [length].
  pose proof (last_run_cell p (length frames) Hx Hy) as Hl. unfold run_cells in Hl.
  rewrite Hl. cbn [default cell fst snd].
  replace (Z.of_nat (S (length frames)) - 1) with (Z.of_nat (length frames)) by lia.
  unfold cell, id. cbn [fst snd]. lia.
Qed.

Lemma page_count_witness :
  ∃ res w' evs,
    process (demo_env true) (clip_creator "long.mp4" (clip_16_9 10 48))
      "flip-book.pdf" 200 (qz 15) 10 (qz 30) default_margins "a4" empty_world
    = (res, w') ∧
    trace w' = trace empty_world ++ evs ∧
    opened evs
    = (Z.of_nat (length (ndarray <$> seq 0 48)) - 1)
        `div` (nx plan_a4_30 * ny plan_a4_30) + 1.
Proof.
  refine (page_count (demo_env true)
            (clip_creator "long.mp4" (clip_16_9 10 48))
            "flip-book.pdf" 200 (qz 15) 10 (qz 30) default_margins "a4"
            empty_world _ _ _ _ plan_a4_30 (ndarray <$> seq 0 48) _ _ _ _ _ _ _ _ _).
  - vm_compute. reflexivity.
  - apply (bool_decide_unpack _). vm_compute. exact I.
  - vm_compute. reflexivity.
  - simpl. lia.
  - simpl. lia.
  - discriminate.
  - vm_compute. discriminate.
Defined.

Lemma opened_removes (l : list string) : opened (ev_remove <$> l) = 0.
Proof.
  unfold opened. rewrite (omap_none _ is_tail); [done|by intros []|].
  apply Forall_fmap, Forall_forall. by intros ??.
Qed.

Lemma opened_run fps pf p offset margins tmp ims out :
  tmp = [] ∨ tmp = ["tmp.mp4"%string] →
  opened (run_events fps pf p offset margins tmp ims out)
  = 1 + (default (0, -1, 0) (last (run_cells p (length ims)))).1.1.
Proof.
  intros Htmp. unfold run_events. rewrite !opened_app, opened_loop.
  rewrite (opened_lines _ (final_raster_lines _ _ _ _ _ _ _)).
  assert (H0 : opened ((λ name, ev_write_videofile name fps) <$> tmp) = 0)
    by (destruct Htmp as [-> | ->]; done).
  rewrite H0. change (opened (document_events pf)) with 1.
  change (opened (ev_output out :: (ev_remove <$>
            tmp ++ (cell_name <$> run_cells p (length ims)))))
    with (opened (ev_remove <$> tmp ++ (cell_name <$> run_cells p (length ims)))).
  rewrite opened_removes. unfold run_cells. cbn [fst]. lia.
Qed.

(** X17: one raster per page.  In a run that returns, on a grid of at least
    one column and one row, with left and top margins above zero, a source
    of positive size, a positive frame height and a binding strip that is
    not negative, the lines drawn are the same raster repeated once for every
    page opened, and nothing else. *)
Theorem raster_on_every_page env self out dpi offset fps h margins pf w
    self1 tmp cs w1 p self' w' :
  process env self out dpi offset fps h margins pf w = (Return self', w') →
  open_source env self fps w = (Return (self1, tmp, cs), w1) →
  geometry cs dpi offset h margins pf w1 = (Return p, w1) →
  1 ≤ nx p → 1 ≤ ny p →
  (0 < left margins)%Qc → (0 < top margins)%Qc →
  (0 ≤ offset)%Qc → (0 < h)%Qc → (0 < width cs)%Qc → (0 < height cs)%Qc →
  let x0 := left margins in
  let y0 := top margins in
  let x1 := (x0 + qz (nx p) * width (total p))%Qc in
  let y1 := (y0 + qz (ny p) * height (total p))%Qc in
  ∃ evs, trace w' = trace w ++ evs ∧
    lines evs
    = mjoin (replicate (Z.to_nat (opened evs))
               (raster_lines (nx p) (ny p) x0 y0 x1 y1 offset (total p))).
Proof.
  intros Hrun Hopen Hgeo Hx Hy Hl Ht Hoff Hh Hcw Hch x0 y0 x1 y1.
  destruct (process_return_inv _ _ _ _ _ _ _ _ _ _ _ _ _ _ _ _ _ Hrun Hopen Hgeo)
    as (frames & self2 & last_im & ims & last' & Hall & Hdev & Hlen & Hne & Hfc
        & Hsink & ->).
  destruct (open_source_world _ _ _ _ _ _ _ _ Hopen) as (_ & _ & Htmp).
  destruct (plan_positive _ _ _ _ _ _ _ _ _ Hgeo Hoff Hh Hcw Hch)
    as (_ & _ & _ & _ & HWpos & HHpos & _).
  assert (Hims : ims ≠ []) by (by destruct ims, frames).
  eexists. split; [reflexivity|].
  rewrite (raster_once_per_page fps pf p offset margins tmp ims out Hx Hy Hl Ht
             (Qclt_le_weak _ _ HWpos) (Qclt_le_weak _ _ HHpos) Hims).
  rewrite opened_run by done.
  destruct ims as [|im ims]; [done|]. cbn [length].
  rewrite last_run_cell by done. cbn [default from_option]. unfold cell, id.
  cbn [fst snd].
  replace (Z.of_nat (S (length ims)) - 1) with (Z.of_nat (length ims)) by lia.
  repeat f_equal.
  assert (0 ≤ Z.of_nat (length ims) `div` (nx p * ny p))
    by (apply Z.div_pos; lia).
  lia.
Qed.

Lemma raster_on_every_page_witness :
  ∃ self' w',
    process (demo_env true) (clip_creator "long.mp4" (clip_16_9 10 50))
      "flip-book.pdf" 200 (qz 15) 10 (qz 30) default_margins "a4" empty_world
    = (Return self', w') ∧
    ∃ evs, trace w' = trace empty_world ++ evs ∧
      lines evs
      = mjoin (replicate (Z.to_nat (opened evs))
                 (raster_lines (nx plan_a4_30) (ny plan_a4_30)
                    (left default_margins) (top default_margins)
                    (left default_margins
                     + qz (nx plan_a4_30) * width (total plan_a4_30))%Qc
                    (top default_margins
                     + qz (ny plan_a4_30) * height (total plan_a4_30))%Qc
                    (qz 15) (total plan_a4_30))).
Proof.
  eexists _, _. split; [vm_compute; reflexivity|].
  refine (raster_on_every_page (demo_env true)
            (clip_creator "long.mp4" (clip_16_9 10 50))
            "flip-book.pdf" 200 (qz 15) 10 (qz 30) default_margins "a4"
            empty_world _ _ _ _ plan_a4_30 _ _ _ _ _ _ _ _ _ _ _ _ _).
  - vm_compute. reflexivity.
  - vm_compute. reflexivity.
  - apply (bool_decide_unpack _). vm_compute. exact I.
  - simpl. lia.
  - simpl. lia.
  - qc_closed.
  - qc_closed.
  - qc_closed.
  - qc_closed.
  - qc_closed.
  - qc_closed.
Defined.

(** ** Frames of a video *)

(** X18: every frame of a video is saved as a thumbnail of the planned
    pixel size.  In a run on a video that reaches the frame loop with a frame
    count that is not zero, the saved images are, in the order of the frames
    the clip yields, [Image.fromarray] of the frame cut down by [thumbnail]
    to the pixel size of the plan; the frame count read from the clip plays
    no part in which frames are saved.  This holds whether or not the run
    later fails. *)
Theorem video_frames_thumbnailed env self out dpi offset fps h margins pf w
    self1 tmp cs w1 p clip :
  open_source env self fps w = (Return (self1, tmp, cs), w1) →
  geometry cs dpi offset h margins pf w1 = (Return p, w1) →
  source self1 = clip_source clip →
  frame_count self1 ≠ 0 →
  ∃ res w' evs,
    process env self out dpi offset fps h margins pf w = (res, w') ∧
    trace w' = trace w ++ evs ∧
    (saved evs).*2
    = (λ a, thumbnail (to_tuple (frame p)) (fromarray a)) <$> iter_frames clip ∧
    Forall (λ ni, resized_to (to_tuple (frame p)) ni.2 = true) (saved evs).
Proof.
  intros Hopen Hgeo Hsrc Hfc.
  assert (Hall : all_frames self1 = (ndarray <$> iter_frames clip, self1, None))
    by (unfold all_frames; by rewrite Hsrc).
  pose proof (develop_all_clip self1 (to_tuple (frame p)) None (iter_frames clip))
    as Hdev.
  destruct (process_loop_observed _ _ out dpi offset fps h margins pf w _ _ _ _ _ _
              _ _ _ _ Hopen Hgeo Hall Hdev Hfc)
    as (res & w' & evs & Hrun & Ht & _ & Hsv).
  exists res, w', evs. split; [exact Hrun|]. split; [exact Ht|].
  assert (Himg : (saved evs).*2
            = (λ a, thumbnail (to_tuple (frame p)) (fromarray a)) <$> iter_frames clip).
  { rewrite Hsv. apply snd_zip. unfold run_cells.
    by rewrite (length_fmap cell_name), walk_length. }
  split; [exact Himg|].
  apply Forall_forall. intros [name im] Hin.
  assert (Him : im ∈ (saved evs).*2)
    by (apply list_elem_of_fmap; by exists (name, im)).
  rewrite Himg in Him. apply list_elem_of_fmap in Him as (a & -> & _).
  cbn [snd resized_to]. by apply bool_decide_eq_true.
Qed.

Lemma video_frames_thumbnailed_witness :
  ∃ res w' evs,
    process (demo_env true) (clip_creator "b.mp4" (clip_16_9 25 3))
      "flip-book.pdf" 200 (qz 15) 10 (qz 30) default_margins "a4" empty_world
    = (res, w') ∧
    trace w' = trace empty_world ++ evs ∧
    (saved evs).*2
    = (λ a, thumbnail (to_tuple (frame plan_a4_30)) (fromarray a))
      <$> iter_frames (mkClip (qz 10) (clip_duration (clip_16_9 25 3))
                         (1920, 1080) (seq 0 3)) ∧
    Forall (λ ni, resized_to (to_tuple (frame plan_a4_30)) ni.2 = true) (saved evs).
Proof.
  refine (video_frames_thumbnailed (demo_env true)
            (clip_creator "b.mp4" (clip_16_9 25 3))
            "flip-book.pdf" 200 (qz 15) 10 (qz 30) default_margins "a4"
            empty_world _ _ _ _ plan_a4_30
            (mkClip (qz 10) (clip_duration (clip_16_9 25 3)) (1920, 1080) (seq 0 3))
            _ _ _ _).
  - vm_compute. reflexivity.
  - apply (bool_decide_unpack _). vm_compute. exact I.
  - vm_compute. reflexivity.
  - vm_compute. discriminate.
Defined.

(** X19: a source with frames but a frame count of zero (a clip shorter
    than one frame period: [int(duration * fps)] is 0) makes [process] fail
    on its first frame with [ZeroDivisionError], in the progress computation:
    the document has been set up, but no image is saved, nothing is placed,
    no document is written and a re-encoded video stays on disk. *)
Theorem zero_frame_count_fails env self out dpi offset fps h margins pf w
    self1 tmp cs w1 p frames self2 last_im :
  open_source env self fps w = (Return (self1, tmp, cs), w1) →
  geometry cs dpi offset h margins pf w1 = (Return p, w1) →
  all_frames self1 = (frames, self2, last_im) →
  frames ≠ [] → frame_count self1 = 0 →
  process env self out dpi offset fps h margins pf w
  = (Raise ZeroDivisionError,
     mkWorld (list_to_set tmp ∪ files w)
       (trace w ++ ((λ name, ev_write_videofile name fps) <$> tmp)
        ++ document_events pf)).
Proof.
  intros Hopen Hgeo Hall Hne Hz.
  destruct (process_unfold _ _ out dpi offset fps h margins pf _ _ _ _ _ _ _ _ _
              Hopen Hgeo Hall) as [k Hk].
  destruct (all_frames_develop _ (to_tuple (frame p)) _ _ _ Hall)
    as (_ & _ & _ & _ & Hfc).
  destruct (open_source_world _ _ _ _ _ _ _ _ Hopen) as (Hf & Ht & _).
  destruct frames as [|f frames]; [done|].
  rewrite Hk. erewrite bind_raise;
    [|apply frame_loop_zero_count; congruence].
  by rewrite Hf, Ht, <- app_assoc.
Qed.

Lemma zero_frame_count_fails_witness :
  process (demo_env true)
    (clip_creator "short.mp4" (mkClip (qz 25) (Q2Qc (1 # 50)) (1920, 1080) [0%nat]))
    "flip-book.pdf" 200 (qz 15) 10 (qz 30) default_margins "a4" empty_world
  = (Raise ZeroDivisionError,
     mkWorld (list_to_set ["tmp.mp4"%string] ∪ files empty_world)
       (trace empty_world
        ++ ((λ name, ev_write_videofile name 10) <$> ["tmp.mp4"%string])
        ++ document_events "a4")).
Proof.
  eapply (zero_frame_count_fails (demo_env true)
            (clip_creator "short.mp4"
               (mkClip (qz 25) (Q2Qc (1 # 50)) (1920, 1080) [0%nat]))
            "flip-book.pdf" 200 (qz 15) 10 (qz 30) default_margins "a4"
            empty_world).
  - vm_compute. reflexivity.
  - vm_compute. reflexivity.
  - vm_compute. reflexivity.
  - discriminate.
  - vm_compute. reflexivity.
Defined.

(** ** Runs that return *)

(** X20: what a run that returns has met.  [process] returns only if the
    re-encoding (if any) succeeded, the source yielded at least one frame,
    the frame count was not zero and the document could be written. *)
Theorem process_returns_only_if env self out dpi offset fps h margins pf w
    self' w' :
  process env self out dpi offset fps h margins pf w = (Return self', w') →
  ∃ self1 tmp cs w1,
    open_source env self fps w = (Return (self1, tmp, cs), w1) ∧
    (all_frames self1).1.1 ≠ [] ∧ frame_count self1 ≠ 0 ∧ sink_ok env = true.
Proof.
  intros Hrun.
  destruct (process_cases env self out dpi offset fps h margins pf w)
    as [(w1 & _ & Hr)|(self1 & tmp & cs & w1 & Hopen & [(e' & _ & Hr)|Hr])];
    cbv zeta in *; try congruence.
  destruct Hr as (p & frames & self2 & last_im & ims & last' & Hgeo & Hall & _ & _
                  & Hr).
  exists self1, tmp, cs, w1. rewrite Hall. cbn [fst].
  destruct Hr as [[_ Hr]|[(_ & _ & Hr)|[(_ & _ & _ & s & _ & Hr)|(? & ? & ? & _)]]];
    try congruence.
  done.
Qed.

Lemma process_returns_only_if_witness :
  ∃ self' w',
    process (demo_env true) (clip_creator "b.mp4" (clip_16_9 25 3))
      "flip-book.pdf" 200 (qz 15) 10 (qz 30) default_margins "a4" empty_world
    = (Return self', w') ∧
    ∃ self1 tmp cs w1,
      open_source (demo_env true) (clip_creator "b.mp4" (clip_16_9 25 3)) 10
        empty_world = (Return (self1, tmp, cs), w1) ∧
      (all_frames self1).1.1 ≠ [] ∧ frame_count self1 ≠ 0 ∧
      sink_ok (demo_env true) = true.
Proof.
  eexists _, _. split; [vm_compute; reflexivity|].
  eapply (process_returns_only_if (demo_env true)
            (clip_creator "b.mp4" (clip_16_9 25 3))
            "flip-book.pdf" 200 (qz 15) 10 (qz 30) default_margins "a4"
            empty_world).
  vm_compute. reflexivity.
Defined.

(** ** The input file *)

(** X21: when the input file cannot be found, a run with valid arguments
    fails with [OSError] for that file in the constructor, whatever the
    extension of the name and the verbosity, and nothing is written. *)
Theorem main_missing_input env argv w :
  a_paper argv ∈ PAPER_CHOICES → a_phena argv = false →
  media env (a_video argv) = None →
  main env argv w = (Raise (OSError (a_video argv)), w).
Proof.
  intros Hin Hph Hm. unfold main, parse_args. rewrite decide_True by done.
  unfold bind at 1, ret at 1. rewrite Hph. unfold bind at 1, ret at 1.
  unfold bind. destruct (init env (a_v argv) (a_video argv) w) as [[self|e] w1] eqn:Hinit;
    apply init_inv in Hinit as [-> Hk].
  - destruct Hk as (_ & _ & [? Hs]). congruence.
  - destruct Hk as [->|(_ & _ & [? Hs])]; [done|congruence].
Qed.

Lemma main_missing_input_witness :
  ("a4" : string) ∈ PAPER_CHOICES ∧
  main (demo_env true) (demo_args "nowhere.gif") empty_world
  = (Raise (OSError "nowhere.gif"), empty_world).
Proof.
  assert (Hin : ("a4" : string) ∈ PAPER_CHOICES)
    by (apply (bool_decide_unpack _); vm_compute; exact I).
  split; [exact Hin|].
  apply (main_missing_input (demo_env true) (demo_args "nowhere.gif") empty_world);
    [exact Hin|reflexivity|reflexivity].
Defined.

(** ** Frames of an animated GIF *)

Lemma develop_all_composites self size g pal l0 positions (c0 : Image) :
  source self = gif_source g pal l0 →
  develop_all self size (Some c0) (GifImageFile <$> positions)
  = Some (convert "RGBA" <$> composites pal c0 positions,
          Some (default c0 (last (composites pal c0 positions)))).
Proof.
  intros Hsrc. revert c0. induction positions as [|pos rest IH]; intros c0.
  { reflexivity. }
  cbn [fmap list_fmap develop_all develop composites]. rewrite Hsrc.
  change (list_fmap nat Frame GifImageFile rest) with (GifImageFile <$> rest).
  rewrite IH. set (c := paste c0 (putpalette pal (gif_frame pos))).
  assert (Hl : default c0 (last (c :: composites pal c rest))
               = default c (last (composites pal c rest))).
  { destruct (composites pal c rest) as [|c' l] eqn:E; [done|].
    cbn [last]. destruct (last (c' :: l)) eqn:El; [done|].
    by apply last_None in El. }
  by rewrite Hl.
Qed.

(** X22: the tiles of an animated GIF are running composites.  In a run on
    an animated GIF that reaches the frame loop with a frame count that is
    not zero, the image saved for a frame is the RGBA conversion of the
    composite so far with that frame pasted on it, starting from the
    composite the constructor left; every tile therefore shows all frames
    before it as well. *)
Theorem gif_tiles_are_composites env self out dpi offset fps h margins pf w
    self1 tmp cs w1 p im palette last_im :
  open_source env self fps w = (Return (self1, tmp, cs), w1) →
  geometry cs dpi offset h margins pf w1 = (Return p, w1) →
  source self1 = gif_source im palette last_im →
  frame_count self1 ≠ 0 →
  ∃ res w' evs,
    process env self out dpi offset fps h margins pf w = (res, w') ∧
    trace w' = trace w ++ evs ∧
    (saved evs).*2
    = convert "RGBA" <$> composites palette last_im (AnimatedGif im).1.
Proof.
  intros Hopen Hgeo Hsrc Hfc.
  destruct (AnimatedGif im) as [positions im'] eqn:Hit.
  assert (Hall : all_frames self1
                 = (GifImageFile <$> positions,
                    mkCreator (verbosity self1) (input_file_name self1)
                      (gif_source im' palette last_im) (self_fps self1)
                      (frame_count self1),
                    Some last_im))
    by (unfold all_frames; by rewrite Hsrc, Hit).
  pose proof (develop_all_composites
                (mkCreator (verbosity self1) (input_file_name self1)
                   (gif_source im' palette last_im) (self_fps self1)
                   (frame_count self1))
                (to_tuple (frame p)) im' palette last_im positions last_im
                eq_refl) as Hdev.
  destruct (process_loop_observed _ _ out dpi offset fps h margins pf w _ _ _ _ _ _
              _ _ _ _ Hopen Hgeo Hall Hdev Hfc)
    as (res & w' & evs & Hrun & Ht & _ & Hsv).
  exists res, w', evs. split; [exact Hrun|]. split; [exact Ht|].
  rewrite Hsv. cbn [fst]. apply snd_zip. unfold run_cells.
  by rewrite (length_fmap cell_name), walk_length.
Qed.

Lemma gif_tiles_are_composites_witness :
  ∃ res w' evs,
    process (demo_env true)
      (mkCreator 0 "c.gif" (gif_source gif_2 7%nat (Image_new "P" (500, 500))) 0%Qc 2)
      "flip-book.pdf" 200 (qz 15) 10 (qz 30) default_margins "a4" empty_world
    = (res, w') ∧
    trace w' = trace empty_world ++ evs ∧
    (saved evs).*2
    = convert "RGBA"
      <$> composites 7%nat (Image_new "P" (500, 500)) (AnimatedGif gif_2).1.
Proof.
  eapply (gif_tiles_are_composites (demo_env true)
            (mkCreator 0 "c.gif" (gif_source gif_2 7%nat (Image_new "P" (500, 500)))
               0%Qc 2)
            "flip-book.pdf" 200 (qz 15) 10 (qz 30) default_margins "a4"
            empty_world).
  - vm_compute. reflexivity.
  - vm_compute. reflexivity.
  - vm_compute. reflexivity.
  - vm_compute. discriminate.
Defined.

(** ** The raster as a grid *)

Lemma range_succ n : 0 ≤ n → range (n + 1) = range n ++ [n].
Proof.
  intros Hn. unfold range.
  replace (Z.to_nat (n + 1)) with (S (Z.to_nat n)) by lia.
  rewrite seq_S, fmap_app. cbn [fmap list_fmap]. repeat f_equal. lia.
Qed.

Lemma elem_of_range n k : k ∈ range n ↔ 0 ≤ k < n.
Proof.
  unfold range. rewrite list_elem_of_fmap. split.
  - intros (j & -> & Hj%elem_of_seq). lia.
  - intros Hk. exists (Z.to_nat k). split; [lia|]. apply elem_of_seq. lia.
Qed.

Lemma length_range n : 0 ≤ n → Z.of_nat (length (range n)) = n.
Proof. intros Hn. unfold range. rewrite length_fmap, length_seq. lia. Qed.

Lemma length_bind_const {A B} (f : A → list B) (l : list A) k :
  (∀ a, a ∈ l → length (f a) = k) → length (l ≫= f) = (length l * k)%nat.
Proof.
  induction l as [|a l IH]; intros Hf; [done|].
  cbn [mbind list_bind]. change (list_bind A B f l) with (l ≫= f). 
  rewrite length_app, IH, (Hf a) by (intros; apply Hf; by right) || by left.
  simpl. lia.
Qed.

Lemma scaled_between (a c : Qc) i n :
  0 ≤ i ≤ n → (0 ≤ c)%Qc → (a ≤ a + qz i * c ≤ a + qz n * c)%Qc.
Proof.
  intros Hi Hc. split.
  - rewrite <- (Qcplus_0_r a) at 1. apply Qcplus_le_mono_l.
    apply Qcmult_nonneg_nonneg; [apply qz_nonneg; lia|done].
  - apply Qcplus_le_mono_l. apply Qcmult_le_compat_r; [|done].
    apply (proj1 (qz_le _ _)). lia.
Qed.

(** X23: the raster is a closed grid.  Called as [process] calls it, with
    the far corner at [nx] cell widths and [ny] cell heights from the near
    one, for counts and cell sizes that are not negative and a binding strip
    no wider than a cell, [draw_raster] creates no file and draws only
    lines: [nx + 1] cell borders across, [nx] strip borders when the strip is
    positive, and [ny + 1] borders down, every one of them inside the
    rectangle between the two corners. *)
Theorem draw_raster_grid nx ny x0 y0 offset total w :
  0 ≤ nx → 0 ≤ ny →
  (0 ≤ width total)%Qc → (0 ≤ height total)%Qc → (offset ≤ width total)%Qc →
  let x1 := (x0 + qz nx * width total)%Qc in
  let y1 := (y0 + qz ny * height total)%Qc in
  ∃ ls,
    draw_raster nx ny x0 y0 x1 y1 offset total w
    = (Return (), mkWorld (files w) (trace w ++ ls)) ∧
    Z.of_nat (length ls)
    = (nx + 1) + (if decide (0 < offset)%Qc then nx else 0) + (ny + 1) ∧
    Forall (in_box x0 y0 x1 y1) ls.
Proof.
  intros Hnx Hny HW HH Hoff x1 y1.
  exists (raster_lines nx ny x0 y0 x1 y1 offset total).
  split; [apply draw_raster_run|]. split.
  - unfold raster_lines. rewrite length_app, length_fmap.
    rewrite range_succ, bind_app, length_app by done.
    rewrite (length_bind_const _ (range nx)
               (if decide (0 < offset)%Qc then 2 else 1)%nat).
    2:{ intros ix Hix%elem_of_range.
        destruct (decide (0 < offset)%Qc) as [Ho|Ho].
        - rewrite decide_True; [done|]. split; [done|lia].
        - rewrite decide_False; [done|]. tauto. }
    cbn [mbind list_bind app length].
    rewrite (decide_False (P := (0 < offset)%Qc ∧ nx ≠ nx)) by (by intros [_ ?]).
    pose proof (length_range nx Hnx). pose proof (length_range (ny + 1)).
    specialize (H0 ltac:(lia)).
    destruct (decide (0 < offset)%Qc); cbn [app length]; lia.
  - assert (Hy : (y0 ≤ y0 ≤ y1)%Qc ∧ (y0 ≤ y1 ≤ y1)%Qc).
    { destruct (scaled_between y0 (height total) ny ny) as [? _]; [lia|done|].
      repeat split; try done; apply Qcle_refl. }
    assert (Hx : (x0 ≤ x0 ≤ x1)%Qc ∧ (x0 ≤ x1 ≤ x1)%Qc).
    { destruct (scaled_between x0 (width total) nx nx) as [? _]; [lia|done|].
      repeat split; try done; apply Qcle_refl. }
    apply Forall_forall. intros e He. unfold raster_lines in He.
    apply elem_of_app in He as [He|He].
    + apply list_elem_of_bind in He as (ix & He & Hix%elem_of_range).
      assert (Hxx : (x0 ≤ x0 + qz ix * width total ≤ x1)%Qc)
        by (apply scaled_between; [lia|done]).
      apply elem_of_cons in He as [->|He]; [simpl; tauto|].
      case_decide as Hd; [|by apply elem_of_nil in He].
      apply list_elem_of_singleton in He as ->. destruct Hd as [Ho Hne].
      assert (Hs : (x0 ≤ x0 + qz ix * width total + offset ≤ x1)%Qc).
      { split.
        - eapply Qcle_trans; [apply Hxx|].
          rewrite <- (Qcplus_0_r (x0 + qz ix * width total)) at 1.
          apply Qcplus_le_mono_l. by apply Qclt_le_weak.
        - eapply Qcle_trans; [apply Qcplus_le_mono_l, Hoff|].
          unfold x1. rewrite <- Qcplus_assoc. apply Qcplus_le_mono_l.
          apply qz_scale_le; [lia|done]. }
      simpl. tauto.
    + apply list_elem_of_fmap in He as (iy & -> & Hiy%elem_of_range).
      assert (Hyy : (y0 ≤ y0 + qz iy * height total ≤ y1)%Qc)
        by (apply scaled_between; [lia|done]).
      simpl. tauto.
Qed.

Lemma draw_raster_grid_witness :
  ∃ ls,
    draw_raster 4 6 (qz 10) (qz 10)
      (qz 10 + qz 4 * width (total plan_a4_30))%Qc
      (qz 10 + qz 6 * height (total plan_a4_30))%Qc
      (qz 15) (total plan_a4_30) empty_world
    = (Return (), mkWorld (files empty_world) (trace empty_world ++ ls)) ∧
    Z.of_nat (length ls)
    = (4 + 1) + (if decide (0 < qz 15)%Qc then 4 else 0) + (6 + 1) ∧
    Forall (in_box (qz 10) (qz 10)
              (qz 10 + qz 4 * width (total plan_a4_30))%Qc
              (qz 10 + qz 6 * height (total plan_a4_30))%Qc) ls.
Proof.
  apply (draw_raster_grid 4 6 (qz 10) (qz 10) (qz 15) (total plan_a4_30)
           empty_world); [lia|lia|qc_closed..].
Defined.

(** ** Frame numbers *)

Lemma annotations_app a b : annotations (a ++ b) = annotations a ++ annotations b.
Proof. apply omap_app. Qed.

Lemma annotations_lines l : Forall is_line l → annotations l = [].
Proof. apply omap_none. by intros []. Qed.

Lemma annotations_tail l : Forall is_tail l → annotations l = [].
Proof. apply omap_none. by intros []. Qed.

Lemma annotations_step p offset x0 y0 x1 y1 i s im :
  annotations (step_events p offset x0 y0 x1 y1 i s im)
  = if decide (0 < offset)%Qc
    then label_events p x0 y0 i (advance (nx p) (ny p) s) else [].
Proof.
  unfold step_events. rewrite annotations_app.
  assert (H0 : annotations
                 (if decide (breaks (nx p) (ny p) s)
                  then raster_lines (nx p) (ny p) x0 y0 x1 y1 offset (total p)
                       ++ [ev_add_page]
                  else []) = []).
  { case_decide; [|done].
    by rewrite annotations_app, annotations_lines by apply raster_lines_lines. }
  rewrite H0. unfold tile_events. by destruct (decide (0 < offset)%Qc).
Qed.

Lemma annotations_loop p offset x0 y0 x1 y1 i s ims :
  annotations (loop_events p offset x0 y0 x1 y1 i s ims)
  = if decide (0 < offset)%Qc
    then mjoin (imap (λ k c, label_events p x0 y0 (i + Z.of_nat k) c)
                     (walk (nx p) (ny p) s (length ims)))
    else [].
Proof.
  revert i s. induction ims as [|im ims IH]; intros i s.
  { by case_decide. }
  cbn [loop_events length walk imap]. rewrite annotations_app, annotations_step, IH.
  destruct (decide (0 < offset)%Qc); [|done].
  cbn [mjoin list_join]. rewrite Z.add_0_r. f_equal. f_equal.
  apply imap_ext. intros k c _. cbn. f_equal. lia.
Qed.

(** X24: the frame numbers.  In a run that reaches the frame loop with a
    frame count that is not zero, nothing is printed or rotated unless the
    binding strip is positive; with a positive strip the only texts and
    rotations of the document are, for the k-th frame (counting from 0), a
    rotation by 90 about the point 2 mm above the lower left corner of its
    cell, the number k printed 5 mm below that point, and the rotation back
    to 0 before anything else is drawn. *)
Theorem frame_numbers env self out dpi offset fps h margins pf w
    self1 tmp cs w1 p frames self2 last_im :
  open_source env self fps w = (Return (self1, tmp, cs), w1) →
  geometry cs dpi offset h margins pf w1 = (Return p, w1) →
  all_frames self1 = (frames, self2, last_im) →
  frame_count self1 ≠ 0 →
  ∃ res w' evs,
    process env self out dpi offset fps h margins pf w = (res, w') ∧
    trace w' = trace w ++ evs ∧
    annotations evs
    = if decide (0 < offset)%Qc
      then mjoin (imap (λ k c, label_events p (left margins) (top margins)
                                 (Z.of_nat k) c)
                       (run_cells p (length frames)))
      else [].
Proof.
  intros Hopen Hgeo Hall Hfc.
  destruct (all_frames_develop _ (to_tuple (frame p)) _ _ _ Hall)
    as (ims & last' & Hdev & Hlen & _).
  destruct (process_trace _ _ out dpi offset fps h margins pf w _ _ _ _ _ _ _ _
              _ _ Hopen Hgeo Hall Hdev Hfc) as (res & w' & tail & Hrun & Ht & Htail).
  destruct (open_source_world _ _ _ _ _ _ _ _ Hopen) as (_ & _ & Htmp).
  exists res, w'. eexists. split; [exact Hrun|]. split; [exact Ht|].
  rewrite !annotations_app, annotations_loop, (annotations_tail tail) by done.
  assert (H0 : annotations ((λ name, ev_write_videofile name fps) <$> tmp) = [])
    by (destruct Htmp as [-> | ->]; done).
  rewrite H0, app_nil_r, Hlen.
  change (annotations (document_events pf)) with (@nil Event).
  cbn [app]. unfold run_cells. case_decide; [|done].
  f_equal.
Qed.

Lemma frame_numbers_witness :
  ∃ res w' evs,
    process (demo_env true) (clip_creator "a.mp4" (clip_16_9 10 3))
      "flip-book.pdf" 200 (qz 15) 10 (qz 30) default_margins "a4" empty_world
    = (res, w') ∧
    trace w' = trace empty_world ++ evs ∧
    annotations evs
    = if decide (0 < qz 15)%Qc
      then mjoin (imap (λ k c, label_events plan_a4_30 (left default_margins)
                                 (top default_margins) (Z.of_nat k) c)
                       (run_cells plan_a4_30 (length (ndarray <$> seq 0 3))))
      else [].
Proof.
  refine (frame_numbers (demo_env true)
            (clip_creator "a.mp4" (clip_16_9 10 3))
            "flip-book.pdf" 200 (qz 15) 10 (qz 30) default_margins "a4"
            empty_world _ _ _ _ plan_a4_30 (ndarray <$> seq 0 3) _ _ _ _ _ _).
  - vm_compute. reflexivity.
  - apply (bool_decide_unpack _). vm_compute. exact I.
  - vm_compute. reflexivity.
  - vm_compute. discriminate.
Defined.

(** ** Files after a failure *)

(** X25: a run of [process] that fails removes nothing.  Every file that
    was on disk before is still there, and so is every file the run created:
    the re-encoded video and the tile images saved so far.  Only when the
    re-encoding itself fails may [tmp.mp4] be missing. *)
Theorem failure_keeps_files env self out dpi offset fps h margins pf w e w' :
  process env self out dpi offset fps h margins pf w = (Raise e, w') →
  ∃ evs, trace w' = trace w ++ evs ∧
    files w ⊆ files w' ∧
    files w' ⊆ files w ∪ list_to_set (created evs) ∧
    (e ≠ OSError "tmp.mp4" → files w' = files w ∪ list_to_set (created evs)).
Proof.
  intros Hrun.
  pose proof (f_equal snd Hrun) as Hw. pose proof (f_equal fst Hrun) as He.
  clear Hrun. cbn [fst snd] in Hw, He.
  destruct (process_cases env self out dpi offset fps h margins pf w)
    as [(w1 & Hopen & Hr)|(self1 & tmp & cs & w1 & Hopen & [(e' & Hgeo & Hr)|Hr])];
    cbv zeta in *.
  - rewrite Hr in Hw, He. cbn [fst snd] in Hw, He. subst w'. injection He as <-.
    apply open_source_raise in Hopen as (_ & Ht & Hf & _).
    eexists. split; [exact Ht|].
    cbn [created omap list_omap list_to_set].
    destruct Hf as [-> | ->]; (split; [set_solver|split; [set_solver|done]]).
  - rewrite Hr in Hw, He. cbn [fst snd] in Hw, He. subst w'. injection He as <-.
    apply open_source_world in Hopen as (Hf & Ht & _).
    eexists. split; [exact Ht|]. rewrite created_transcodes, Hf.
    split; [set_solver|split; [set_solver|intros _; set_solver]].
  - destruct Hr as (p & frames & self2 & last_im & ims & last' & _ & _ & _ & _ & Hr).
    apply open_source_world in Hopen as (Hf & Ht & _).
    destruct Hr as [[_ Hr]|[(_ & _ & Hr)|[(_ & _ & _ & s & _ & Hr)|(_ & _ & _ & s & Hr)]]];
      rewrite Hr in Hw, He; cbn [fst snd] in Hw, He; [| | |done]; subst w';
      clear He; cbn [trace files].
    + eexists. split; [rewrite Ht, <- app_assoc; reflexivity|].
      rewrite created_app, created_transcodes, Hf.
      cbn [created document_events omap list_omap]. rewrite app_nil_r.
      split; [set_solver|split; [set_solver|intros _; set_solver]].
    + eexists. split; [rewrite Ht, <- app_assoc; reflexivity|].
      rewrite created_app, created_transcodes, Hf.
      cbn [created document_events omap list_omap]. rewrite app_nil_r.
      split; [set_solver|split; [set_solver|intros _; set_solver]].
    + eexists. split; [rewrite Ht, <- app_assoc; reflexivity|].
      rewrite !created_app, created_transcodes, created_loop, Hf.
      rewrite (created_lines (final_raster_events _ _ _ _ _ _ _))
        by apply final_raster_lines.
      cbn [created document_events omap list_omap app]. rewrite app_nil_r.
      unfold run_cells. rewrite list_to_set_app_L.
      split; [set_solver|split; [set_solver|intros _; set_solver]].
Qed.

Lemma failure_keeps_files_witness :
  ∃ e w',
    process (demo_env false) (clip_creator "b.mp4" (clip_16_9 25 3))
      "flip-book.pdf" 200 (qz 15) 10 (qz 30) default_margins "a4"
      (mkWorld {["b.mp4"]}%string []) = (Raise e, w') ∧
    ∃ evs, trace w' = trace (mkWorld {["b.mp4"]}%string []) ++ evs ∧
      files (mkWorld {["b.mp4"]}%string []) ⊆ files w' ∧
      files w' ⊆ files (mkWorld {["b.mp4"]}%string []) ∪ list_to_set (created evs) ∧
      (e ≠ OSError "tmp.mp4" →
       files w' = files (mkWorld {["b.mp4"]}%string []) ∪ list_to_set (created evs)).
Proof.
  eexists _, _. split; [vm_compute; reflexivity|].
  eapply (failure_keeps_files (demo_env false)
            (clip_creator "b.mp4" (clip_16_9 25 3))
            "flip-book.pdf" 200 (qz 15) 10 (qz 30) default_margins "a4"
            (mkWorld {["b.mp4"]}%string [])).
  vm_compute. reflexivity.
Defined.
